(** * PER exam system: a shallow embedding of the exam client, the question
      viewer and the topic configuration, with the properties checked on it.

    Sources embedded here:
    - the [ut_configuration], [user_exams] and [user_answers] tables
      (SQL schema of the exam system);
    - class [ExamSystem] (exam client: answers, navigation, timer, pause,
      results);
    - class [FilterManager] (WHERE clause and filters of the question list);
    - class [ExamViewer] (question viewer: filters, deduplication, pages,
      content hash, explanation cache).

    Conventions.  A JavaScript object used as a dictionary is a [gmap] (its
    keys are the identifiers and hashes the server hands out, none of which
    is a property name of [Object.prototype]); a
    [Map] whose iteration order matters is an association list; a property
    that may be [undefined] or [null] is an [option]; a [TypeError] raised
    by reading a property of [undefined] is the result [None].  Numbers that
    are percentages are rationals ([Q]); the 32-bit integer of the string
    hash is a [Z] with its wrap-around written out.  Each event handler runs
    to completion, so a handler is one function on the state; the answers of
    the outside world (a dialog, the reply of the server) are arguments. *)

From Stdlib Require Import ZArith QArith List Ascii String Permutation Sorted Lia.
From Stdlib Require Import HexString DecimalString DecimalZ.
From stdpp Require Import gmap strings list sorting.

Open Scope string_scope.
Open Scope list_scope.

(** JavaScript truthiness of a string-valued property: defined and not empty. *)
Definition truthy (o : option string) : option string :=
  match o with
  | Some s => if String.eqb s "" then None else Some s
  | None => None
  end.

Definition isTruthy (o : option string) : bool :=
  match truthy o with Some _ => true | None => false end.

(* ===================================================================== *)
(** * Part I. The model                                                   *)
(* ===================================================================== *)

(** ** Topic configuration: table [ut_configuration] *)

Module Config.

Record TopicConfig := {
  ut_number : nat;
  ut_name : string;
  category_name : string;
  questions_per_exam : nat;
  max_errors_allowed : option nat;   (* NULL: no specific limit *)
  is_critical : bool
}.

Definition row n name cat quota ceiling crit : TopicConfig :=
  {| ut_number := n; ut_name := name; category_name := cat;
     questions_per_exam := quota; max_errors_allowed := ceiling;
     is_critical := crit |}.

(** The eleven rows of the INSERT statement, in its order. *)
Definition ut_configuration : list TopicConfig :=
  [ row 1 "Nomenclatura náutica" "Nomenclatura náutica" 4 None false;
    row 2 "Elementos de amarre y fondeo" "Elementos de amarre y fondeo" 2 None false;
    row 3 "Seguridad" "Seguridad" 4 None false;
    row 4 "Legislación" "Legislación" 2 None false;
    row 5 "Balizamiento" "Balizamiento" 5 (Some 2) true;
    row 6 "Reglamento RIPA" "Reglamento (RIPA)" 10 (Some 5) true;
    row 7 "Maniobra" "Maniobra y navegación" 2 None false;
    row 8 "Emergencias en la mar" "Emergencias en la mar" 3 None false;
    row 9 "Meteorología" "Meteorología" 4 None false;
    row 10 "Teoría de la navegación" "Teoría de la navegación" 5 None false;
    row 11 "Carta de navegación" "Carta de navegación" 4 (Some 2) true ].

(** [status VARCHAR(20) CHECK (status IN ('in_progress', 'completed',
    'abandoned'))] of table [user_exams]. *)
Definition user_exams_status_check (status : string) : bool :=
  String.eqb status "in_progress" || String.eqb status "completed"
  || String.eqb status "abandoned".

(** [question_order INTEGER NOT NULL CHECK (question_order >= 1 AND
    question_order <= 45)] of table [exam_questions]. *)
Definition exam_questions_question_order_check (question_order : nat) : bool :=
  (1 <=? question_order)%nat && (question_order <=? 45)%nat.

(** [selected_answer CHAR(1) CHECK (selected_answer IN ('a','b','c','d'))]
    of table [user_answers]. *)
Definition user_answers_selected_answer_check (selected_answer : string) : bool :=
  String.eqb selected_answer "a" || String.eqb selected_answer "b"
  || String.eqb selected_answer "c" || String.eqb selected_answer "d".

End Config.

(** ** The exam client: class [ExamSystem] *)

Module ExamSystem.

Record QuestionDetail := {
  question_id : string;
  ut_number : nat;
  ut_category : string;
  texto_pregunta : string;
  opcion_a : option string;
  opcion_b : option string;
  opcion_c : option string;
  opcion_d : option string;
  respuesta_correcta : option string
}.

(** The reply of [/exams/generate], completed by [loadExamQuestions] with
    [questionDetails] (left undefined when that request fails). *)
Record Exam := {
  exam_id : string;
  questions : list string;
  questionDetails : option (list QuestionDetail)
}.

(** The reply of [/exams/<id>/submit]. *)
Record SubmitResults := {
  srv_passed : bool;
  score_percentage : Q;
  correct_answers : nat;
  total_questions : nat;
  duration_minutes : nat
}.

(** The four page sections; exactly one is displayed. *)
Inductive PageSection := AuthSection | DashboardSection | ExamSection | ResultsSection.

(** The fields of the object, with the set of interval timers that are
    live in the browser ([setInterval] adds one, [clearInterval] removes
    one) and the section currently shown. *)
Record State := {
  currentExam : option Exam;
  currentQuestionIndex : nat;
  userAnswers : gmap string string;
  examTimer : option nat;          (* handle of setInterval, or null *)
  timeRemaining : Z;               (* seconds *)
  examResults : option SubmitResults;
  intervals : gset nat;
  nextHandle : nat;
  shown : PageSection
}.

(** [constructor]: no exam, no answers, no timer, 90 minutes. *)
Definition constructor : State :=
  {| currentExam := None; currentQuestionIndex := 0; userAnswers := ∅;
     examTimer := None; timeRemaining := 90 * 60; examResults := None;
     intervals := ∅; nextHandle := 1; shown := AuthSection |}.

Definition set_answers (f : gmap string string → gmap string string) (s : State) : State :=
  {| currentExam := currentExam s; currentQuestionIndex := currentQuestionIndex s;
     userAnswers := f (userAnswers s); examTimer := examTimer s;
     timeRemaining := timeRemaining s; examResults := examResults s;
     intervals := intervals s; nextHandle := nextHandle s; shown := shown s |}.

Definition set_index (i : nat) (s : State) : State :=
  {| currentExam := currentExam s; currentQuestionIndex := i;
     userAnswers := userAnswers s; examTimer := examTimer s;
     timeRemaining := timeRemaining s; examResults := examResults s;
     intervals := intervals s; nextHandle := nextHandle s; shown := shown s |}.

Definition set_timeRemaining (t : Z) (s : State) : State :=
  {| currentExam := currentExam s; currentQuestionIndex := currentQuestionIndex s;
     userAnswers := userAnswers s; examTimer := examTimer s;
     timeRemaining := t; examResults := examResults s;
     intervals := intervals s; nextHandle := nextHandle s; shown := shown s |}.

Definition set_examTimer (h : option nat) (s : State) : State :=
  {| currentExam := currentExam s; currentQuestionIndex := currentQuestionIndex s;
     userAnswers := userAnswers s; examTimer := h;
     timeRemaining := timeRemaining s; examResults := examResults s;
     intervals := intervals s; nextHandle := nextHandle s; shown := shown s |}.

Definition set_shown (v : PageSection) (s : State) : State :=
  {| currentExam := currentExam s; currentQuestionIndex := currentQuestionIndex s;
     userAnswers := userAnswers s; examTimer := examTimer s;
     timeRemaining := timeRemaining s; examResults := examResults s;
     intervals := intervals s; nextHandle := nextHandle s; shown := v |}.

Definition set_examResults (r : option SubmitResults) (s : State) : State :=
  {| currentExam := currentExam s; currentQuestionIndex := currentQuestionIndex s;
     userAnswers := userAnswers s; examTimer := examTimer s;
     timeRemaining := timeRemaining s; examResults := r;
     intervals := intervals s; nextHandle := nextHandle s; shown := shown s |}.

(** [clearInterval(h)]: the timer [h] stops firing; [clearInterval(null)]
    does nothing. *)
Definition clearInterval (h : option nat) (s : State) : State :=
  match h with
  | Some i =>
      {| currentExam := currentExam s; currentQuestionIndex := currentQuestionIndex s;
         userAnswers := userAnswers s; examTimer := examTimer s;
         timeRemaining := timeRemaining s; examResults := examResults s;
         intervals := intervals s ∖ {[i]}; nextHandle := nextHandle s;
         shown := shown s |}
  | None => s
  end.

(** [startTimer]: [this.examTimer = setInterval(tick, 1000)].  A timer that
    was running before is not cleared here. *)
Definition startTimer (s : State) : State :=
  {| currentExam := currentExam s; currentQuestionIndex := currentQuestionIndex s;
     userAnswers := userAnswers s; examTimer := Some (nextHandle s);
     timeRemaining := timeRemaining s; examResults := examResults s;
     intervals := {[nextHandle s]} ∪ intervals s; nextHandle := S (nextHandle s);
     shown := shown s |}.

(** [startNewExam], on a successful reply [data] of the server: the exam
    is stored, the answers are emptied, the countdown is reset to 90
    minutes, the exam section is shown and the timer is started.  On an
    error reply ([None]) only an alert is shown. *)
Definition startNewExam (reply : option Exam) (s : State) : State :=
  match reply with
  | Some data =>
      startTimer
        {| currentExam := Some data; currentQuestionIndex := 0; userAnswers := ∅;
           examTimer := examTimer s; timeRemaining := 90 * 60;
           examResults := examResults s; intervals := intervals s;
           nextHandle := nextHandle s; shown := ExamSection |}
  | None => s
  end.

(** [saveAnswer(questionId, answer)]: [this.userAnswers[questionId] = answer]. *)
Definition saveAnswer (questionId answer : string) (s : State) : State :=
  set_answers (fun m => <[questionId := answer]> m) s.

(** The radio buttons [displayCurrentQuestion] renders: one per letter of
    a, b, c, d whose option text is present. *)
Definition option_letters (q : QuestionDetail) : list string :=
  (if isTruthy (opcion_a q) then ["a"] else [])
  ++ (if isTruthy (opcion_b q) then ["b"] else [])
  ++ (if isTruthy (opcion_c q) then ["c"] else [])
  ++ (if isTruthy (opcion_d q) then ["d"] else []).

Definition goToPreviousQuestion (s : State) : State :=
  if (0 <? currentQuestionIndex s)%nat
  then set_index (currentQuestionIndex s - 1) s else s.

Definition goToNextQuestion (s : State) : State :=
  match currentExam s with
  | Some ex =>
      if (Z.of_nat (currentQuestionIndex s) <? Z.of_nat (length (questions ex)) - 1)%Z
      then set_index (S (currentQuestionIndex s)) s else s
  | None => s
  end.

(** [pauseExam]: with a timer handle, clear it and forget it ("Examen
    pausado"); without one, start the timer ("Examen reanudado"). *)
Definition pauseExam (s : State) : State :=
  match examTimer s with
  | Some h => set_examTimer None (clearInterval (Some h) s)
  | None => startTimer s
  end.

(** [finishExam].  [confirmFinish] is the answer to the confirmation
    dialog, asked only when some question has no answer; [reply] is the
    reply of the submit request ([None]: an error, reported by an alert).
    Without an exam the handler stops with a TypeError after clearing the
    timer. *)
Definition finishExam (confirmFinish : bool) (reply : option SubmitResults)
    (s : State) : State :=
  let s1 := match examTimer s with Some h => clearInterval (Some h) s | None => s end in
  match currentExam s1 with
  | None => s1
  | Some ex =>
      let answeredCount := size (userAnswers s1) in
      let totalQuestions := length (questions ex) in
      if (answeredCount <? totalQuestions)%nat && negb confirmFinish
      then startTimer s1                           (* resume timer if cancelled *)
      else match reply with
           | Some results => set_shown ResultsSection (set_examResults (Some results) s1)
           | None => s1
           end
  end.

(** [timeUp]: clear the timer, then [finishExam]. *)
Definition timeUp (confirmFinish : bool) (reply : option SubmitResults)
    (s : State) : State :=
  finishExam confirmFinish reply (clearInterval (examTimer s) s).

(** One firing of the interval timer [h] started by [startTimer]; a
    cleared timer does not fire. *)
Definition tick (h : nat) (confirmFinish : bool) (reply : option SubmitResults)
    (s : State) : State :=
  if decide (h ∈ intervals s) then
    let s1 := set_timeRemaining (timeRemaining s - 1) s in
    if (timeRemaining s1 <=? 0)%Z then timeUp confirmFinish reply s1 else s1
  else s.

Definition showAuth (s : State) : State := set_shown AuthSection s.

Definition showDashboard (s : State) : State := set_shown DashboardSection s.

(** [displayPERStats] puts the statistics of the question bank into the
    results section and shows it. *)
Definition displayPERStats (s : State) : State := set_shown ResultsSection s.

(** The handlers a user or the browser can trigger. *)
Inductive Event :=
| EvStartNewExam (reply : option Exam)
| EvSaveAnswer (questionId answer : string)
| EvPrevious
| EvNext
| EvPause
| EvFinish (confirmFinish : bool) (reply : option SubmitResults)
| EvTick (h : nat) (confirmFinish : bool) (reply : option SubmitResults)
| EvShowDashboard
| EvShowAuth
| EvDisplayPERStats.

Definition handle (e : Event) (s : State) : State :=
  match e with
  | EvStartNewExam reply => startNewExam reply s
  | EvSaveAnswer q a => saveAnswer q a s
  | EvPrevious => goToPreviousQuestion s
  | EvNext => goToNextQuestion s
  | EvPause => pauseExam s
  | EvFinish c r => finishExam c r s
  | EvTick h c r => tick h c r s
  | EvShowDashboard => showDashboard s
  | EvShowAuth => showAuth s
  | EvDisplayPERStats => displayPERStats s
  end.

(** The client stores no status.  The status of the attempt is read off
    the fields it does keep: the section shown (the exam section during the
    attempt, the results section once [displayResults] has run), and the
    test [if (this.examTimer)] by which [pauseExam] itself tells a running
    exam from a paused one. *)
Inductive Status := not_started | in_progress | paused | completed | timed_out | abandoned.

Definition status (s : State) : Status :=
  match shown s with
  | ExamSection => match examTimer s with Some _ => in_progress | None => paused end
  | ResultsSection => completed
  | _ => not_started
  end.

Definition status_name (st : Status) : string :=
  match st with
  | not_started => "not_started" | in_progress => "in_progress"
  | paused => "paused" | completed => "completed"
  | timed_out => "timed_out" | abandoned => "abandoned"
  end.

(** *** Scoring: [calculateAndShowResults] and [checkIfPassed] *)

Record UTResult := { correct : nat; total : nat; errors : nat }.

Record Results := {
  correctAnswers : nat;
  totalAnswered : nat;
  totalQuestions : nat;
  percentage : Q;
  passed : bool;
  utResults : gmap nat UTResult
}.

(** [for (let i = 1; i <= 11; i++) utResults[i] = {correct: 0, total: 0, errors: 0}] *)
Definition initialUTResults : gmap nat UTResult :=
  fold_left (fun m i => <[i := {| correct := 0; total := 0; errors := 0 |}]> m)
            (seq 1 11) ∅.

(** [userAnswer === question.respuesta_correcta] *)
Definition isCorrect (userAnswer : string) (q : QuestionDetail) : bool :=
  match respuesta_correcta q with
  | Some r => String.eqb userAnswer r
  | None => false
  end.

(** The body of the [forEach] over [questionDetails].  The accumulator is
    [(correctAnswers, totalAnswered, utResults)]. *)
Definition tally (answers : gmap string string)
    (acc : nat * nat * gmap nat UTResult) (q : QuestionDetail)
    : option (nat * nat * gmap nat UTResult) :=
  let '(correctAnswers, totalAnswered, ut) := acc in
  match ut !! ut_number q with
  | None => None                      (* utResults[utNumber] is undefined *)
  | Some u =>
      let u1 := {| correct := correct u; total := S (total u); errors := errors u |} in
      match truthy (answers !! question_id q) with
      | Some userAnswer =>
          if isCorrect userAnswer q
          then Some (S correctAnswers, S totalAnswered,
                     <[ut_number q := {| correct := S (correct u1); total := total u1;
                                         errors := errors u1 |}]> ut)
          else Some (correctAnswers, S totalAnswered,
                     <[ut_number q := {| correct := correct u1; total := total u1;
                                         errors := S (errors u1) |}]> ut)
      | None => Some (correctAnswers, totalAnswered, <[ut_number q := u1]> ut)
      end
  end.

Fixpoint forEach (answers : gmap string string) (qs : list QuestionDetail)
    (acc : nat * nat * gmap nat UTResult) : option (nat * nat * gmap nat UTResult) :=
  match qs with
  | [] => Some acc
  | q :: rest =>
      match tally answers acc q with
      | Some acc' => forEach answers rest acc'
      | None => None
      end
  end.

(** [const criticalUTs = {5: 2, 6: 5, 11: 2}], in the order of
    [Object.entries]. *)
Definition criticalUTs : list (nat * nat) := [(5, 2); (6, 5); (11, 2)].

Fixpoint checkCriticalUTs (entries : list (nat * nat)) (ut : gmap nat UTResult)
    : option bool :=
  match entries with
  | [] => Some true
  | (utNumber, maxErrors) :: rest =>
      match ut !! utNumber with
      | None => None
      | Some u => if (maxErrors <? errors u)%nat then Some false
                  else checkCriticalUTs rest ut
      end
  end.

(** [checkIfPassed(percentage, utResults)] *)
Definition checkIfPassed (percentage : Q) (ut : gmap nat UTResult) : option bool :=
  if Qlt_le_dec percentage 65 then Some false
  else checkCriticalUTs criticalUTs ut.

(** [totalAnswered > 0 ? (correctAnswers / totalAnswered * 100) : 0] *)
Definition percentageOf (correctAnswers totalAnswered : nat) : Q :=
  if (0 <? totalAnswered)%nat
  then (inject_Z (Z.of_nat correctAnswers) / inject_Z (Z.of_nat totalAnswered) * 100)%Q
  else 0%Q.

(** [calculateAndShowResults], up to the call of [displayResults]: the
    object it hands over; [None] is a TypeError before the call. *)
Definition calculateAndShowResults (s : State) : option Results :=
  match currentExam s with
  | None => None
  | Some ex =>
      match questionDetails ex with
      | None => None
      | Some details =>
          match forEach (userAnswers s) details (0, 0, initialUTResults) with
          | None => None
          | Some (correctAnswers, totalAnswered, ut) =>
              let percentage := percentageOf correctAnswers totalAnswered in
              match checkIfPassed percentage ut with
              | None => None
              | Some passed =>
                  Some {| correctAnswers := correctAnswers;
                          totalAnswered := totalAnswered;
                          totalQuestions := length (questions ex);
                          percentage := percentage;
                          passed := passed;
                          utResults := ut |}
              end
          end
      end
  end.

(** *** Showing the results: [displayResults] *)

(** The object given to [displayResults], by two of the properties that
    [displayResults] reads: [passed], and [ut_results], which is [None]
    when the object has no such property.  (The others, [score_percentage],
    [correct_answers], [total_questions] and [duration_minutes], are
    written into the text as they are, present or not.) *)
Record ResultsObject := {
  results_passed : bool;
  results_ut_results : option (gmap nat UTResult)
}.

(** The object literal of [calculateAndShowResults] has the properties
    [correctAnswers], [totalAnswered], [totalQuestions], [percentage],
    [passed] and [utResults]; of the properties that [displayResults]
    reads it has [passed] alone. *)
Definition resultsObject (r : Results) : ResultsObject :=
  {| results_passed := passed r; results_ut_results := None |}.

(** The row of a topic in the summary: its number, and [ut.correct] and
    [ut.total], from which the figures of the row are written. *)
Record UTRow := { row_ut : nat; row_correct : nat; row_total : nat }.

(** [for (let i = 1; i <= 11; i++) { const ut = utResults[i]; ... }] *)
Fixpoint utRows (topics : list nat) (utResults : gmap nat UTResult)
    : option (list UTRow) :=
  match topics with
  | [] => Some []
  | i :: rest =>
      match utResults !! i with
      | None => None                  (* ut is undefined: ut.total *)
      | Some ut =>
          match utRows rest utResults with
          | Some rows =>
              Some ({| row_ut := i; row_correct := correct ut; row_total := total ut |}
                    :: rows)
          | None => None
          end
      end
  end.

(** [generateUTResultsHTML(utResults)]; [utResults[i]] is a TypeError when
    [utResults] is undefined. *)
Definition generateUTResultsHTML (utResults : option (gmap nat UTResult))
    : option (list UTRow) :=
  match utResults with
  | None => None
  | Some ut => utRows (seq 1 11) ut
  end.

(** What [displayResults] puts on screen. *)
Record Summary := { summary_passed : bool; summary_rows : list UTRow }.

(** [displayResults(results)]: the summary is written, and the results
    screen shown, once the template with the rows of
    [generateUTResultsHTML(results.ut_results)] has been evaluated. *)
Definition displayResults (results : ResultsObject) : option Summary :=
  match generateUTResultsHTML (results_ut_results results) with
  | Some rows =>
      Some {| summary_passed := results_passed results; summary_rows := rows |}
  | None => None
  end.

(** [calculateAndShowResults()], with the call of [displayResults]: what
    it puts on screen; [None] is a TypeError, with nothing shown. *)
Definition resultsShown (s : State) : option Summary :=
  match calculateAndShowResults s with
  | Some results => displayResults (resultsObject results)
  | None => None
  end.

(** *** Navigation and timer display *)

(** [updateNavigationButtons]: whether the previous button is disabled, and,
    unless there is no exam (a TypeError after the first assignment),
    whether the question is the last one, in which case the next button is
    hidden and the finish button is shown, and the other way round
    otherwise. *)
Definition updateNavigationButtons (s : State) : bool * option bool :=
  (Nat.eqb (currentQuestionIndex s) 0,
   match currentExam s with
   | Some ex =>
       Some (Z.eqb (Z.of_nat (currentQuestionIndex s))
                   (Z.of_nat (length (questions ex)) - 1))
   | None => None
   end).

(** [n.toString()] for an integer. *)
Definition toString (n : Z) : string := NilZero.string_of_int (Z.to_int n).

(** [s.padStart(2, '0')] *)
Definition padStart2 (s : string) : string :=
  match String.length s with
  | 0%nat => String "0" (String "0" s)
  | 1%nat => String "0" s
  | _ => s
  end.

(** [updateTimerDisplay]: the text of the timer, [minutes:seconds] with
    [Math.floor(timeRemaining / 60)] and [timeRemaining % 60], and whether
    the warning class is added. *)
Definition updateTimerDisplay (s : State) : string * bool :=
  let minutes := (timeRemaining s / 60)%Z in
  let seconds := Z.rem (timeRemaining s) 60 in
  ((toString minutes ++ ":" ++ padStart2 (toString seconds))%string,
   (timeRemaining s <=? 600)%Z).

(** A sequence of events, handled one after the other. *)
Definition handleAll (events : list Event) (s : State) : State :=
  fold_left (λ s e, handle e s) events s.

End ExamSystem.

(** ** The filter module: class [FilterManager] *)

Module FilterManager.

(** A value of a property of a question or of the filters: a string when
    the property is there.  The set of hashes of [applyFilters] tells
    [undefined] from [null], so both are kept apart here. *)
Inductive Value := Undefined | Null | Str (s : string).

#[global] Instance Value_eq_dec : EqDecision Value.
Proof. solve_decision. Defined.

Definition Value_encode (v : Value) : unit + (unit + string) :=
  match v with Undefined => inl () | Null => inr (inl ()) | Str s => inr (inr s) end.

Definition Value_decode (x : unit + (unit + string)) : Value :=
  match x with inl _ => Undefined | inr (inl _) => Null | inr (inr s) => Str s end.

#[global] Instance Value_countable : Countable Value.
Proof.
  refine (inj_countable' Value_encode Value_decode _). intros v. by destruct v.
Defined.

(** [if (v)]: a non-empty string. *)
Definition isTruthy (v : Value) : bool :=
  match v with
  | Str s => negb (String.eqb s "")
  | _ => false
  end.

(** [conditions.join(sep)] *)
Fixpoint join (sep : string) (l : list string) : string :=
  match l with
  | [] => ""
  | [s] => s
  | s :: rest => (s ++ sep ++ join sep rest)%string
  end.

(** The text of a value inside a template literal. *)
Definition text (v : Value) : string :=
  match v with Undefined => "undefined" | Null => "null" | Str s => s end.

Record Conditions := { whereClause : string; params : list Value }.

(** [buildFilterConditions(convocatoria, tema, search_text)] *)
Definition buildFilterConditions (convocatoria tema search_text : Value) : Conditions :=
  let conditions := [] in
  let params := [] in
  let '(conditions, params) :=
    if isTruthy convocatoria
    then (conditions ++ ["e.convocatoria = ?"], params ++ [convocatoria])
    else (conditions, params) in
  let '(conditions, params) :=
    if isTruthy tema
    then (conditions ++ ["(q.categoria = ? OR q.subcategoria = ?)"], params ++ [tema; tema])
    else (conditions, params) in
  let '(conditions, params) :=
    if isTruthy search_text
    then (conditions ++ ["q.texto_pregunta LIKE ?"],
          params ++ [Str ("%" ++ text search_text ++ "%")%string])
    else (conditions, params) in
  {| whereClause := if (0 <? length conditions)%nat then join " AND " conditions else "1=1";
     params := params |}.

(** The properties of a question that [applyFilters] reads.  Two of them
    have the name of a filter and carry the prefix [q_] here. *)
Record Question := {
  q_convocatoria : Value;
  tipo_examen : Value;
  q_test : Value;
  categoria : Value;
  subcategoria : Value;
  texto_pregunta : Value;
  hash_pregunta : Value
}.

Record Filters := {
  convocatoria : Value;
  titulacion : Value;
  test : Value;
  tema : Value;
  search : Value;
  duplicados : bool
}.

(** [s.includes(needle)] *)
Fixpoint includes (s needle : string) : bool :=
  String.prefix needle s
  || match s with
     | EmptyString => false
     | String _ rest => includes rest needle
     end.

(** The filter on duplicates: a question is dropped when the set already
    has its hash, which is added otherwise. *)
Fixpoint uniqueFilter (uniqueHashes : gset Value) (qs : list Question) : list Question :=
  match qs with
  | [] => []
  | q :: rest =>
      if bool_decide (hash_pregunta q ∈ uniqueHashes) then uniqueFilter uniqueHashes rest
      else q :: uniqueFilter ({[hash_pregunta q]} ∪ uniqueHashes) rest
  end.

Section WithStrings.

(** [String.prototype.toLowerCase], whose case mapping covers all of
    Unicode, is left open. *)
Variable toLowerCase : string → string.

(** The filter on the search text; [q.texto_pregunta.toLowerCase()] is a
    TypeError when the text of a question is not a string. *)
Fixpoint searchFilter (needle : string) (qs : list Question) : option (list Question) :=
  match qs with
  | [] => Some []
  | q :: rest =>
      match texto_pregunta q with
      | Str t =>
          let keep := includes (toLowerCase t) (toLowerCase needle) in
          match searchFilter needle rest with
          | Some rest' => Some (if keep then q :: rest' else rest')
          | None => None
          end
      | _ => None
      end
  end.

(** [applyFilters(questions, filters)] *)
Definition applyFilters (questions : list Question) (filters : Filters)
    : option (list Question) :=
  let filtered := questions in
  let filtered :=
    if isTruthy (convocatoria filters)
    then List.filter (λ q, bool_decide (q_convocatoria q = convocatoria filters)) filtered
    else filtered in
  let filtered :=
    if isTruthy (titulacion filters)
    then List.filter (λ q, bool_decide (tipo_examen q = titulacion filters)) filtered
    else filtered in
  let filtered :=
    if isTruthy (test filters)
    then List.filter (λ q, bool_decide (q_test q = test filters)) filtered
    else filtered in
  let filtered :=
    if isTruthy (tema filters)
    then List.filter (λ q, bool_decide (categoria q = tema filters)
                           || bool_decide (subcategoria q = tema filters)) filtered
    else filtered in
  match (if isTruthy (search filters)
         then searchFilter (text (search filters)) filtered
         else Some filtered) with
  | Some filtered =>
      Some (if duplicados filters then uniqueFilter ∅ filtered else filtered)
  | None => None
  end.

End WithStrings.

(** [clearFilters()] *)
Definition clearFilters : Filters :=
  {| convocatoria := Str ""; titulacion := Str ""; test := Str ""; tema := Str "";
     search := Str ""; duplicados := false |}.

End FilterManager.

(** ** The question viewer: class [ExamViewer] *)

Module ExamViewer.

Record Opcion := { letra : string; texto : option string }.

(** An entry of [otras_apariciones]: where else the same question occurs. *)
Record OtraAparicion := {
  oa_hash_pregunta : option string;
  oa_convocatoria : string;
  oa_numero_test : string
}.

Record Pregunta := {
  numero : nat;
  enunciado : option string;
  opciones : option (list Opcion);
  respuesta_correcta : option string;
  tema : option string;
  hash_pregunta : option string;
  hash_explicacion : option string;
  es_duplicada : bool;
  otras_apariciones : option (list OtraAparicion)
}.

Record Examen := {
  titulacion : string;
  convocatoria_id : option string;
  convocatoria : string;
  numero_test : string;
  tipo_examen : string;
  preguntas : list Pregunta
}.

(** A question with the metadata of its exam, [{...pregunta,
    examen_titulacion, examen_convocatoria, examen_test, examen_tipo}]. *)
Record Question := {
  pregunta : Pregunta;
  examen_titulacion : string;
  examen_convocatoria : string;
  examen_test : string;
  examen_tipo : string
}.

(** An entry of [todas_apariciones]. *)
Record Occurrence := {
  occ_examen_titulacion : string;
  occ_examen_convocatoria : string;
  occ_examen_test : string;
  occ_numero : nat
}.

(** [{...question, todas_apariciones: [...]}] *)
Record EnhancedQuestion := {
  question : Question;
  todas_apariciones : list Occurrence
}.

(** *** [deduplicateQuestions] *)

(** A [Map] from hash to question; [values()] runs in insertion order. *)
Definition QuestionMap := list (string * EnhancedQuestion).

Definition map_has (key : string) (m : QuestionMap) : bool :=
  existsb (λ entry, String.eqb (fst entry) key) m.

Definition map_set (key : string) (value : EnhancedQuestion) (m : QuestionMap)
    : QuestionMap :=
  if map_has key m
  then map (λ entry, if String.eqb (fst entry) key then (key, value) else entry) m
  else m ++ [(key, value)].

Definition map_values (m : QuestionMap) : list EnhancedQuestion := map snd m.

(** [q.hash_pregunta === hash] *)
Definition hasHash (hash : string) (q : Question) : bool :=
  match hash_pregunta (pregunta q) with
  | Some h => String.eqb h hash
  | None => false
  end.

Definition occurrence (q : Question) : Occurrence :=
  {| occ_examen_titulacion := examen_titulacion q;
     occ_examen_convocatoria := examen_convocatoria q;
     occ_examen_test := examen_test q;
     occ_numero := numero (pregunta q) |}.

(** The question with the occurrences of its hash among [questions]. *)
Definition enhance (questions : list Question) (hash : string) (q : Question)
    : EnhancedQuestion :=
  {| question := q;
     todas_apariciones := map occurrence (List.filter (hasHash hash) questions) |}.

(** The body of [questions.forEach]. *)
Definition keepFirst (questions : list Question) (uniqueQuestionsMap : QuestionMap)
    (q : Question) : QuestionMap :=
  match truthy (hash_pregunta (pregunta q)) with
  | Some hash =>
      if map_has hash uniqueQuestionsMap then uniqueQuestionsMap
      else map_set hash (enhance questions hash q) uniqueQuestionsMap
  | None => uniqueQuestionsMap
  end.

Definition deduplicateQuestions (questions : list Question) : list EnhancedQuestion :=
  map_values (fold_left (keepFirst questions) questions []).

(** *** The content hash: [calculateQuestionHashSync]

    [calculateQuestionHashSync] is the hash function the viewer calls; its
    asynchronous sibling [calculateQuestionHash], which no code calls, builds
    the same text [contenido].

    Texts are byte strings, the UTF-8 form of the strings of the program.
    A byte below 128 is an ASCII character; a byte from 128 on is part of a
    character outside ASCII, which is no [\w] character, so that the two
    [replace] calls turn it into blank space whether or not it is a [\s]
    character.

    [String.prototype.toLowerCase] maps all of Unicode (the Kelvin sign
    U+212A becomes [k], the dotted capital I U+0130 becomes [i] and a
    combining dot), so it is left open: the functions that call it take it
    as [toLowerCase].  [lowerAscii] is what it does to a text of ASCII
    characters. *)

Definition charCode (c : ascii) : nat := nat_of_ascii c.

Definition isUpper (c : ascii) : bool :=
  (65 <=? charCode c)%nat && (charCode c <=? 90)%nat.

Definition isLower (c : ascii) : bool :=
  (97 <=? charCode c)%nat && (charCode c <=? 122)%nat.

Definition isDigit (c : ascii) : bool :=
  (48 <=? charCode c)%nat && (charCode c <=? 57)%nat.

(** The class [\w]: [A-Za-z0-9_]. *)
Definition isWord (c : ascii) : bool :=
  isUpper c || isLower c || isDigit c || (charCode c =? 95)%nat.

(** The class [\s], on ASCII: tab, line feed, vertical tab, form feed,
    carriage return, space. *)
Definition isSpace (c : ascii) : bool :=
  ((9 <=? charCode c)%nat && (charCode c <=? 13)%nat) || (charCode c =? 32)%nat.

Definition lowerChar (c : ascii) : ascii :=
  if isUpper c then ascii_of_nat (charCode c + 32) else c.

(** [texto.toLowerCase()] for a text [texto] of ASCII characters. *)
Fixpoint lowerAscii (s : string) : string :=
  match s with
  | EmptyString => EmptyString
  | String c rest => String (lowerChar c) (lowerAscii rest)
  end.

(** [.replace(/[^\w\s]/g, ' ')] *)
Fixpoint replacePunctuation (s : string) : string :=
  match s with
  | EmptyString => EmptyString
  | String c rest =>
      String (if isWord c || isSpace c then c else " "%char) (replacePunctuation rest)
  end.

(** [.replace(/\s+/g, ' ')]: every maximal run of [\s] characters becomes
    one space.  [inRun] tells that the previous character was in a run. *)
Fixpoint collapseFrom (inRun : bool) (s : string) : string :=
  match s with
  | EmptyString => EmptyString
  | String c rest =>
      if isSpace c
      then if inRun then collapseFrom true rest
           else String " " (collapseFrom true rest)
      else String c (collapseFrom false rest)
  end.

Definition collapseWhitespace (s : string) : string := collapseFrom false s.

Fixpoint trimStart (s : string) : string :=
  match s with
  | EmptyString => EmptyString
  | String c rest => if isSpace c then trimStart rest else s
  end.

Fixpoint trimEnd (s : string) : string :=
  match s with
  | EmptyString => EmptyString
  | String c rest =>
      match trimEnd rest with
      | EmptyString => if isSpace c then EmptyString else String c EmptyString
      | kept => String c kept
      end
  end.

(** [.trim()] *)
Definition trim (s : string) : string := trimEnd (trimStart s).

Section WithLowerCase.

(** [String.prototype.toLowerCase] *)
Variable toLowerCase : string → string.

(** [normalizarTexto(texto)] *)
Definition normalizarTexto (texto : option string) : string :=
  match truthy texto with
  | None => ""
  | Some t => trim (collapseWhitespace (replacePunctuation (toLowerCase t)))
  end.

(** [opciones.map(op => normalizarTexto(op.texto)).filter(texto => texto)
    .sort().join('|')].  The default [sort] orders strings by their code
    units, which is [String.le]; the sorted list of a list of strings is
    unique, so that the algorithm of the engine does not matter. *)
Definition opcionesNorm (opciones : list Opcion) : string :=
  String.concat "|"
    (merge_sort String.le
       (List.filter (λ t, negb (String.eqb t ""))
                    (map (λ op, normalizarTexto (texto op)) opciones))).

(** [const contenido = `${enunciadoNorm}|${opcionesNorm}`] *)
Definition contenido (p : Pregunta) : string :=
  let enunciado := default "" (truthy (enunciado p)) in
  let opciones := default [] (opciones p) in
  (normalizarTexto (Some enunciado) ++ "|" ++ opcionesNorm opciones)%string.

(** ToInt32: the value of a number as a signed 32-bit integer. *)
Definition toInt32 (z : Z) : Z := ((z + 2 ^ 31) mod 2 ^ 32 - 2 ^ 31)%Z.

(** [hash = ((hash << 5) - hash) + char; hash = hash & hash], for every
    character of the string in turn. *)
Fixpoint hashLoop (hash : Z) (s : string) : Z :=
  match s with
  | EmptyString => hash
  | String c rest =>
      hashLoop (toInt32 (toInt32 (hash * 32) - hash + Z.of_nat (charCode c))) rest
  end.

(** [n.toString(16)] for a non-negative integer. *)
Definition toString16 (n : Z) : string :=
  match n with
  | Zpos p => HexString.Raw.of_pos p ""
  | _ => "0"
  end.

Fixpoint repeatChar (c : ascii) (n : nat) : string :=
  match n with
  | O => EmptyString
  | S k => String c (repeatChar c k)
  end.

(** [s.padStart(16, '0')] *)
Definition padStart16 (s : string) : string :=
  (repeatChar "0" (16 - String.length s) ++ s)%string.

(** [calculateQuestionHashSync(pregunta)]: the hash the question already
    has, when it has one; the string hash of [contenido] otherwise. *)
Definition calculateQuestionHashSync (p : Pregunta) : string :=
  match truthy (hash_pregunta p) with
  | Some stored => stored
  | None => padStart16 (toString16 (Z.abs (hashLoop 0 (contenido p))))
  end.

End WithLowerCase.

(** *** The explanation cache: [this.explicaciones] *)

Record Explicacion := { resumen_pregunta : string; conclusion : string }.

(** What the POST to [/generar-explicacion] comes back with: an HTTP error
    ([callOpenAI] throws), a body that is not an explanation (falsy), or an
    explanation. *)
Inductive Reply := ReplyError | ReplyEmpty | ReplyExplicacion (explicacion : Explicacion).

(** A call of the [async] method [generateExplanation] that has not
    returned is suspended at one of its two [await]s. *)
Inductive Task :=
| AwaitGenerator (hashPregunta : string)
| AwaitSave (hashPregunta : string) (explicacion : Explicacion)
| Finished.

(** The fields of the viewer the explanations use, the requests sent to the
    generator so far (oldest first), the explanation modal on screen, the
    alerts shown, and the calls of [generateExplanation] in the order they
    were made. *)
Record Viewer := {
  data : option (list Examen);
  explicaciones : gmap string Explicacion;
  generatorCalls : list Question;
  modal : option (Explicacion * string);
  alerts : list string;
  tasks : list Task
}.

Definition set_data (d : option (list Examen)) (v : Viewer) : Viewer :=
  {| data := d; explicaciones := explicaciones v; generatorCalls := generatorCalls v;
     modal := modal v; alerts := alerts v; tasks := tasks v |}.

Definition set_explicaciones (m : gmap string Explicacion) (v : Viewer) : Viewer :=
  {| data := data v; explicaciones := m; generatorCalls := generatorCalls v;
     modal := modal v; alerts := alerts v; tasks := tasks v |}.

Definition set_modal (m : option (Explicacion * string)) (v : Viewer) : Viewer :=
  {| data := data v; explicaciones := explicaciones v;
     generatorCalls := generatorCalls v; modal := m; alerts := alerts v;
     tasks := tasks v |}.

Definition set_tasks (t : list Task) (v : Viewer) : Viewer :=
  {| data := data v; explicaciones := explicaciones v;
     generatorCalls := generatorCalls v; modal := modal v; alerts := alerts v;
     tasks := t |}.

Definition alert (message : string) (v : Viewer) : Viewer :=
  {| data := data v; explicaciones := explicaciones v;
     generatorCalls := generatorCalls v; modal := modal v;
     alerts := alerts v ++ [message]; tasks := tasks v |}.

(** [fetch('/generar-explicacion', {body: JSON.stringify(pregunta)})] *)
Definition callOpenAI (q : Question) (v : Viewer) : Viewer :=
  {| data := data v; explicaciones := explicaciones v;
     generatorCalls := generatorCalls v ++ [q]; modal := modal v;
     alerts := alerts v; tasks := tasks v |}.

(** [pregunta.hash_explicacion || pregunta.hash_pregunta] *)
Definition preguntaHash (p : Pregunta) : option string :=
  match truthy (hash_explicacion p) with
  | Some h => Some h
  | None => hash_pregunta p
  end.

Definition withExamen (ex : Examen) (p : Pregunta) : Question :=
  {| pregunta := p;
     examen_titulacion := titulacion ex;
     examen_convocatoria := default (convocatoria ex) (truthy (convocatoria_id ex));
     examen_test := numero_test ex;
     examen_tipo := tipo_examen ex |}.

Fixpoint findInPreguntas (hashPregunta : string) (ex : Examen) (ps : list Pregunta)
    : option Question :=
  match ps with
  | [] => None
  | p :: rest =>
      if bool_decide (preguntaHash p = Some hashPregunta) then Some (withExamen ex p)
      else findInPreguntas hashPregunta ex rest
  end.

Fixpoint findInExamenes (hashPregunta : string) (examenes : list Examen)
    : option Question :=
  match examenes with
  | [] => None
  | ex :: rest =>
      match findInPreguntas hashPregunta ex (preguntas ex) with
      | Some q => Some q
      | None => findInExamenes hashPregunta rest
      end
  end.

(** [findQuestionByHash(hashPregunta)] *)
Definition findQuestionByHash (hashPregunta : string) (v : Viewer) : option Question :=
  match data v with
  | None => None
  | Some examenes => findInExamenes hashPregunta examenes
  end.

(** [getExplanationHash(pregunta)]: [hash_pregunta] when it has one, else
    null. *)
Definition getExplanationHash (p : Pregunta) : option string :=
  truthy (hash_pregunta p).

(** [hashPregunta && this.explicaciones.hasOwnProperty(hashPregunta)] *)
Definition checkExplanationExists (hashPregunta : option string) (v : Viewer) : bool :=
  match truthy hashPregunta with
  | Some h => bool_decide (is_Some (explicaciones v !! h))
  | None => false
  end.

(** The button of a question: it shows the explanation or asks for one.
    The hash is written into the [onclick] attribute, null as the text
    [null]. *)
Inductive Button :=
| ViewButton (hashPregunta : string)        (* onclick: showExplanation *)
| GenerateButton (hashPregunta : string).   (* onclick: generateExplanation *)

Definition renderExplanationButton (q : Question) (v : Viewer) : Button :=
  let hashPregunta := getExplanationHash (pregunta q) in
  let tieneExplicacion := checkExplanationExists hashPregunta v in
  if tieneExplicacion then ViewButton (default "null" hashPregunta)
  else GenerateButton (default "null" hashPregunta).

(** [showExplanation(hashPregunta)] *)
Definition showExplanation (hashPregunta : string) (v : Viewer) : Viewer :=
  match explicaciones v !! hashPregunta with
  | Some explicacion => set_modal (Some (explicacion, hashPregunta)) v
  | None => alert "Explicación no disponible" v
  end.

Definition withHashExplicacion (hashExplicacion : string) (p : Pregunta) : Pregunta :=
  {| numero := numero p; enunciado := enunciado p; opciones := opciones p;
     respuesta_correcta := respuesta_correcta p; tema := tema p;
     hash_pregunta := hash_pregunta p; hash_explicacion := Some hashExplicacion;
     es_duplicada := es_duplicada p; otras_apariciones := otras_apariciones p |}.

Definition withPreguntas (ps : list Pregunta) (ex : Examen) : Examen :=
  {| titulacion := titulacion ex; convocatoria_id := convocatoria_id ex;
     convocatoria := convocatoria ex; numero_test := numero_test ex;
     tipo_examen := tipo_examen ex; preguntas := ps |}.

(** The first question with [hash_pregunta === hashPregunta] gets the
    explanation hash; the result is the new list and that question. *)
Fixpoint assignInPreguntas (hashPregunta hashExplicacion : string) (ps : list Pregunta)
    : option (list Pregunta * Pregunta) :=
  match ps with
  | [] => None
  | p :: rest =>
      if bool_decide (hash_pregunta p = Some hashPregunta)
      then Some (withHashExplicacion hashExplicacion p :: rest,
                 withHashExplicacion hashExplicacion p)
      else match assignInPreguntas hashPregunta hashExplicacion rest with
           | Some (rest', found) => Some (p :: rest', found)
           | None => None
           end
  end.

Fixpoint assignInExamenes (hashPregunta hashExplicacion : string)
    (examenes : list Examen) : option (list Examen * Pregunta) :=
  match examenes with
  | [] => None
  | ex :: rest =>
      match assignInPreguntas hashPregunta hashExplicacion (preguntas ex) with
      | Some (ps', found) => Some (withPreguntas ps' ex :: rest, found)
      | None =>
          match assignInExamenes hashPregunta hashExplicacion rest with
          | Some (rest', found) => Some (ex :: rest', found)
          | None => None
          end
      end
  end.

(** The test of the innermost loop over the other occurrences. *)
Definition sameOccurrence (otra : OtraAparicion) (ex : Examen) (p : Pregunta) : bool :=
  bool_decide (hash_pregunta p = oa_hash_pregunta otra)
  && String.eqb (convocatoria ex) (oa_convocatoria otra)
  && String.eqb (numero_test ex) (oa_numero_test otra).

(** In one exam, the first question that passes the test gets the
    explanation hash ([break] leaves the loop over that exam only). *)
Fixpoint markFirst (test : Pregunta → bool) (hashExplicacion : string)
    (ps : list Pregunta) : list Pregunta :=
  match ps with
  | [] => []
  | p :: rest =>
      if test p then withHashExplicacion hashExplicacion p :: rest
      else p :: markFirst test hashExplicacion rest
  end.

Definition markOccurrence (hashExplicacion : string) (examenes : list Examen)
    (otra : OtraAparicion) : list Examen :=
  map (λ ex, withPreguntas (markFirst (sameOccurrence otra ex) hashExplicacion
                                      (preguntas ex)) ex)
      examenes.

(** [assignExplanationToQuestionAndDuplicates(hashPregunta, hashExplicacion)] *)
Definition assignExplanationToQuestionAndDuplicates (hashPregunta hashExplicacion : string)
    (examenes : list Examen) : list Examen :=
  match assignInExamenes hashPregunta hashExplicacion examenes with
  | None => examenes
  | Some (examenes', found) =>
      match es_duplicada found, otras_apariciones found with
      | true, Some otras => fold_left (markOccurrence hashExplicacion) otras examenes'
      | _, _ => examenes'
      end
  end.

(** [saveExplanation(hashPregunta, explicacion)] up to its [await]: the
    cache entry is written and the hash is assigned to the question and its
    duplicates.  Without data the assignment throws, which the [catch] of
    [saveExplanation] swallows. *)
Definition saveExplanation (hashPregunta : string) (explicacion : Explicacion)
    (v : Viewer) : Viewer :=
  let v1 := set_explicaciones (<[hashPregunta := explicacion]> (explicaciones v)) v in
  match data v1 with
  | Some examenes =>
      set_data (Some (assignExplanationToQuestionAndDuplicates
                        hashPregunta hashPregunta examenes)) v1
  | None => v1
  end.

(** [generateExplanation(hashPregunta)] from its call to its first [await]:
    the question is looked up and, when found, sent to the generator. *)
Definition generateExplanation (hashPregunta : string) (v : Viewer) : Viewer :=
  match findQuestionByHash hashPregunta v with
  | None => alert "Error: No se encontró la pregunta" v
  | Some q => set_tasks (tasks v ++ [AwaitGenerator hashPregunta]) (callOpenAI q v)
  end.

(** The call number [i] resumes with the reply of the generator. *)
Definition generatorReplies (i : nat) (reply : Reply) (v : Viewer) : Viewer :=
  match tasks v !! i with
  | Some (AwaitGenerator hashPregunta) =>
      match reply with
      | ReplyExplicacion explicacion =>
          set_tasks (<[i := AwaitSave hashPregunta explicacion]> (tasks v))
                    (saveExplanation hashPregunta explicacion v)
      | ReplyError =>
          set_tasks (<[i := Finished]> (tasks v))
                    (alert "Error generando explicación: Error del API Flask" v)
      | ReplyEmpty =>
          set_tasks (<[i := Finished]> (tasks v))
                    (alert "Error generando explicación: No se pudo generar la explicación" v)
      end
  | _ => v
  end.

(** The call number [i] resumes after [saveExplanation]: the cache entry is
    written again and the explanation is shown. *)
Definition saveReplies (i : nat) (v : Viewer) : Viewer :=
  match tasks v !! i with
  | Some (AwaitSave hashPregunta explicacion) =>
      set_tasks (<[i := Finished]> (tasks v))
        (showExplanation hashPregunta
           (set_explicaciones (<[hashPregunta := explicacion]> (explicaciones v)) v))
  | _ => v
  end.

(** A click on a button of the question list. *)
Definition click (b : Button) (v : Viewer) : Viewer :=
  match b with
  | ViewButton hashPregunta => showExplanation hashPregunta v
  | GenerateButton hashPregunta => generateExplanation hashPregunta v
  end.

(** What can happen to the viewer, one event at a time: a call of
    [generateExplanation], a reply of the generator to the call number [i],
    the end of the save of the call number [i]. *)
Inductive ViewerEvent :=
| Calls (hashPregunta : string)
| GeneratorReplies (i : nat) (reply : Reply)
| SaveReplies (i : nat).

Definition step (v : Viewer) (e : ViewerEvent) : Viewer :=
  match e with
  | Calls hashPregunta => generateExplanation hashPregunta v
  | GeneratorReplies i reply => generatorReplies i reply v
  | SaveReplies i => saveReplies i v
  end.

Definition run (events : list ViewerEvent) (v : Viewer) : Viewer :=
  fold_left step events v.

(** *** The filters of the viewer: the filter of [applyFilters], [clearFilters] *)

Module Filters.

Record t := {
  titulacion : string;
  convocatoria : string;
  test : string;
  tema : string;
  duplicados : bool;
  search : string
}.

End Filters.

(** The filters the constructor and [clearFilters] set. *)
Definition clearFilters : Filters.t :=
  {| Filters.titulacion := "all"; Filters.convocatoria := "all"; Filters.test := "all";
     Filters.tema := "all"; Filters.duplicados := true; Filters.search := "" |}.

(** The test of a question is the number of the test of its exam, marked
    for a released PER exam. *)
Definition testIdentifier (ex : Examen) : string :=
  if String.eqb (titulacion ex) "PER" && String.eqb (tipo_examen ex) "PER_LIBERADO"
  then (numero_test ex ++ " (Liberado)")%string
  else numero_test ex.

(** [{...pregunta, examen_titulacion, examen_convocatoria, examen_test,
    examen_tipo}] as [applyFilters] builds it. *)
Definition tagged (ex : Examen) (p : Pregunta) : Question :=
  {| pregunta := p;
     examen_titulacion := titulacion ex;
     examen_convocatoria := default (convocatoria ex) (truthy (convocatoria_id ex));
     examen_test := testIdentifier ex;
     examen_tipo := tipo_examen ex |}.

(** [allQuestions], after the two nested [forEach]. *)
Definition collectQuestions (examenes : list Examen) : list Question :=
  concat (map (λ ex, map (tagged ex) (preguntas ex)) examenes).

(** [`${question.examen_titulacion}_${question.examen_test}_${question.numero}`] *)
Definition questionId (q : Question) : string :=
  (examen_titulacion q ++ "_" ++ examen_test q ++ "_"
   ++ ExamSystem.toString (Z.of_nat (numero (pregunta q))))%string.

(** What [applyFilters] shows: the questions as they are, or the
    deduplicated questions with their occurrences. *)
Inductive Filtered :=
| WithDuplicates (questions : list Question)
| WithoutDuplicates (questions : list EnhancedQuestion).

Section WithStrings.

(** [String.prototype.toLowerCase], whose case mapping covers all of
    Unicode, is left open here. *)
Variable toLowerCase : string → string.

(** The callback of [allQuestions.filter]; reading the text of a question
    without [enunciado] is a TypeError. *)
Definition keeps (filters : Filters.t) (q : Question) : option bool :=
  if negb (String.eqb (Filters.titulacion filters) "all")
     && negb (String.eqb (examen_titulacion q) (Filters.titulacion filters))
  then Some false
  else if negb (String.eqb (Filters.convocatoria filters) "all")
          && negb (String.eqb (examen_convocatoria q) (Filters.convocatoria filters))
  then Some false
  else if negb (String.eqb (Filters.test filters) "all")
          && negb (String.eqb (examen_test q) (Filters.test filters))
  then Some false
  else if negb (String.eqb (Filters.tema filters) "all")
          && negb (bool_decide (tema (pregunta q) = Some (Filters.tema filters)))
  then Some false
  else if negb (String.eqb (Filters.search filters) "")
  then
    let searchText := toLowerCase (Filters.search filters) in
    match enunciado (pregunta q) with
    | None => None
    | Some enunciado =>
        let questionText := toLowerCase enunciado in
        let questionId := toLowerCase (questionId q) in
        if negb (FilterManager.includes questionText searchText)
           && negb (FilterManager.includes questionId searchText)
        then Some false
        else Some true
    end
  else Some true.

(** [allQuestions.filter(callback)] *)
Fixpoint filterQuestions (filters : Filters.t) (qs : list Question)
    : option (list Question) :=
  match qs with
  | [] => Some []
  | q :: rest =>
      match keeps filters q with
      | None => None
      | Some keep =>
          match filterQuestions filters rest with
          | Some rest' => Some (if keep then q :: rest' else rest')
          | None => None
          end
      end
  end.

End WithStrings.

(** *** Deleting explanations *)

(** [deleteExplanation(hashPregunta)] of the edit modal; [confirmed] is the
    answer to its confirmation dialog. *)
Definition deleteExplanation (confirmed : bool) (hashPregunta : string) (v : Viewer)
    : Viewer :=
  if confirmed then set_explicaciones (delete hashPregunta (explicaciones v)) v else v.

(** [regenerateExplanation(hashPregunta)]: the state the handler leaves, and
    the call its timer makes half a second later. *)
Definition regenerateExplanation (confirmed : bool) (hashPregunta : string) (v : Viewer)
    : Viewer * ViewerEvent :=
  (deleteExplanation confirmed hashPregunta v, Calls hashPregunta).

(** [clearAllExplanations()] up to its [await]. *)
Definition clearAllExplanations (v : Viewer) : Viewer := set_explicaciones ∅ v.

(** *** Pages: [renderQuestions] and [renderPagination] *)

Definition questionsPerPage : Z := 10.

(** [l.slice(start, end)] *)
Definition slice {A} (l : list A) (start end_ : Z) : list A :=
  let len := Z.of_nat (length l) in
  let k := if (start <? 0)%Z then Z.max (len + start) 0 else Z.min start len in
  let final := if (end_ <? 0)%Z then Z.max (len + end_) 0 else Z.min end_ len in
  take (Z.to_nat (final - k)) (drop (Z.to_nat k) l).

(** [renderQuestions]: the questions put on the page [currentPage]; none,
    and a message instead, when no question is left by the filters. *)
Definition renderQuestions {A} (filteredQuestions : list A) (currentPage : Z) : list A :=
  if (length filteredQuestions =? 0)%nat then []
  else
    let startIndex := ((currentPage - 1) * questionsPerPage)%Z in
    let endIndex := Z.min (startIndex + questionsPerPage)
                          (Z.of_nat (length filteredQuestions)) in
    slice filteredQuestions startIndex endIndex.

(** [Math.ceil(length / questionsPerPage)] *)
Definition totalPages {A} (filteredQuestions : list A) : Z :=
  ((Z.of_nat (length filteredQuestions) + questionsPerPage - 1) / questionsPerPage)%Z.

Inductive PageLabel := PreviousPage | NumberedPage (i : Z) | NextPage.

(** A button of [createPageButton(text, page)]; a click on it sets
    [currentPage] to [page]. *)
Record PageButton := { label : PageLabel; page : Z; active : bool }.

(** [for (let i = startPage; i <= endPage; i++)] *)
Definition pagesFromTo (startPage endPage : Z) : list Z :=
  map (λ k, (startPage + Z.of_nat k)%Z) (seq 0 (Z.to_nat (endPage - startPage + 1))).

(** [renderPagination] *)
Definition renderPagination {A} (filteredQuestions : list A) (currentPage : Z)
    : list PageButton :=
  let totalPages := totalPages filteredQuestions in
  if (totalPages <=? 1)%Z then []
  else
    (if (1 <? currentPage)%Z
     then [{| label := PreviousPage; page := currentPage - 1; active := false |}]
     else [])
    ++ map (λ i, {| label := NumberedPage i; page := i; active := (i =? currentPage)%Z |})
           (pagesFromTo (Z.max 1 (currentPage - 2)) (Z.min totalPages (currentPage + 2)))
    ++ (if (currentPage <? totalPages)%Z
        then [{| label := NextPage; page := currentPage + 1; active := false |}]
        else []).

(** *** [applyFilters] *)

(** The questions that [this.filteredQuestions] holds. *)
Definition shownQuestions (filtered : Filtered) : list Question :=
  match filtered with
  | WithDuplicates questions => questions
  | WithoutDuplicates questions => map question questions
  end.

(** Of a card, the hash written on it and the options it lists. *)
Record Card := { data_hash : option string; options : list Opcion }.

(** [createQuestionCard(question)]; [question.opciones.map] is a TypeError
    for a question without [opciones]. *)
Definition createQuestionCard (q : Question) : option Card :=
  match opciones (pregunta q) with
  | Some opciones =>
      Some {| data_hash := getExplanationHash (pregunta q); options := opciones |}
  | None => None
  end.

(** [questionsToShow.forEach(question => container.appendChild(
    this.createQuestionCard(question)))] *)
Fixpoint renderCards (questionsToShow : list Question) : option (list Card) :=
  match questionsToShow with
  | [] => Some []
  | q :: rest =>
      match createQuestionCard q with
      | Some card =>
          match renderCards rest with
          | Some cards => Some (card :: cards)
          | None => None
          end
      | None => None
      end
  end.

(** How a call of [applyFilters] ends: it returns, with the questions held
    and the current page; or it stops with a TypeError in the callback of
    the filter, before anything is assigned; or it stops with a TypeError
    while the cards are built, after the questions and the page have been
    assigned. *)
Inductive Outcome :=
| Returns (shown : Filtered * Z)
| ThrowsInFilter
| ThrowsInRender (shown : Filtered * Z).

(** [applyFilters()], from the questions held and the current page before
    it.  After the assignments it renders the statistics, the cards of the
    first page and the page buttons. *)
Definition applyFilters (toLowerCase : string → string) (filters : Filters.t)
    (data : option (list Examen)) (shown : Filtered * Z) : Outcome :=
  match data with
  | None => Returns shown
  | Some examenes =>
      match filterQuestions toLowerCase filters (collectQuestions examenes) with
      | None => ThrowsInFilter
      | Some filteredQuestions =>
          let filtered :=
            if negb (Filters.duplicados filters)
            then WithoutDuplicates (deduplicateQuestions filteredQuestions)
            else WithDuplicates filteredQuestions in
          let currentPage := 1%Z in
          match renderCards (renderQuestions (shownQuestions filtered) currentPage) with
          | Some _ => Returns (filtered, currentPage)
          | None => ThrowsInRender (filtered, currentPage)
          end
      end
  end.

End ExamViewer.

(** ** The exam assembler *)

Module Assembler.

(** Modelled from the spec: a question of the pool (section 3), as far as
    assembly reads it; the pool is kept by the server, which is not among
    the sources. *)
Record Question := {
  id : string;
  topic : nat;               (* thematic unit, 1 to 11 *)
  fingerprint : string       (* content fingerprint *)
}.

(** Modelled from the spec: the error of an assembly that cannot meet a
    quota (section 7); raised by the server, which is not among the
    sources. *)
Inductive Error :=
| InsufficientPoolError (topicId available required : nat).

Section Assemble.

(** The filters of the request (exam sitting, licence). *)
Variable filters : Question → bool.

(** The random choices: the order in which the candidates of a topic
    come up in the draw, and the final shuffle of the positions. *)
Variable draw : nat → list Question → list Question.
Variable shuffle : list Question → list Question.

(** Modelled from the spec: [byTopic(topicId, filters)] of the question
    pool (section 4.2), a lookup of the server, which is not among the
    sources. *)
Definition byTopic (topicId : nat) (pool : list Question) : list Question :=
  List.filter (λ q, (topic q =? topicId)%nat && filters q) pool.

(** Modelled from the spec: the draw for one topic, which is part of
    the server's exam generation and not among the sources.  Candidates
    are taken one by one, without replacement; a candidate whose
    fingerprint already appears in the exam under construction is
    rejected; the draw stops when the quota is met.  The result is the
    extended exam and the number of questions still missing. *)
Fixpoint drawTopic (candidates : list Question) (missing : nat)
    (exam : list Question) : list Question * nat :=
  match candidates with
  | [] => (exam, missing)
  | c :: rest =>
      match missing with
      | 0 => (exam, 0)
      | S fewer =>
          if bool_decide (fingerprint c ∈ map fingerprint exam)
          then drawTopic rest missing exam
          else drawTopic rest fewer (exam ++ [c])
      end
  end.

(** Modelled from the spec: the loop over the rows of the topic
    configuration (server code, not among the sources).  A topic whose
    filtered pool cannot fill its quota fails the whole assembly. *)
Fixpoint assembleRows (rows : list Config.TopicConfig) (pool exam : list Question)
    : Error + list Question :=
  match rows with
  | [] => inr exam
  | r :: rest =>
      let required := Config.questions_per_exam r in
      let topicId := Config.ut_number r in
      let '(exam', missing) :=
        drawTopic (draw topicId (byTopic topicId pool)) required exam in
      match missing with
      | 0 => assembleRows rest pool exam'
      | S _ => inl (InsufficientPoolError topicId (required - missing) required)
      end
  end.

(** Modelled from the spec: [assemble(userId, filters)] of section 4.3
    (the exam generation of the server, not among the sources): one draw
    per row of [ut_configuration], then the shuffle of the positions. *)
Definition assemble (pool : list Question) : Error + list Question :=
  match assembleRows Config.ut_configuration pool [] with
  | inl e => inl e
  | inr exam => inr (shuffle exam)
  end.

End Assemble.

End Assembler.

(** ** Vocabulary of the properties

    The counting functions, the relations and the rules of the
    specification in which the properties of Part II are stated, and the
    auxiliary functions of their proofs. *)

Definition count_if {A} (P : A → bool) (l : list A) : nat := length (List.filter P l).

(** The question has an answer (a non-empty letter) in [answers]. *)
Definition answered (answers : gmap string string) (q : ExamSystem.QuestionDetail) : bool :=
  isTruthy (answers !! ExamSystem.question_id q).

(** The question has an answer and it is the correct letter. *)
Definition answeredCorrectly (answers : gmap string string)
    (q : ExamSystem.QuestionDetail) : bool :=
  match truthy (answers !! ExamSystem.question_id q) with
  | Some a => ExamSystem.isCorrect a q
  | None => false
  end.

(** The question has an answer and it is not the correct letter. *)
Definition answeredWrongly (answers : gmap string string)
    (q : ExamSystem.QuestionDetail) : bool :=
  match truthy (answers !! ExamSystem.question_id q) with
  | Some a => negb (ExamSystem.isCorrect a q)
  | None => false
  end.

Definition inTopic (t : nat) (q : ExamSystem.QuestionDetail) : bool :=
  (ExamSystem.ut_number q =? t)%nat.

(** What one question adds to the counters of topic [t]. *)
Definition bump (answers : gmap string string) (t : nat) (q : ExamSystem.QuestionDetail)
    (u : ExamSystem.UTResult) : ExamSystem.UTResult :=
  {| ExamSystem.correct := ExamSystem.correct u
       + (if inTopic t q && answeredCorrectly answers q then 1 else 0);
     ExamSystem.total := ExamSystem.total u + (if inTopic t q then 1 else 0);
     ExamSystem.errors := ExamSystem.errors u
       + (if inTopic t q && answeredWrongly answers q then 1 else 0) |}.

(** The scoring rule of the specification, as it is worded there: the
    percentage is taken over all the questions of the exam, and a question
    without a correct answer, answered or not, is an error of its topic. *)
Definition unanswered_counts_as_incorrect (s : ExamSystem.State) : Prop :=
  ∀ ex details res,
    ExamSystem.currentExam s = Some ex →
    ExamSystem.questionDetails ex = Some details →
    ExamSystem.calculateAndShowResults s = Some res →
    (ExamSystem.percentage res
     == inject_Z (Z.of_nat (ExamSystem.correctAnswers res))
        / inject_Z (Z.of_nat (length (ExamSystem.questions ex))) * 100)%Q
    ∧ ∀ t u, ExamSystem.utResults res !! t = Some u →
        ExamSystem.errors u
        = count_if (λ q, inTopic t q && negb (answeredCorrectly (ExamSystem.userAnswers s) q))
                   details.

(** The pass rule of the specification, as it is worded there: the overall
    percentage is taken over all the questions of the exam, and the errors
    of a topic are its questions without a correct answer, answered or
    not. *)
Definition pass_rule_as_specified (s : ExamSystem.State) : Prop :=
  ∀ ex details res,
    ExamSystem.currentExam s = Some ex →
    ExamSystem.questionDetails ex = Some details →
    ExamSystem.calculateAndShowResults s = Some res →
    let answers := ExamSystem.userAnswers s in
    ExamSystem.passed res = true
    ↔ (65 * length (ExamSystem.questions ex)
       ≤ 100 * count_if (answeredCorrectly answers) details)%nat
      ∧ ∀ r, r ∈ Config.ut_configuration → Config.is_critical r = true →
          ∃ m, Config.max_errors_allowed r = Some m
               ∧ (count_if (λ q, inTopic (Config.ut_number r) q
                                 && negb (answeredCorrectly answers q)) details
                  ≤ m)%nat.

(** The questions of [qs] whose hash is present and occurs neither in [seen]
    nor earlier in [qs], in the order of [qs]. *)
Fixpoint firstOccurrences (seen : list string) (qs : list ExamViewer.Question)
    : list ExamViewer.Question :=
  match qs with
  | [] => []
  | q :: rest =>
      match truthy (ExamViewer.hash_pregunta (ExamViewer.pregunta q)) with
      | Some hash =>
          if bool_decide (hash ∈ seen) then firstOccurrences seen rest
          else q :: firstOccurrences (seen ++ [hash]) rest
      | None => firstOccurrences seen rest
      end
  end.

(** The hash of a question, when it has one (defined and not empty). *)
Definition presentHash (q : ExamViewer.Question) : option string :=
  truthy (ExamViewer.hash_pregunta (ExamViewer.pregunta q)).

(** Variations of a text that the fingerprint is claimed to ignore. *)



(** An ASCII character. *)
Definition isAscii (c : ascii) : bool := (ExamViewer.charCode c <? 128)%nat.

Fixpoint allAscii (s : string) : bool :=
  match s with
  | EmptyString => true
  | String c rest => isAscii c && allAscii rest
  end.






Definition opcionesOf (p : ExamViewer.Pregunta) : list ExamViewer.Opcion :=
  default [] (ExamViewer.opciones p).






(** Auxiliary functions of the proofs about [normalizarTexto]. *)

(** The text after [toLowerCase] and the first [replace]. *)
Definition prepared (toLowerCase : string → string) (s : string) : string :=
  ExamViewer.replacePunctuation (toLowerCase s).

(** The whole chain of [normalizarTexto] on a string. *)
Definition normalized (toLowerCase : string → string) (s : string) : string :=
  ExamViewer.trim (ExamViewer.collapseWhitespace (prepared toLowerCase s)).

(** What the text after [toLowerCase] and the first [replace] has in the
    place of the ASCII character [c]. *)
Definition preparedChar (c : ascii) : ascii :=
  let lower := ExamViewer.lowerChar c in
  if ExamViewer.isWord lower || ExamViewer.isSpace lower then lower else " "%char.

(** What the proofs use of [String.prototype.toLowerCase].  The empty text
    stays empty.  An ASCII character becomes its lower-case form wherever it
    stands, and the text before it and the text after it become what they
    become without it, up to the form of the Greek small sigma, the one
    character whose lower-case form depends on its neighbours; the first
    [replace] blanks both forms, which is why the fact is stated after
    it. *)
Record lowersAscii (toLowerCase : string → string) : Prop := {
  lower_empty : toLowerCase "" = "";
  lower_ascii (a : string) (c : ascii) (b : string) :
    isAscii c = true →
    prepared toLowerCase (a ++ String c b)
    = (prepared toLowerCase a
       ++ String (preparedChar c) (prepared toLowerCase b))%string
}.

(** The text has no letter A to Z. *)
Fixpoint noUpper (s : string) : bool :=
  match s with
  | EmptyString => true
  | String c rest => negb (ExamViewer.isUpper c) && noUpper rest
  end.

(** No lower-case form has a letter A to Z. *)
Definition lowersUpper (toLowerCase : string → string) : Prop :=
  ∀ s, noUpper (toLowerCase s) = true.



(** The entry the loop of [deduplicateQuestions] stores for a first
    occurrence. *)
Definition firstEntry (all : list ExamViewer.Question) (q : ExamViewer.Question)
    : string * ExamViewer.EnhancedQuestion :=
  let hash := default "" (presentHash q) in (hash, ExamViewer.enhance all hash q).




(** The quota the rows [rows] give to topic [t]. *)
Definition quotaOf (rows : list Config.TopicConfig) (t : nat) : nat :=
  sum_list (map Config.questions_per_exam
                (List.filter (λ r, (Config.ut_number r =? t)%nat) rows)).

Definition ofTopic (t : nat) (q : Assembler.Question) : bool :=
  (Assembler.topic q =? t)%nat.

(** Recording an answer as the specification words it: refused unless the
    session is in progress, and refused, the session left as it is, when the
    letter is not an option letter of the question. *)
Definition recordAnswer_validates (s : ExamSystem.State) (questionId letter : string) : Prop :=
  (ExamSystem.status s ≠ ExamSystem.in_progress →
     ExamSystem.saveAnswer questionId letter s = s)
  ∧ ∀ ex details q,
      ExamSystem.currentExam s = Some ex →
      ExamSystem.questionDetails ex = Some details →
      q ∈ details → ExamSystem.question_id q = questionId →
      letter ∉ ExamSystem.option_letters q →
      ExamSystem.saveAnswer questionId letter s = s.

(** The pause rule of the specification: [paused] is entered only from
    [in_progress] and left only to [in_progress]. *)
Definition paused_only_between_in_progress : Prop :=
  ∀ e s,
    (ExamSystem.status (ExamSystem.handle e s) = ExamSystem.paused →
       ExamSystem.status s = ExamSystem.paused
       ∨ ExamSystem.status s = ExamSystem.in_progress)
    ∧ (ExamSystem.status s = ExamSystem.paused →
       ExamSystem.status (ExamSystem.handle e s) = ExamSystem.paused
       ∨ ExamSystem.status (ExamSystem.handle e s) = ExamSystem.in_progress).



(** The current question is a position of the exam: with an exam, the
    index is at most the number of its questions minus one. *)
Definition indexInExam (s : ExamSystem.State) : Prop :=
  match ExamSystem.currentExam s with
  | Some ex =>
      (ExamSystem.currentQuestionIndex s ≤ length (ExamSystem.questions ex) - 1)%nat
  | None => True
  end.

(** Every live interval timer is the one [examTimer] holds. *)
Definition timersTracked (s : ExamSystem.State) : Prop :=
  ∀ h, h ∈ ExamSystem.intervals s → ExamSystem.examTimer s = Some h.

(** The sum of one counter of [utResults] over the topics 1 to 11. *)
Definition topicSum (f : ExamSystem.UTResult → nat)
    (ut : gmap nat ExamSystem.UTResult) : nat :=
  sum_list_with (λ t, from_option f 0%nat (ut !! t)) (seq 1 11).

(** Reading a decimal numeral, leading zeros allowed. *)
Definition parseDecimal (s : string) : option Z :=
  Z.of_int <$> NilZero.int_of_string s.

(** The number of occurrences of a character in a text. *)
Fixpoint countChar (c : ascii) (s : string) : nat :=
  match s with
  | EmptyString => 0
  | String a rest => (if Ascii.eqb a c then 1 else 0) + countChar c rest
  end.

(** The question meets the filters on the session, the degree, the test
    and the topic that are set. *)
Definition passesSelects (f : FilterManager.Filters) (q : FilterManager.Question) : bool :=
  implb (FilterManager.isTruthy (FilterManager.convocatoria f))
        (bool_decide (FilterManager.q_convocatoria q = FilterManager.convocatoria f))
  && implb (FilterManager.isTruthy (FilterManager.titulacion f))
           (bool_decide (FilterManager.tipo_examen q = FilterManager.titulacion f))
  && implb (FilterManager.isTruthy (FilterManager.test f))
           (bool_decide (FilterManager.q_test q = FilterManager.test f))
  && implb (FilterManager.isTruthy (FilterManager.tema f))
           (bool_decide (FilterManager.categoria q = FilterManager.tema f)
            || bool_decide (FilterManager.subcategoria q = FilterManager.tema f)).

(** The text of the question contains the search text, both in lower
    case. *)
Definition passesSearch (toLowerCase : string → string) (f : FilterManager.Filters)
    (q : FilterManager.Question) : Prop :=
  FilterManager.isTruthy (FilterManager.search f) = true →
  ∃ t before after,
    FilterManager.texto_pregunta q = FilterManager.Str t
    ∧ toLowerCase t
      = (before ++ toLowerCase (FilterManager.text (FilterManager.search f)) ++ after)%string.

(** The test of the filter on the search text. *)
Definition found (toLowerCase : string → string) (needle : string)
    (q : FilterManager.Question) : bool :=
  match FilterManager.texto_pregunta q with
  | FilterManager.Str t =>
      FilterManager.includes (toLowerCase t) (toLowerCase needle)
  | _ => false
  end.

(** The questions of the loaded exams in document order, each with the
    metadata of its exam. *)
Definition allQuestions (examenes : list ExamViewer.Examen) : list ExamViewer.Question :=
  concat (map (λ ex, map (ExamViewer.withExamen ex) (ExamViewer.preguntas ex)) examenes).

(** The question is known under the hash: by its [hash_explicacion] when it
    has one, by its [hash_pregunta] otherwise. *)
Definition knownAs (hash : string) (q : ExamViewer.Question) : bool :=
  bool_decide (ExamViewer.preguntaHash (ExamViewer.pregunta q) = Some hash).

(** [p'] is [p], possibly with the explanation hash [hashExplicacion]. *)
Definition sameButExplanation (hashExplicacion : string) (p p' : ExamViewer.Pregunta)
    : Prop :=
  p' = p ∨ p' = ExamViewer.withHashExplicacion hashExplicacion p.

(** [ex'] is [ex] with some of its questions given the explanation hash. *)
Definition sameExamButExplanation (hashExplicacion : string)
    (ex ex' : ExamViewer.Examen) : Prop :=
  ∃ ps', ex' = ExamViewer.withPreguntas ps' ex
         ∧ Forall2 (sameButExplanation hashExplicacion) (ExamViewer.preguntas ex) ps'.

(** The characters a normalized text is made of, besides the space. *)
Definition isNormalChar (c : ascii) : bool :=
  ExamViewer.isLower c || ExamViewer.isDigit c || (ExamViewer.charCode c =? 95)%nat.

(** Normal characters and single spaces; no space comes first when
    [afterSpace] is set.  A space may come last. *)
Fixpoint loose (afterSpace : bool) (s : string) : bool :=
  match s with
  | EmptyString => true
  | String c rest =>
      if Ascii.eqb c " " then negb afterSpace && loose true rest
      else isNormalChar c && loose false rest
  end.

(** The same, and no space comes last. *)
Fixpoint spaced (afterSpace : bool) (s : string) : bool :=
  match s with
  | EmptyString => negb afterSpace
  | String c rest =>
      if Ascii.eqb c " " then negb afterSpace && spaced true rest
      else isNormalChar c && spaced false rest
  end.

(** A text in normal form: words of lower-case letters, digits and
    underscores, with one space between two words and none around. *)
Definition normalForm (s : string) : Prop := s = "" ∨ spaced true s = true.

(** Every character is a normal character or white space. *)
Fixpoint allClean (s : string) : bool :=
  match s with
  | EmptyString => true
  | String c rest => (isNormalChar c || ExamViewer.isSpace c) && allClean rest
  end.

(** A digit of a lower-case hexadecimal numeral. *)
Definition isHexDigit (c : ascii) : bool :=
  ExamViewer.isDigit c
  || ((97 <=? ExamViewer.charCode c)%nat && (ExamViewer.charCode c <=? 102)%nat).

Fixpoint allHex (s : string) : bool :=
  match s with
  | EmptyString => true
  | String c rest => isHexDigit c && allHex rest
  end.

(** The text has no vertical bar, the separator of [contenido]. *)
Fixpoint barFree (s : string) : bool :=
  match s with
  | EmptyString => true
  | String c rest => negb (Ascii.eqb c "|") && barFree rest
  end.

(** The normalized texts of the options of a question that are not empty. *)
Definition opcionesNormalizadas (toLowerCase : string → string)
    (p : ExamViewer.Pregunta) : list string :=
  List.filter (λ t, negb (String.eqb t ""))
              (map (λ op, ExamViewer.normalizarTexto toLowerCase (ExamViewer.texto op))
                   (opcionesOf p)).

(** The question meets the filters of the viewer on the degree, the
    session, the test and the topic. *)
Definition viewerSelects (f : ExamViewer.Filters.t) (q : ExamViewer.Question) : bool :=
  (String.eqb (ExamViewer.Filters.titulacion f) "all"
   || String.eqb (ExamViewer.examen_titulacion q) (ExamViewer.Filters.titulacion f))
  && (String.eqb (ExamViewer.Filters.convocatoria f) "all"
      || String.eqb (ExamViewer.examen_convocatoria q) (ExamViewer.Filters.convocatoria f))
  && (String.eqb (ExamViewer.Filters.test f) "all"
      || String.eqb (ExamViewer.examen_test q) (ExamViewer.Filters.test f))
  && (String.eqb (ExamViewer.Filters.tema f) "all"
      || bool_decide (ExamViewer.tema (ExamViewer.pregunta q)
                      = Some (ExamViewer.Filters.tema f))).

(** No search text is set, or the prompt or the identifier of the question
    contains it, all in lower case. *)
Definition viewerSearch (lowerCase : string → string) (f : ExamViewer.Filters.t)
    (q : ExamViewer.Question) : bool :=
  String.eqb (ExamViewer.Filters.search f) ""
  || match ExamViewer.enunciado (ExamViewer.pregunta q) with
     | Some enunciado =>
         FilterManager.includes (lowerCase enunciado)
                                (lowerCase (ExamViewer.Filters.search f))
         || FilterManager.includes (lowerCase (ExamViewer.questionId q))
                                   (lowerCase (ExamViewer.Filters.search f))
     | None => false
     end.

(** The question has one of the hashes. *)
Definition inHashes (hashes : list string) (q : ExamViewer.Question) : bool :=
  existsb (λ hash, ExamViewer.hasHash hash q) hashes.

(** ** Concrete inputs *)

Definition question (id : string) (ut : nat) (answer : string) : ExamSystem.QuestionDetail :=
  {| ExamSystem.question_id := id; ExamSystem.ut_number := ut;
     ExamSystem.ut_category := "Balizamiento";
     ExamSystem.texto_pregunta := "Marca lateral de babor";
     ExamSystem.opcion_a := Some "roja"; ExamSystem.opcion_b := Some "verde";
     ExamSystem.opcion_c := Some "amarilla"; ExamSystem.opcion_d := Some "negra";
     ExamSystem.respuesta_correcta := Some answer |}.

Definition exam_of_two : ExamSystem.Exam :=
  {| ExamSystem.exam_id := "e1"; ExamSystem.questions := ["q1"; "q2"];
     ExamSystem.questionDetails := Some [question "q1" 5 "a"; question "q2" 5 "b"] |}.

(** An exam of two questions of topic 5 just started, with the first
    question answered correctly and the second left without answer. *)
Definition one_answered : ExamSystem.State :=
  ExamSystem.saveAnswer "q1" "a"
    (ExamSystem.startNewExam (Some exam_of_two) ExamSystem.constructor).

(** A pool for the assembler: twelve questions per topic, all of different
    content; question [i] of topic [t] has the fingerprint made of the two
    characters numbered [t] and [i]. *)
Definition pool_question (t i : nat) : Assembler.Question :=
  {| Assembler.id := String (ascii_of_nat (64 + t)) (String (ascii_of_nat (64 + i)) "");
     Assembler.topic := t;
     Assembler.fingerprint :=
       String (ascii_of_nat (96 + t)) (String (ascii_of_nat (96 + i)) "") |}.

Definition large_pool : list Assembler.Question :=
  flat_map (λ t, map (pool_question t) (seq 1 12)) (seq 1 11).

(** The same exam just started, nothing answered: the timer with handle 1
    is running. *)
Definition just_started : ExamSystem.State :=
  ExamSystem.startNewExam (Some exam_of_two) ExamSystem.constructor.

(** The same exam with both questions answered, then paused. *)
Definition answered_then_paused : ExamSystem.State :=
  ExamSystem.pauseExam
    (ExamSystem.saveAnswer "q2" "b" (ExamSystem.saveAnswer "q1" "a" just_started)).

(** Two wordings of one question: the prompt differs in case and in its
    final punctuation, and the options are in the other order. *)
Definition babor : ExamViewer.Pregunta :=
  {| ExamViewer.numero := 1; ExamViewer.enunciado := Some "Babor?";
     ExamViewer.opciones :=
       Some [ {| ExamViewer.letra := "a"; ExamViewer.texto := Some "Roja" |};
              {| ExamViewer.letra := "b"; ExamViewer.texto := Some "Verde" |} ];
     ExamViewer.respuesta_correcta := Some "a"; ExamViewer.tema := None;
     ExamViewer.hash_pregunta := None; ExamViewer.hash_explicacion := None;
     ExamViewer.es_duplicada := false; ExamViewer.otras_apariciones := None |}.




(** A viewer with one exam of one question and an empty explanation cache. *)
Definition bocina : ExamViewer.Pregunta :=
  {| ExamViewer.numero := 12; ExamViewer.enunciado := Some "Una pitada larga";
     ExamViewer.opciones := None;
     ExamViewer.respuesta_correcta := Some "c"; ExamViewer.tema := Some "RIPA";
     ExamViewer.hash_pregunta := Some "0f3a9c5e7b1d2468";
     ExamViewer.hash_explicacion := None;
     ExamViewer.es_duplicada := false; ExamViewer.otras_apariciones := None |}.

Definition one_exam : ExamViewer.Examen :=
  {| ExamViewer.titulacion := "PER"; ExamViewer.convocatoria_id := None;
     ExamViewer.convocatoria := "2024-06"; ExamViewer.numero_test := "01";
     ExamViewer.tipo_examen := "PER_NORMAL"; ExamViewer.preguntas := [bocina] |}.

Definition empty_cache : ExamViewer.Viewer :=
  {| ExamViewer.data := Some [one_exam]; ExamViewer.explicaciones := ∅;
     ExamViewer.generatorCalls := []; ExamViewer.modal := None;
     ExamViewer.alerts := []; ExamViewer.tasks := [] |}.

Definition first_explanation : ExamViewer.Explicacion :=
  {| ExamViewer.resumen_pregunta := "pitada larga";
     ExamViewer.conclusion := "atencion" |}.

Definition second_explanation : ExamViewer.Explicacion :=
  {| ExamViewer.resumen_pregunta := "pitada larga";
     ExamViewer.conclusion := "buque de propulsion mecanica" |}.

(** Both calls get their reply, then both saves end. *)
Definition both_reply : list ExamViewer.ViewerEvent :=
  [ ExamViewer.GeneratorReplies 0 (ExamViewer.ReplyExplicacion first_explanation);
    ExamViewer.GeneratorReplies 1 (ExamViewer.ReplyExplicacion second_explanation);
    ExamViewer.SaveReplies 0;
    ExamViewer.SaveReplies 1 ].


Definition some_results : ExamSystem.SubmitResults :=
  {| ExamSystem.srv_passed := true; ExamSystem.score_percentage := 100;
     ExamSystem.correct_answers := 2; ExamSystem.total_questions := 2;
     ExamSystem.duration_minutes := 1 |}.

(** Some questions of two sessions, and a filter on the text and on
    duplicates. *)
Definition filter_question (session text hash : string) : FilterManager.Question :=
  {| FilterManager.q_convocatoria := FilterManager.Str session;
     FilterManager.tipo_examen := FilterManager.Str "PER";
     FilterManager.q_test := FilterManager.Str "01";
     FilterManager.categoria := FilterManager.Str "Balizamiento";
     FilterManager.subcategoria := FilterManager.Null;
     FilterManager.texto_pregunta := FilterManager.Str text;
     FilterManager.hash_pregunta := FilterManager.Str hash |}.

Definition three_questions : list FilterManager.Question :=
  [filter_question "2023-04" "Marca lateral de BABOR" "h1";
   filter_question "2023-06" "Marca lateral de babor" "h1";
   filter_question "2023-06" "Marca cardinal norte" "h2"].

Definition babor_once : FilterManager.Filters :=
  {| FilterManager.convocatoria := FilterManager.Str "";
     FilterManager.titulacion := FilterManager.Str "PER";
     FilterManager.test := FilterManager.Str "";
     FilterManager.tema := FilterManager.Str "Balizamiento";
     FilterManager.search := FilterManager.Str "Babor";
     FilterManager.duplicados := true |}.

(* ===================================================================== *)
(** * Part II. Properties                                                 *)
(* ===================================================================== *)

(** ** The model on concrete inputs *)

(** 80 percent overall but six errors in topic 6 (ceiling 5): failed. *)
Example checkIfPassed_ceiling :
  ExamSystem.checkIfPassed 80
    (<[6%nat := {| ExamSystem.correct := 4; ExamSystem.total := 10;
                   ExamSystem.errors := 6 |}]> ExamSystem.initialUTResults)
  = Some false.
Proof. reflexivity. Qed.

(** 70 percent overall and no error in a critical topic: passed. *)
Example checkIfPassed_majority :
  ExamSystem.checkIfPassed 70 ExamSystem.initialUTResults = Some true.
Proof. reflexivity. Qed.

Example checkIfPassed_below :
  ExamSystem.checkIfPassed 64 ExamSystem.initialUTResults = Some false.
Proof. reflexivity. Qed.

(** The examples are texts of ASCII characters. *)
Example normalizarTexto_example :
  ExamViewer.normalizarTexto ExamViewer.lowerAscii (Some "  Hola,   MUNDO!! que_tal? ")
  = "hola mundo que_tal".
Proof. reflexivity. Qed.

(** Punctuation between two letters is replaced by a space, not removed. *)
Example normalizarTexto_comma :
  ExamViewer.normalizarTexto ExamViewer.lowerAscii (Some "a,b") = "a b".
Proof. reflexivity. Qed.

Example contenido_babor :
  ExamViewer.contenido ExamViewer.lowerAscii babor = "babor|roja|verde".
Proof. vm_compute. reflexivity. Qed.

Example calculateQuestionHashSync_babor :
  ExamViewer.calculateQuestionHashSync ExamViewer.lowerAscii babor = "00000000314ba5ce".
Proof. vm_compute. reflexivity. Qed.

(** The stored hash wins over the content. *)
Example calculateQuestionHashSync_stored (toLowerCase : string → string) :
  ExamViewer.calculateQuestionHashSync toLowerCase bocina = "0f3a9c5e7b1d2468".
Proof. reflexivity. Qed.

(** Of three questions, the first and the third with the same hash and the
    second without hash, one is kept, with its two occurrences. *)
Example deduplicateQuestions_example :
  map (λ e, (ExamViewer.numero (ExamViewer.pregunta (ExamViewer.question e)),
             length (ExamViewer.todas_apariciones e)))
      (ExamViewer.deduplicateQuestions
         [ ExamViewer.withExamen one_exam bocina; ExamViewer.withExamen one_exam babor;
           ExamViewer.withExamen one_exam bocina ])
  = [(12, 2)]%nat.
Proof. vm_compute. reflexivity. Qed.

(** Two calls for one fingerprint, made before any reply: the first caller
    is shown the explanation of its request, the second caller another one,
    which is the one left in the cache. *)
Example two_calls_two_explanations :
  let called := ExamViewer.run (replicate 2 (ExamViewer.Calls "0f3a9c5e7b1d2468"))
                               empty_cache in
  ExamViewer.modal (ExamViewer.run (take 3 both_reply) called)
  = Some (first_explanation, "0f3a9c5e7b1d2468")
  ∧ ExamViewer.modal (ExamViewer.run both_reply called)
    = Some (second_explanation, "0f3a9c5e7b1d2468")
  ∧ ExamViewer.explicaciones (ExamViewer.run both_reply called) !! "0f3a9c5e7b1d2468"
    = Some second_explanation.
Proof. vm_compute. repeat split. Qed.

(** With a pool of two questions, assembly fails at the first topic, which
    needs four. *)
Example assemble_insufficient :
  Assembler.assemble (λ _, true) (λ _ l, l) reverse [pool_question 1 1; pool_question 1 2]
  = inl (Assembler.InsufficientPoolError 1 2 4).
Proof. vm_compute. reflexivity. Qed.

(** ** Scoring *)

Section Scoring.
Import ExamSystem.

Variable answers : gmap string string.

Lemma UTResult_eta (u : UTResult) :
  {| correct := correct u; total := total u; errors := errors u |} = u.
Proof. by destruct u. Qed.

Lemma tally_effect c a ut q c1 a1 ut1 :
  tally answers (c, a, ut) q = Some (c1, a1, ut1) →
  c1 = c + (if answeredCorrectly answers q then 1 else 0)
  ∧ a1 = a + (if answered answers q then 1 else 0)
  ∧ ∀ t, ut1 !! t = bump answers t q <$> ut !! t.
Proof.
  unfold tally, answered, answeredCorrectly, answeredWrongly, isTruthy.
  destruct (ut !! ut_number q) as [u|] eqn:Hu; [|done].
  assert (Hother : ∀ t v, t ≠ ut_number q →
            (<[ut_number q := v]> ut) !! t = bump answers t q <$> ut !! t).
  { intros t v Hne. rewrite lookup_insert_ne by done.
    unfold bump, inTopic. destruct (Nat.eqb_spec (ut_number q) t); [congruence|].
    simpl. destruct (ut !! t) as [w|]; simpl; [|done].
    f_equal. rewrite <- (UTResult_eta w) at 1. f_equal; lia. }
  destruct (truthy (answers !! question_id q)) as [ua|] eqn:Ha.
  - destruct (isCorrect ua q) eqn:Hc; intros [= <- <- <-];
      (split; [lia|split; [lia|]]); intros t;
      (destruct (decide (t = ut_number q)) as [->|Hne]; [|by apply Hother]);
      rewrite lookup_insert_eq, Hu; simpl; unfold bump, inTopic, answeredCorrectly,
        answeredWrongly; rewrite Nat.eqb_refl, Ha, Hc; simpl; f_equal; f_equal; lia.
  - intros [= <- <- <-]. split; [lia|split; [lia|]]. intros t.
    destruct (decide (t = ut_number q)) as [->|Hne]; [|by apply Hother].
    rewrite lookup_insert_eq, Hu. simpl. unfold bump, inTopic, answeredCorrectly,
      answeredWrongly. rewrite Nat.eqb_refl, Ha. simpl. f_equal; f_equal; lia.
Qed.

(** The counters after the whole loop, by induction on the question list. *)
Lemma forEach_counts qs : ∀ c a ut c' a' ut',
  forEach answers qs (c, a, ut) = Some (c', a', ut') →
  c' = c + count_if (answeredCorrectly answers) qs
  ∧ a' = a + count_if (answered answers) qs
  ∧ ∀ t, ut' !! t =
      (λ u, {| correct := correct u
                 + count_if (λ q, inTopic t q && answeredCorrectly answers q) qs;
               total := total u + count_if (inTopic t) qs;
               errors := errors u
                 + count_if (λ q, inTopic t q && answeredWrongly answers q) qs |})
      <$> ut !! t.
Proof.
  induction qs as [|q qs IH]; intros c a ut c' a' ut'; cbn [forEach].
  - intros [= <- <- <-]. unfold count_if; simpl.
    split; [lia|split; [lia|]]. intros t. destruct (ut !! t) as [u|]; simpl; [|done].
    f_equal. rewrite <- (UTResult_eta u) at 1. f_equal; lia.
  - destruct (tally answers (c, a, ut) q) as [[[c1 a1] ut1]|] eqn:Ht; [|done].
    intros Hrest. apply tally_effect in Ht as (-> & -> & Hut1).
    apply IH in Hrest as (-> & -> & Hut').
    unfold count_if in *; simpl.
    split; [destruct (answeredCorrectly answers q); simpl; lia|].
    split; [destruct (answered answers q); simpl; lia|].
    intros t. rewrite Hut', Hut1. destruct (ut !! t) as [u|]; simpl; [|done].
    f_equal. unfold bump.
    destruct (inTopic t q), (answeredCorrectly answers q), (answeredWrongly answers q);
      simpl; f_equal; lia.
Qed.

End Scoring.

Lemma initialUTResults_lookup (t : nat) :
  (1 ≤ t ≤ 11)%nat →
  ExamSystem.initialUTResults !! t
  = Some {| ExamSystem.correct := 0; ExamSystem.total := 0; ExamSystem.errors := 0 |}.
Proof.
  intros Ht.
  assert (t = 1 ∨ t = 2 ∨ t = 3 ∨ t = 4 ∨ t = 5 ∨ t = 6 ∨ t = 7 ∨ t = 8 ∨ t = 9
          ∨ t = 10 ∨ t = 11) as Hcases by lia.
  repeat destruct Hcases as [->|Hcases]; try subst t; reflexivity.
Qed.

Lemma criticalUTs_from_configuration :
  ExamSystem.criticalUTs
  = omap (λ r, if Config.is_critical r
               then pair (Config.ut_number r) <$> Config.max_errors_allowed r
               else None)
         Config.ut_configuration.
Proof. reflexivity. Qed.

(** The result [passed] in terms of the figures of the result itself. *)
Lemma passed_iff_figures (s : ExamSystem.State) (res : ExamSystem.Results) :
  ExamSystem.calculateAndShowResults s = Some res →
  ExamSystem.passed res = true
  ↔ (65 <= ExamSystem.percentage res)%Q
    ∧ ∀ r, r ∈ Config.ut_configuration → Config.is_critical r = true →
        ∃ u m, ExamSystem.utResults res !! Config.ut_number r = Some u
               ∧ Config.max_errors_allowed r = Some m
               ∧ (ExamSystem.errors u ≤ m)%nat.
Proof.
  unfold ExamSystem.calculateAndShowResults.
  destruct (ExamSystem.currentExam s) as [ex|]; [|done].
  destruct (ExamSystem.questionDetails ex) as [details|]; [|done].
  destruct (ExamSystem.forEach _ _ _) as [[[c a] ut]|] eqn:Hloop; [|done].
  destruct (ExamSystem.checkIfPassed _ ut) as [b|] eqn:Hpass; [|done].
  intros [= <-]; simpl.
  apply forEach_counts in Hloop as (_ & _ & Hut).
  pose proof (Hut 5) as H5. pose proof (Hut 6) as H6. pose proof (Hut 11) as H11.
  rewrite initialUTResults_lookup in H5, H6, H11 by lia. simpl in H5, H6, H11.
  unfold ExamSystem.checkIfPassed in Hpass.
  destruct (Qlt_le_dec _ 65) as [Hlt|Hle].
  - injection Hpass as <-. split; [done|]. intros [Hge _].
    exfalso. apply (Qlt_not_le _ _ Hlt Hge).
  - simpl in Hpass. rewrite H5, H6, H11 in Hpass. simpl in Hpass.
    set (e5 := count_if (λ q, inTopic 5 q && answeredWrongly _ q) details) in *.
    set (e6 := count_if (λ q, inTopic 6 q && answeredWrongly _ q) details) in *.
    set (e11 := count_if (λ q, inTopic 11 q && answeredWrongly _ q) details) in *.
    destruct (Nat.ltb_spec 2 e5) as [G5|G5];
      [|destruct (Nat.ltb_spec 5 e6) as [G6|G6];
        [|destruct (Nat.ltb_spec 2 e11) as [G11|G11]]];
      injection Hpass as <-.
    + split; [done|]. intros [_ Hrows]. exfalso.
      destruct (Hrows (Config.row 5 "Balizamiento" "Balizamiento" 5 (Some 2) true))
        as (u & m & Hu & Hm & Hum); [apply list_elem_of_In; simpl; tauto|done|].
      simpl in Hu, Hm. rewrite H5 in Hu. injection Hu as <-. injection Hm as <-.
      simpl in Hum. lia.
    + split; [done|]. intros [_ Hrows]. exfalso.
      destruct (Hrows (Config.row 6 "Reglamento RIPA" "Reglamento (RIPA)" 10 (Some 5) true))
        as (u & m & Hu & Hm & Hum); [apply list_elem_of_In; simpl; tauto|done|].
      simpl in Hu, Hm. rewrite H6 in Hu. injection Hu as <-. injection Hm as <-.
      simpl in Hum. lia.
    + split; [done|]. intros [_ Hrows]. exfalso.
      destruct (Hrows (Config.row 11 "Carta de navegación" "Carta de navegación" 4
                         (Some 2) true))
        as (u & m & Hu & Hm & Hum); [apply list_elem_of_In; simpl; tauto|done|].
      simpl in Hu, Hm. rewrite H11 in Hu. injection Hu as <-. injection Hm as <-.
      simpl in Hum. lia.
    + split; [|done]. intros _. split; [done|]. intros r Hr Hcrit.
      unfold Config.ut_configuration in Hr.
      repeat (apply elem_of_cons in Hr as [->|Hr]); try (by inversion Hr);
        try discriminate Hcrit; simpl; eexists _, _;
        (split; [eassumption|split; [reflexivity|simpl; lia]]).
Qed.

(** The threshold of 65 percent in whole numbers. *)
Lemma percentageOf_threshold (c a : nat) :
  (65 <= ExamSystem.percentageOf c a)%Q ↔ (0 < a ∧ 65 * a ≤ 100 * c)%nat.
Proof.
  unfold ExamSystem.percentageOf.
  destruct (Nat.ltb_spec 0 a) as [Ha|Ha].
  - assert (Hpos : (0 < inject_Z (Z.of_nat a))%Q) by (rewrite <- (Zlt_Qlt 0); lia).
    assert (Hscaled : (inject_Z (Z.of_nat c) / inject_Z (Z.of_nat a) * 100
                       == inject_Z (Z.of_nat (100 * c)) / inject_Z (Z.of_nat a))%Q).
    { rewrite Nat2Z.inj_mul, inject_Z_mult. change (inject_Z (Z.of_nat 100)) with 100%Q.
      field. intros Hzero. rewrite Hzero in Hpos. by compute in Hpos. }
    rewrite Hscaled. split.
    + intros Hle. split; [done|].
      apply (Qmult_le_compat_r _ _ (inject_Z (Z.of_nat a))) in Hle; [|by apply Qlt_le_weak].
      unfold Qdiv in Hle. rewrite <- Qmult_assoc, (Qmult_comm (/ _)), Qmult_inv_r in Hle
        by (intros Hzero; rewrite Hzero in Hpos; by compute in Hpos).
      rewrite Qmult_1_r in Hle. change 65%Q with (inject_Z 65) in Hle.
      rewrite <- inject_Z_mult, <- Zle_Qle in Hle. lia.
    + intros [_ Hle]. apply Qle_shift_div_l; [done|].
      change 65%Q with (inject_Z 65). rewrite <- inject_Z_mult, <- Zle_Qle. lia.
  - split; [intros Hle; by compute in Hle|lia].
Qed.

(** C1, as the specification words it, fails on the session [one_answered]:
    one correct answer and one question without answer, half of the
    questions of the exam, are a pass. *)
Lemma C1_counterexample : ¬ pass_rule_as_specified one_answered.
Proof.
  intros Hclaim.
  destruct (ExamSystem.calculateAndShowResults one_answered) as [res|] eqn:Hres;
    [|vm_compute in Hres; discriminate].
  specialize (Hclaim exam_of_two _ res eq_refl eq_refl Hres).
  assert (Hpassed : ExamSystem.passed res = true)
    by (vm_compute in Hres; by injection Hres as <-).
  apply Hclaim in Hpassed as [Hoverall _]. vm_compute in Hoverall. lia.
Qed.

(** C1, amended.  For a session scored by [calculateAndShowResults], the
    result [passed] is true exactly when some question is answered, the
    correct answers are at least 65 percent of the answered questions, and
    every row of [ut_configuration] flagged critical (topic 5 with ceiling
    2, topic 6 with ceiling 5, topic 11 with ceiling 2) has no more wrong
    answers among the questions of its topic than its
    [max_errors_allowed].  A question without answer counts neither in the
    percentage nor as an error. *)
Theorem C1_pass_rule_over_answered (s : ExamSystem.State) (ex : ExamSystem.Exam)
    (details : list ExamSystem.QuestionDetail) (res : ExamSystem.Results) :
  ExamSystem.currentExam s = Some ex →
  ExamSystem.questionDetails ex = Some details →
  ExamSystem.calculateAndShowResults s = Some res →
  let answers := ExamSystem.userAnswers s in
  ExamSystem.passed res = true
  ↔ (0 < count_if (answered answers) details
     ∧ 65 * count_if (answered answers) details
       ≤ 100 * count_if (answeredCorrectly answers) details)%nat
    ∧ ∀ r, r ∈ Config.ut_configuration → Config.is_critical r = true →
        ∃ m, Config.max_errors_allowed r = Some m
             ∧ (count_if (λ q, inTopic (Config.ut_number r) q
                               && answeredWrongly answers q) details
                ≤ m)%nat.
Proof.
  intros Hex Hdetails Hres. simpl.
  rewrite (passed_iff_figures s res Hres).
  revert Hres. unfold ExamSystem.calculateAndShowResults. rewrite Hex, Hdetails.
  destruct (ExamSystem.forEach _ _ _) as [[[c a] ut]|] eqn:Hloop; [|done].
  destruct (ExamSystem.checkIfPassed _ ut) as [b|]; [|done].
  intros [= <-]; simpl.
  apply forEach_counts in Hloop as (Hc & Ha & Hut). simpl in Hc, Ha. subst c a.
  rewrite percentageOf_threshold.
  assert (Hcritical : ∀ r, r ∈ Config.ut_configuration → Config.is_critical r = true →
            ut !! Config.ut_number r
            = Some {| ExamSystem.correct :=
                        count_if (λ q, inTopic (Config.ut_number r) q
                                       && answeredCorrectly (ExamSystem.userAnswers s) q)
                                 details;
                      ExamSystem.total := count_if (inTopic (Config.ut_number r)) details;
                      ExamSystem.errors :=
                        count_if (λ q, inTopic (Config.ut_number r) q
                                       && answeredWrongly (ExamSystem.userAnswers s) q)
                                 details |}).
  { intros r Hr Hcrit. rewrite Hut, initialUTResults_lookup; [done|].
    unfold Config.ut_configuration in Hr.
    repeat (apply elem_of_cons in Hr as [->|Hr]); try (by inversion Hr); simpl; lia. }
  split; intros [Hpercent Hrows]; (split; [exact Hpercent|]); intros r Hr Hcrit.
  - destruct (Hrows r Hr Hcrit) as (u & m & Hu & Hm & Hle).
    rewrite (Hcritical r Hr Hcrit) in Hu. injection Hu as <-. by exists m.
  - destruct (Hrows r Hr Hcrit) as (m & Hm & Hle).
    eexists _, m. split; [by apply Hcritical|]. by split.
Qed.

(** The session [one_answered] passes: its one answer is correct and no
    topic has an error. *)
Lemma C1_pass_rule_over_answered_witness :
  ∃ res, ExamSystem.calculateAndShowResults one_answered = Some res
         ∧ ExamSystem.passed res = true.
Proof.
  destruct (ExamSystem.calculateAndShowResults one_answered) as [res|] eqn:Hres;
    [|vm_compute in Hres; discriminate].
  exists res. split; [reflexivity|].
  apply (C1_pass_rule_over_answered one_answered exam_of_two _ res eq_refl eq_refl Hres).
  split; [vm_compute; lia|].
  intros r Hr Hcrit. unfold Config.ut_configuration in Hr.
  repeat (apply elem_of_cons in Hr as [->|Hr]); try (by inversion Hr);
    try discriminate Hcrit; eexists; (split; [reflexivity|vm_compute; lia]).
Defined.

(** C2, as the specification words it, fails on the session [one_answered]:
    with one correct answer and one question left unanswered the code
    reports 100 percent (not 50) and no error in topic 5 (not one). *)
Lemma C2_counterexample : ¬ unanswered_counts_as_incorrect one_answered.
Proof.
  intros Hclaim.
  destruct (ExamSystem.calculateAndShowResults one_answered) as [res|] eqn:Hres;
    [|vm_compute in Hres; discriminate].
  destruct (Hclaim exam_of_two _ res eq_refl eq_refl Hres) as [Hpct _].
  vm_compute in Hres. injection Hres as <-.
  vm_compute in Hpct. discriminate.
Qed.

(** C2, amended.  The overall percentage is (correct answers / answered
    questions) * 100, and 0 when no question is answered.  A question
    without answer adds one to the total of its topic and nothing else: it
    is counted neither as correct nor as an error, and it does not enter the
    overall percentage. *)
Theorem C2_percentage_over_answered (s : ExamSystem.State) (ex : ExamSystem.Exam)
    (details : list ExamSystem.QuestionDetail) (res : ExamSystem.Results) :
  ExamSystem.currentExam s = Some ex →
  ExamSystem.questionDetails ex = Some details →
  ExamSystem.calculateAndShowResults s = Some res →
  let answers := ExamSystem.userAnswers s in
  ExamSystem.correctAnswers res = count_if (answeredCorrectly answers) details
  ∧ ExamSystem.totalAnswered res = count_if (answered answers) details
  ∧ (ExamSystem.totalAnswered res = 0%nat → (ExamSystem.percentage res == 0)%Q)
  ∧ ((0 < ExamSystem.totalAnswered res)%nat →
       (ExamSystem.percentage res
        == inject_Z (Z.of_nat (ExamSystem.correctAnswers res))
           / inject_Z (Z.of_nat (ExamSystem.totalAnswered res)) * 100)%Q)
  ∧ ∀ t, (1 ≤ t ≤ 11)%nat →
      ExamSystem.utResults res !! t
      = Some {| ExamSystem.correct :=
                  count_if (λ q, inTopic t q && answeredCorrectly answers q) details;
                ExamSystem.total := count_if (inTopic t) details;
                ExamSystem.errors :=
                  count_if (λ q, inTopic t q && answeredWrongly answers q) details |}.
Proof.
  intros Hex Hdetails. unfold ExamSystem.calculateAndShowResults.
  rewrite Hex, Hdetails.
  destruct (ExamSystem.forEach _ _ _) as [[[c a] ut]|] eqn:Hloop; [|done].
  destruct (ExamSystem.checkIfPassed _ ut) as [b|]; [|done].
  intros [= <-]; simpl.
  apply forEach_counts in Hloop as (Hc & Ha & Hut). simpl in Hc, Ha.
  split; [done|]. split; [done|].
  unfold ExamSystem.percentageOf.
  split; [|split].
  - intros ->. reflexivity.
  - intros Hpos. destruct (Nat.ltb_spec 0 a); [reflexivity|lia].
  - intros t Ht. rewrite Hut, initialUTResults_lookup by done. reflexivity.
Qed.

(** The amended rule on the session [one_answered]. *)
Lemma C2_percentage_over_answered_witness :
  ∃ res, ExamSystem.calculateAndShowResults one_answered = Some res
         ∧ (ExamSystem.percentage res == 100)%Q
         ∧ ExamSystem.utResults res !! 5%nat
           = Some {| ExamSystem.correct := 1; ExamSystem.total := 2;
                     ExamSystem.errors := 0 |}.
Proof.
  destruct (ExamSystem.calculateAndShowResults one_answered) as [res|] eqn:Hres;
    [|vm_compute in Hres; discriminate].
  exists res. split; [reflexivity|].
  destruct (C2_percentage_over_answered one_answered exam_of_two _ res
              eq_refl eq_refl Hres) as (Hc & Ha & _ & Hpct & Hut).
  split.
  - rewrite Hpct by (rewrite Ha; vm_compute; lia).
    rewrite Hc, Ha. vm_compute. reflexivity.
  - rewrite (Hut 5%nat) by lia. vm_compute. reflexivity.
Defined.

(** ** Session: answers, pause, timer *)

(** C8, as the specification words it, fails: in the exam [just_started]
    the letter z, which is no option letter of question q1, is stored. *)
Lemma C8_counterexample : ¬ recordAnswer_validates just_started "q1" "z".
Proof.
  intros [_ Hletter].
  specialize (Hletter exam_of_two _ (question "q1" 5 "a") eq_refl eq_refl).
  assert (Hsame : ExamSystem.saveAnswer "q1" "z" just_started = just_started).
  { apply Hletter; [apply list_elem_of_In; simpl; tauto|reflexivity|].
    intros Hin. apply list_elem_of_In in Hin. simpl in Hin.
    destruct Hin as [H|[H|[H|[H|[]]]]]; discriminate H. }
  apply (f_equal (λ s, ExamSystem.userAnswers s !! "q1")) in Hsame.
  vm_compute in Hsame. discriminate Hsame.
Qed.

(** C8, amended.  [saveAnswer(questionId, letter)] is accepted in every
    state of the session and for every letter: it overwrites any prior
    answer for that question, leaves the answers to all other questions
    unchanged, and changes nothing else of the session; it never rejects.
    The letters come from the radio buttons of the question, which carry
    only option letters of that question, all among a, b, c, d, the letters
    the [user_answers] table accepts. *)
Theorem C8_saveAnswer_overwrites (s : ExamSystem.State) (questionId letter : string) :
  let s' := ExamSystem.saveAnswer questionId letter s in
  ExamSystem.userAnswers s' !! questionId = Some letter
  ∧ (∀ other, other ≠ questionId →
       ExamSystem.userAnswers s' !! other = ExamSystem.userAnswers s !! other)
  ∧ ExamSystem.set_answers (λ _, ExamSystem.userAnswers s) s' = s
  ∧ ExamSystem.status s' = ExamSystem.status s
  ∧ ∀ q offered, offered ∈ ExamSystem.option_letters q →
      Config.user_answers_selected_answer_check offered = true.
Proof.
  simpl. split; [apply lookup_insert_eq|].
  split; [intros other Hne; by apply lookup_insert_ne|].
  split; [by destruct s|]. split; [reflexivity|].
  intros q offered. unfold ExamSystem.option_letters.
  rewrite !elem_of_app.
  destruct (isTruthy (ExamSystem.opcion_a q)), (isTruthy (ExamSystem.opcion_b q)),
    (isTruthy (ExamSystem.opcion_c q)), (isTruthy (ExamSystem.opcion_d q));
    intros [H|[H|[H|H]]];
    first [by apply elem_of_nil in H | by apply list_elem_of_singleton in H as ->].
Qed.

(** C7, as the specification words it, fails: a paused exam whose questions
    are all answered is finished by [finishExam] and becomes completed
    without being resumed. *)
Lemma C7_counterexample : ¬ paused_only_between_in_progress.
Proof.
  intros Hclaim.
  destruct (Hclaim (ExamSystem.EvFinish true (Some some_results)) answered_then_paused)
    as [_ Hleave].
  destruct Hleave as [H|H]; [reflexivity|vm_compute in H; discriminate H..].
Qed.

Lemma finishExam_not_pausing c r (s : ExamSystem.State) :
  ExamSystem.status (ExamSystem.finishExam c r s) = ExamSystem.paused →
  ExamSystem.status s = ExamSystem.paused.
Proof.
  unfold ExamSystem.finishExam, ExamSystem.status.
  destruct s as [ex i ans [h|] t res live next v]; simpl;
    destruct ex as [e|]; simpl; try done;
    destruct (_ && _); simpl; try done; destruct r; simpl; try done; by destruct v.
Qed.

(** C7, amended.  Every status the [user_exams] table accepts is one of the
    six ([in_progress], [completed] or [abandoned]).  On the client the
    paused state is entered only from [in_progress], and only by
    [pauseExam]; [pauseExam] on a paused exam returns it to [in_progress].
    (A paused exam can also leave [paused] through [finishExam].) *)
Theorem C7_pause_toggle :
  (∀ stored, Config.user_exams_status_check stored = true →
     ∃ st, ExamSystem.status_name st = stored)
  ∧ (∀ e s, ExamSystem.status s ≠ ExamSystem.paused →
       ExamSystem.status (ExamSystem.handle e s) = ExamSystem.paused →
       ExamSystem.status s = ExamSystem.in_progress ∧ e = ExamSystem.EvPause)
  ∧ (∀ s, ExamSystem.status s = ExamSystem.paused →
       ExamSystem.status (ExamSystem.pauseExam s) = ExamSystem.in_progress).
Proof.
  split; [|split].
  - intros stored Hcheck. unfold Config.user_exams_status_check in Hcheck.
    apply orb_true_iff in Hcheck as [Hcheck|Hcheck];
      [apply orb_true_iff in Hcheck as [Hcheck|Hcheck]|];
      apply String.eqb_eq in Hcheck as ->.
    + by exists ExamSystem.in_progress.
    + by exists ExamSystem.completed.
    + by exists ExamSystem.abandoned.
  - intros e s Hnot Hafter. destruct e; simpl in Hafter.
    + exfalso. destruct reply; [discriminate Hafter|done].
    + exfalso. apply Hnot. by rewrite <- Hafter.
    + exfalso. apply Hnot. rewrite <- Hafter.
      unfold ExamSystem.goToPreviousQuestion. by destruct (_ <? _)%nat.
    + exfalso. apply Hnot. rewrite <- Hafter.
      unfold ExamSystem.goToNextQuestion.
      destruct (ExamSystem.currentExam s); [|done]. by destruct (_ <? _)%Z.
    + split; [|done]. revert Hnot Hafter.
      unfold ExamSystem.pauseExam, ExamSystem.status.
      destruct s as [ex i ans [h|] t res live next v]; simpl; by destruct v.
    + exfalso. by apply Hnot, (finishExam_not_pausing confirmFinish reply).
    + exfalso. apply Hnot. revert Hafter. unfold ExamSystem.tick.
      destruct (decide _); [|done]. destruct (_ <=? _)%Z; [|done].
      unfold ExamSystem.timeUp. intros Hafter.
      apply finishExam_not_pausing in Hafter. revert Hafter.
      unfold ExamSystem.status.
      by destruct s as [ex i ans [h'|] t res live next v].
    + exfalso. revert Hafter. unfold ExamSystem.status. simpl. done.
    + exfalso. revert Hafter. unfold ExamSystem.status. simpl. done.
    + exfalso. revert Hafter. unfold ExamSystem.status. simpl. done.
  - intros s. unfold ExamSystem.pauseExam, ExamSystem.status.
    destruct s as [ex i ans [h|] t res live next v]; simpl; by destruct v.
Qed.






(** ** Exam assembly *)

Lemma count_if_app {A} (P : A → bool) (l1 l2 : list A) :
  count_if P (l1 ++ l2) = (count_if P l1 + count_if P l2)%nat.
Proof. unfold count_if. by rewrite List.filter_app, length_app. Qed.

Lemma count_if_all {A} (P : A → bool) (l : list A) :
  (∀ x, x ∈ l → P x = true) → count_if P l = length l.
Proof.
  unfold count_if. induction l as [|x l IH]; intros Hall; [done|].
  simpl. rewrite (Hall x) by left. simpl. f_equal. apply IH.
  intros y Hy. apply Hall. by right.
Qed.

Lemma count_if_none {A} (P : A → bool) (l : list A) :
  (∀ x, x ∈ l → P x = false) → count_if P l = 0%nat.
Proof.
  unfold count_if. induction l as [|x l IH]; intros Hall; [done|].
  simpl. rewrite (Hall x) by left. apply IH.
  intros y Hy. apply Hall. by right.
Qed.

Lemma count_if_Permutation {A} (P : A → bool) (l1 l2 : list A) :
  l1 ≡ₚ l2 → count_if P l1 = count_if P l2.
Proof.
  unfold count_if. induction 1; simpl; try done.
  - destruct (P x); simpl; congruence.
  - destruct (P x), (P y); simpl; congruence.
  - congruence.
Qed.

Section AssemblerFacts.
Import Assembler.

Variable filters : Question → bool.
Variable draw : nat → list Question → list Question.
Variable shuffle : list Question → list Question.

(** The draw only orders the candidates; the shuffle only orders the exam. *)
Hypothesis draw_reorders : ∀ t l, draw t l ≡ₚ l.
Hypothesis shuffle_reorders : ∀ l, shuffle l ≡ₚ l.

(** A draw that meets its quota adds exactly that many candidates, all
    taken from the candidate list, and repeats no fingerprint. *)
Lemma drawTopic_met candidates : ∀ missing exam exam',
  drawTopic candidates missing exam = (exam', 0%nat) →
  ∃ picked, exam' = exam ++ picked
            ∧ length picked = missing
            ∧ (∀ q, q ∈ picked → q ∈ candidates)
            ∧ (NoDup (map fingerprint exam) → NoDup (map fingerprint exam')).
Proof.
  induction candidates as [|c rest IH]; intros missing exam exam'; simpl.
  - intros [= <- ->]. exists []. by rewrite app_nil_r.
  - destruct missing as [|fewer].
    { intros [= <-]. exists []. rewrite app_nil_r. repeat split; try done.
      intros q Hq. by apply elem_of_nil in Hq. }
    destruct (bool_decide _) eqn:Hseen.
    + intros Hdraw. apply IH in Hdraw as (picked & -> & Hlen & Hfrom & Hnodup).
      exists picked. repeat split; try done. intros q Hq. right. by apply Hfrom.
    + intros Hdraw. apply IH in Hdraw as (picked & -> & Hlen & Hfrom & Hnodup).
      apply bool_decide_eq_false in Hseen.
      exists (c :: picked). rewrite <- app_assoc. simpl.
      repeat split; [by rewrite Hlen| |].
      * intros q Hq. apply elem_of_cons in Hq as [->|Hq]; [left|right; by apply Hfrom].
      * intros Hexam. rewrite <- app_assoc in Hnodup. apply Hnodup.
        rewrite map_app. simpl. apply NoDup_app. repeat split; [done| |].
        -- intros fp Hfp Hc. apply list_elem_of_singleton in Hc as ->. done.
        -- apply NoDup_singleton.
Qed.

(** The loop over the rows: what a successful run adds to the exam. *)
Lemma assembleRows_met rows pool : ∀ exam0 exam,
  assembleRows filters draw rows pool exam0 = inr exam →
  length exam = (length exam0 + sum_list (map Config.questions_per_exam rows))%nat
  ∧ (∀ t, count_if (ofTopic t) exam
          = (count_if (ofTopic t) exam0 + quotaOf rows t)%nat)
  ∧ (NoDup (map fingerprint exam0) → NoDup (map fingerprint exam)).
Proof.
  induction rows as [|r rows IH]; intros exam0 exam; cbn [assembleRows].
  - intros [= <-]. unfold quotaOf. simpl. repeat split; try lia; done.
  - destruct (drawTopic _ _ exam0) as [exam1 missing] eqn:Hdraw.
    destruct missing as [|]; [|done]. intros Hrest.
    apply drawTopic_met in Hdraw as (picked & -> & Hlen & Hfrom & Hnodup).
    apply IH in Hrest as (Hlength & Hcount & Hnodup').
    assert (Htopic : ∀ q, q ∈ picked → topic q = Config.ut_number r).
    { intros q Hq. apply Hfrom in Hq. rewrite draw_reorders in Hq.
      apply list_elem_of_In, List.filter_In in Hq as [_ Hq].
      apply andb_true_iff in Hq as [Hq _]. by apply Nat.eqb_eq in Hq. }
    split; [|split].
    + rewrite Hlength, length_app, Hlen. simpl. lia.
    + intros t. rewrite Hcount, count_if_app. unfold quotaOf. simpl.
      destruct (Nat.eqb_spec (Config.ut_number r) t) as [<-|Hne]; simpl.
      * rewrite (count_if_all _ picked), Hlen; [lia|].
        intros q Hq. unfold ofTopic. rewrite (Htopic q Hq). apply Nat.eqb_refl.
      * rewrite (count_if_none _ picked); [lia|].
        intros q Hq. unfold ofTopic. rewrite (Htopic q Hq). by apply Nat.eqb_neq.
    + intros Hexam0. auto.
Qed.

(** C3. Every exam that [assemble] returns has exactly 45 questions, the
    sum of the eleven quotas (4, 2, 4, 2, 5, 10, 2, 3, 4, 5, 4) of
    [ut_configuration]; it has, for every row of the configuration, exactly
    the quota of that row in questions of its topic; no two of its
    questions have the same content fingerprint; and its positions, counted
    from 1, are orders that the [exam_questions] table accepts. *)
Theorem C3_assembled_exam (pool exam : list Question) :
  assemble filters draw shuffle pool = inr exam →
  length exam = 45%nat
  ∧ map Config.questions_per_exam Config.ut_configuration
    = [4; 2; 4; 2; 5; 10; 2; 3; 4; 5; 4]%nat
  ∧ sum_list (map Config.questions_per_exam Config.ut_configuration) = 45%nat
  ∧ (∀ r, r ∈ Config.ut_configuration →
       count_if (ofTopic (Config.ut_number r)) exam = Config.questions_per_exam r)
  ∧ NoDup (map fingerprint exam)
  ∧ (∀ i, (i < length exam)%nat →
       Config.exam_questions_question_order_check (S i) = true).
Proof.
  unfold assemble.
  destruct (assembleRows _ _ _ _ _) as [e|built] eqn:Hrows; [done|].
  intros [= <-].
  apply assembleRows_met in Hrows as (Hlength & Hcount & Hnodup).
  assert (Hsize : length (shuffle built) = 45%nat)
    by (by rewrite shuffle_reorders, Hlength).
  split; [exact Hsize|].
  split; [reflexivity|]. split; [reflexivity|]. split; [|split].
  3:{ intros i Hi. rewrite Hsize in Hi.
      unfold Config.exam_questions_question_order_check.
      apply andb_true_iff. split; [by apply Nat.leb_le; lia|apply Nat.leb_le; lia]. }
  - intros r Hr. rewrite (count_if_Permutation _ _ _ (shuffle_reorders built)), Hcount.
    unfold Config.ut_configuration in Hr.
    repeat (apply elem_of_cons in Hr as [->|Hr]); try (by inversion Hr); reflexivity.
  - rewrite shuffle_reorders. apply Hnodup. constructor.
Qed.

End AssemblerFacts.

(** An assembly from [large_pool], the candidates drawn in pool order and
    the positions reversed. *)
Lemma C3_assembled_exam_witness :
  ∃ exam, Assembler.assemble (λ _, true) (λ _ l, l) reverse large_pool = inr exam
          ∧ length exam = 45%nat
          ∧ NoDup (map Assembler.fingerprint exam).
Proof.
  eexists. split; [vm_compute; reflexivity|].
  destruct (C3_assembled_exam (λ _, true) (λ _ l, l) reverse
              (λ _ l, reflexivity l) reverse_Permutation large_pool _
              ltac:(vm_compute; reflexivity))
    as (Hlength & _ & _ & _ & Hnodup & _).
  split; [exact Hlength|exact Hnodup].
Defined.

(** ** Deduplication of the filtered questions *)

Section Deduplication.
Import ExamViewer.

Lemma map_has_keys (key : string) (m : QuestionMap) :
  map_has key m = bool_decide (key ∈ map fst m).
Proof.
  unfold map_has. induction m as [|[k v] m IH]; cbn [existsb map fst].
  - symmetry. apply bool_decide_eq_false_2, not_elem_of_nil.
  - rewrite IH. destruct (String.eqb_spec k key) as [->|Hne]; cbn [orb].
    + symmetry. apply bool_decide_eq_true_2. left.
    + apply bool_decide_ext. rewrite elem_of_cons.
      split; [by right|intros [Heq|Hin]; [congruence|exact Hin]].
Qed.

(** The loop with its [Map] computes the first occurrences. *)
Lemma fold_keepFirst (all qs : list Question) : ∀ m : QuestionMap,
  fold_left (keepFirst all) qs m
  = m ++ map (firstEntry all) (firstOccurrences (map fst m) qs).
Proof.
  induction qs as [|q qs IH]; intros m; simpl.
  - by rewrite app_nil_r.
  - unfold keepFirst at 2.
    destruct (truthy (hash_pregunta (pregunta q))) as [hash|] eqn:Hhash; [|apply IH].
    unfold map_set. rewrite map_has_keys.
    destruct (bool_decide (hash ∈ map fst m)); [apply IH|].
    rewrite IH, map_app, <- app_assoc. simpl.
    unfold firstEntry at 2, presentHash. by rewrite Hhash.
Qed.

Lemma firstOccurrences_sublist (qs : list Question) : ∀ seen,
  sublist (firstOccurrences seen qs) qs.
Proof.
  induction qs as [|q qs IH]; intros seen; simpl; [constructor|].
  destruct (truthy _); [|by constructor].
  destruct (bool_decide _); by constructor.
Qed.

(** Membership: a first occurrence is an element of the list with a
    present hash that is new and that no earlier element has. *)
Lemma firstOccurrences_elem (qs : list Question) : ∀ seen q,
  q ∈ firstOccurrences seen qs
  ↔ ∃ (i : nat) hash,
      qs !! i = Some q ∧ presentHash q = Some hash ∧ (hash ∉ seen)
      ∧ ∀ (j : nat) q', (j < i)%nat → qs !! j = Some q' → presentHash q' ≠ Some hash.
Proof.
  induction qs as [|q0 qs IH]; intros seen q; simpl.
  - split; [intros H; by apply elem_of_nil in H|].
    intros (i & hash & Hi & _). by destruct i.
  - destruct (truthy (hash_pregunta (pregunta q0))) as [h0|] eqn:H0;
      [destruct (bool_decide (h0 ∈ seen)) eqn:Hseen|].
    + apply bool_decide_eq_true in Hseen. rewrite IH. split.
      * intros (i & hash & Hi & Hh & Hnew & Hearlier).
        exists (S i), hash. repeat split; try done.
        intros [|j] q' Hj Hq'; simpl in Hq'.
        -- injection Hq' as <-. unfold presentHash. rewrite H0. congruence.
        -- apply (Hearlier j); [lia|done].
      * intros ([|i] & hash & Hi & Hh & Hnew & Hearlier); simpl in Hi.
        -- injection Hi as <-. unfold presentHash in Hh. congruence.
        -- exists i, hash. repeat split; try done.
           intros j q' Hj Hq'. apply (Hearlier (S j)); [lia|done].
    + apply bool_decide_eq_false in Hseen. rewrite elem_of_cons, IH. split.
      * intros [->|(i & hash & Hi & Hh & Hnew & Hearlier)].
        -- exists 0%nat, h0. repeat split; try done. intros j q' Hj. lia.
        -- exists (S i), hash. rewrite not_elem_of_app in Hnew.
           destruct Hnew as [Hnew Hne]. repeat split; try done.
           intros [|j] q' Hj Hq'; simpl in Hq'.
           ++ injection Hq' as <-. unfold presentHash. rewrite H0.
              intros [= ->]. apply Hne. left.
           ++ apply (Hearlier j); [lia|done].
      * intros ([|i] & hash & Hi & Hh & Hnew & Hearlier); simpl in Hi.
        -- injection Hi as <-. by left.
        -- right. exists i, hash. repeat split; try done.
           ++ rewrite not_elem_of_app. split; [done|].
              intros Hin. apply list_elem_of_singleton in Hin as ->.
              apply (Hearlier 0%nat q0); [lia|done|]. unfold presentHash. by rewrite H0.
           ++ intros j q' Hj Hq'. apply (Hearlier (S j)); [lia|done].
    + rewrite IH. split.
      * intros (i & hash & Hi & Hh & Hnew & Hearlier).
        exists (S i), hash. repeat split; try done.
        intros [|j] q' Hj Hq'; simpl in Hq'.
        -- injection Hq' as <-. unfold presentHash. by rewrite H0.
        -- apply (Hearlier j); [lia|done].
      * intros ([|i] & hash & Hi & Hh & Hnew & Hearlier); simpl in Hi.
        -- injection Hi as <-. unfold presentHash in Hh. congruence.
        -- exists i, hash. repeat split; try done.
           intros j q' Hj Hq'. apply (Hearlier (S j)); [lia|done].
Qed.

Lemma firstOccurrences_NoDup (qs : list Question) : ∀ seen,
  NoDup (map presentHash (firstOccurrences seen qs)).
Proof.
  induction qs as [|q qs IH]; intros seen; simpl; [constructor|].
  destruct (truthy (hash_pregunta (pregunta q))) as [hash|] eqn:Hhash; [|apply IH].
  destruct (bool_decide (hash ∈ seen)); [apply IH|].
  simpl. constructor; [|apply IH].
  intros Hin. apply list_elem_of_fmap in Hin as (q' & Hq' & Hin).
  apply firstOccurrences_elem in Hin as (i & h' & _ & Hh' & Hnew & _).
  unfold presentHash in Hq' at 1. rewrite Hhash, Hh' in Hq'. injection Hq' as ->.
  apply Hnew. apply elem_of_app. right. left.
Qed.

Lemma deduplicateQuestions_firstOccurrences (qs : list Question) :
  deduplicateQuestions qs
  = map (λ q, enhance qs (default "" (presentHash q)) q) (firstOccurrences [] qs).
Proof.
  unfold deduplicateQuestions, map_values. rewrite fold_keepFirst. simpl.
  rewrite map_map. reflexivity.
Qed.

(** The annotation of [enhance], written out. *)
Lemma enhance_written_out (qs : list Question) (hash : string) (q : Question) :
  enhance qs hash q
  = {| question := q;
       todas_apariciones :=
         map (λ q', {| occ_examen_titulacion := examen_titulacion q';
                       occ_examen_convocatoria := examen_convocatoria q';
                       occ_examen_test := examen_test q';
                       occ_numero := numero (pregunta q') |})
             (List.filter (λ q', bool_decide (hash_pregunta (pregunta q') = Some hash))
                          qs) |}.
Proof.
  unfold enhance. f_equal. f_equal. apply List.filter_ext. intros q'. unfold hasHash.
  destruct (hash_pregunta (pregunta q')) as [h'|].
  - destruct (String.eqb_spec h' hash) as [->|Hne].
    + by rewrite bool_decide_eq_true_2.
    + rewrite bool_decide_eq_false_2; [done|]. by intros [= ->].
  - by rewrite bool_decide_eq_false_2.
Qed.

Lemma truthy_present (o : option string) (h : string) :
  truthy o = Some h ↔ o = Some h ∧ h ≠ "".
Proof.
  unfold truthy. destruct o as [s|]; [|by split; [|intros [? _]]].
  destruct (String.eqb_spec s "") as [->|Hne].
  - split; [done|]. by intros [[= <-] ?].
  - split; [by intros [= <-]|]. by intros [[= <-] _].
Qed.

(** C10. [deduplicateQuestions] returns, in input order, exactly the first
    occurrence of each present [hash_pregunta] of its input, each with the
    list of all the occurrences of that hash in the input: for every
    question of the input whose [hash_pregunta] is that hash, in input
    order, its degree, session, test and number.  The hashes of the output
    are pairwise distinct; a question whose [hash_pregunta] is missing
    (undefined, null or empty) is not in the output. *)
Theorem C10_deduplicateQuestions (qs : list Question) :
  let out := deduplicateQuestions qs in
  sublist (map question out) qs
  ∧ (∀ e, e ∈ out
       ↔ ∃ (i : nat) q hash,
           qs !! i = Some q
           ∧ hash_pregunta (pregunta q) = Some hash ∧ hash ≠ ""
           ∧ (∀ (j : nat) q', (j < i)%nat → qs !! j = Some q' →
                hash_pregunta (pregunta q') ≠ Some hash)
           ∧ question e = q
           ∧ todas_apariciones e
             = map (λ q', {| occ_examen_titulacion := examen_titulacion q';
                             occ_examen_convocatoria := examen_convocatoria q';
                             occ_examen_test := examen_test q';
                             occ_numero := numero (pregunta q') |})
                   (List.filter
                      (λ q', bool_decide (hash_pregunta (pregunta q') = Some hash)) qs))
  ∧ NoDup (map (λ e, hash_pregunta (pregunta (question e))) out)
  ∧ (∀ e, e ∈ out →
       ∃ hash, hash_pregunta (pregunta (question e)) = Some hash ∧ hash ≠ "").
Proof.
  simpl. rewrite deduplicateQuestions_firstOccurrences.
  assert (Helem : ∀ e,
    e ∈ map (λ q, enhance qs (default "" (presentHash q)) q) (firstOccurrences [] qs)
    ↔ ∃ (i : nat) q hash,
        qs !! i = Some q
        ∧ truthy (hash_pregunta (pregunta q)) = Some hash
        ∧ (∀ (j : nat) q', (j < i)%nat → qs !! j = Some q' →
             truthy (hash_pregunta (pregunta q')) ≠ Some hash)
        ∧ question e = q
        ∧ todas_apariciones e
          = map (λ q', {| occ_examen_titulacion := examen_titulacion q';
                          occ_examen_convocatoria := examen_convocatoria q';
                          occ_examen_test := examen_test q';
                          occ_numero := numero (pregunta q') |})
                (List.filter
                   (λ q', bool_decide (hash_pregunta (pregunta q') = Some hash)) qs)).
  { intros e. rewrite list_elem_of_fmap. split.
    - intros (q & -> & Hq).
      apply firstOccurrences_elem in Hq as (i & hash & Hi & Hh & _ & Hearlier).
      exists i, q, hash. rewrite Hh, enhance_written_out. by repeat split.
    - intros (i & q & hash & Hi & Hh & Hearlier & Hq & Hall).
      exists q. split.
      + unfold presentHash. rewrite Hh, enhance_written_out. simpl.
        destruct e as [eq eall]. simpl in Hq, Hall. by subst.
      + apply firstOccurrences_elem. exists i, hash.
        repeat split; try done. apply not_elem_of_nil. }
  split; [|split; [|split]].
  - rewrite map_map. simpl. rewrite map_id. apply firstOccurrences_sublist.
  - intros e. rewrite Helem. split.
    + intros (i & q & hash & Hi & [Hh Hne]%truthy_present & Hearlier & Hrest).
      exists i, q, hash. repeat (split; [done|]). split; [|done].
      intros j q' Hj Hq' Hsame. apply (Hearlier j q' Hj Hq').
      by apply truthy_present.
    + intros (i & q & hash & Hi & Hh & Hne & Hearlier & Hrest).
      exists i, q, hash. split; [done|]. split; [by apply truthy_present|].
      split; [|done]. intros j q' Hj Hq' [Hsame _]%truthy_present.
      by apply (Hearlier j q' Hj Hq').
  - rewrite map_map. simpl.
    assert (Hnodup := firstOccurrences_NoDup qs []).
    assert (Hpresent : ∀ q, q ∈ firstOccurrences [] qs →
              presentHash q = hash_pregunta (pregunta q)).
    { intros q Hq. apply firstOccurrences_elem in Hq as (_ & hash & _ & Hh & _).
      unfold presentHash, truthy in *. destruct (hash_pregunta (pregunta q)); [|done].
      by destruct (String.eqb _ _). }
    revert Hnodup Hpresent. generalize (firstOccurrences [] qs) as l.
    induction l as [|q l IH]; intros Hnodup Hpresent; [constructor|].
    simpl in *. apply NoDup_cons in Hnodup as [Hnotin Hnodup].
    constructor.
    + intros Hin. apply Hnotin. rewrite (Hpresent q) by left.
      apply list_elem_of_fmap in Hin as (q' & Hq' & Hin).
      apply list_elem_of_fmap. exists q'. split; [|done].
      rewrite Hq'. symmetry. apply Hpresent. by right.
    + apply IH; [done|]. intros q' Hq'. apply Hpresent. by right.
  - intros e He. apply Helem in He as (i & q & hash & _ & Hh & _ & -> & _).
    exists hash. by apply truthy_present.
Qed.

End Deduplication.

(** ** The content hash *)

Section ContentHash.
Import ExamViewer.

Local Open Scope string_scope.

Lemma sapp_cons (c : ascii) (a b : string) : String c a ++ b = String c (a ++ b).
Proof. reflexivity. Qed.

Lemma sapp_nil_l (s : string) : "" ++ s = s.
Proof. reflexivity. Qed.

Lemma sapp_nil_r (s : string) : s ++ "" = s.
Proof. induction s as [|c s IH]; [done|]. by rewrite sapp_cons, IH. Qed.

Lemma sapp_assoc (a b c : string) : (a ++ b) ++ c = a ++ (b ++ c).
Proof. induction a as [|x a IH]; [done|]. by rewrite !sapp_cons, IH. Qed.






(** [lowerAscii] has what is used of [toLowerCase]. *)
Lemma lowerAscii_lowersAscii : lowersAscii lowerAscii.
Proof.
  split; [done|]. intros a c b _. unfold prepared.
  induction a as [|x a IH]; [done|]. rewrite !sapp_cons. cbn. by rewrite IH.
Qed.








(** Sorting forgets the order of the list it is given. *)
Lemma merge_sort_Permutation_eq (l1 l2 : list string) :
  l1 ≡ₚ l2 → merge_sort String.le l1 = merge_sort String.le l2.
Proof.
  intros Hperm. apply (Sorted_unique String.le).
  - apply Sorted_merge_sort. apply _.
  - apply Sorted_merge_sort. apply _.
  - by rewrite !merge_sort_Permutation.
Qed.

Section Lower.

Variable toLowerCase : string → string.

Lemma normalizarTexto_normalized (texto : option string) :
  normalizarTexto toLowerCase texto = normalized toLowerCase (default "" texto)
  ∨ (default "" texto = "" ∧ normalizarTexto toLowerCase texto = "").
Proof.
  unfold normalizarTexto, truthy. destruct texto as [t|]; [|by right].
  destruct (String.eqb_spec t "") as [->|_]; [by right|by left].
Qed.

Hypothesis lowers : lowersAscii toLowerCase.

Lemma prepared_nil : prepared toLowerCase "" = "".
Proof. unfold prepared. by rewrite (lower_empty _ lowers). Qed.

Lemma normalized_nil : normalized toLowerCase "" = "".
Proof. unfold normalized. by rewrite prepared_nil. Qed.

Lemma normalizarTexto_default (texto : option string) :
  normalizarTexto toLowerCase texto = normalized toLowerCase (default "" texto).
Proof.
  destruct (normalizarTexto_normalized texto) as [H|[-> ->]]; [exact H|].
  by rewrite normalized_nil.
Qed.

(** A run of ASCII characters at the head of a text. *)
Lemma prepared_ascii_app (u b : string) :
  allAscii u = true →
  prepared toLowerCase (u ++ b) = prepared lowerAscii u ++ prepared toLowerCase b.
Proof.
  induction u as [|c u IH]; [done|]. cbn [allAscii].
  intros [Hc Hu]%andb_true_iff. rewrite sapp_cons.
  change (String c (u ++ b)) with ("" ++ String c (u ++ b)).
  rewrite (lower_ascii _ lowers) by exact Hc.
  rewrite prepared_nil, sapp_nil_l, IH by exact Hu. reflexivity.
Qed.

(** On a text of ASCII characters, [toLowerCase] acts as [lowerAscii]. *)
Lemma prepared_ascii (s : string) :
  allAscii s = true → prepared toLowerCase s = prepared lowerAscii s.
Proof.
  intros Hs. rewrite <- (sapp_nil_r s) at 1.
  by rewrite prepared_ascii_app, prepared_nil, sapp_nil_r.
Qed.












End Lower.


End ContentHash.



(** ** The explanation cache *)

Section Explanations.
Import ExamViewer.

Lemma truthy_Some (o : option string) (h : string) :
  truthy o = Some h → truthy (Some h) = Some h.
Proof.
  unfold truthy. destruct o as [s|]; [|done].
  destruct (String.eqb s "") eqn:Hs; [done|]. intros [= ->]. by rewrite Hs.
Qed.









End Explanations.



(* ===================================================================== *)
(** * Part III. Further properties of the code                            *)
(* ===================================================================== *)

(** ** The exam client *)

Lemma indexInExam_finishExam c r (s : ExamSystem.State) :
  indexInExam s → indexInExam (ExamSystem.finishExam c r s).
Proof.
  unfold indexInExam, ExamSystem.finishExam.
  destruct s as [[ex|] i ans [h|] t res live next v]; simpl; try done;
    destruct (_ && _); simpl; try done; by destruct r.
Qed.

Lemma indexInExam_handle (e : ExamSystem.Event) (s : ExamSystem.State) :
  indexInExam s → indexInExam (ExamSystem.handle e s).
Proof.
  destruct e; simpl.
  - unfold indexInExam. destruct reply as [data|]; [simpl; lia|done].
  - done.
  - unfold indexInExam, ExamSystem.goToPreviousQuestion.
    destruct (Nat.ltb_spec 0 (ExamSystem.currentQuestionIndex s)); [|done].
    simpl. destruct (ExamSystem.currentExam s); [lia|done].
  - unfold indexInExam, ExamSystem.goToNextQuestion.
    destruct (ExamSystem.currentExam s) as [ex|] eqn:Hex; [|by rewrite Hex].
    destruct (Z.ltb_spec (Z.of_nat (ExamSystem.currentQuestionIndex s))
                (Z.of_nat (length (ExamSystem.questions ex)) - 1));
      simpl; rewrite Hex; lia.
  - unfold indexInExam, ExamSystem.pauseExam. by destruct (ExamSystem.examTimer s).
  - apply indexInExam_finishExam.
  - intros Hs. unfold ExamSystem.tick. destruct (decide _); [|done].
    destruct (_ <=? _)%Z; [|done].
    apply indexInExam_finishExam. revert Hs. unfold indexInExam.
    by destruct s as [ex i ans [h'|] t res live next v].
  - done.
  - done.
  - done.
Qed.

(** X1. Whatever the user does from the start of the page, the index of the
    current question stays a position of the exam: at most the number of
    questions minus one. *)
Theorem X1_index_in_exam (events : list ExamSystem.Event) :
  indexInExam (ExamSystem.handleAll events ExamSystem.constructor).
Proof.
  unfold ExamSystem.handleAll.
  assert (Hall : ∀ s, indexInExam s →
            indexInExam (fold_left (λ s e, ExamSystem.handle e s) events s)).
  { induction events as [|e events IH]; intros s Hs; [done|].
    simpl. apply IH. by apply indexInExam_handle. }
  apply Hall. done.
Qed.

(** X2. On a question of a non-empty exam the navigation buttons tell the
    truth: the finish button replaces the next button exactly when
    [goToNextQuestion] would do nothing, the previous button is disabled
    exactly when [goToPreviousQuestion] would do nothing, and a step
    forward followed by a step back, or back then forward, returns to the
    same state. *)
Theorem X2_navigation_buttons (s : ExamSystem.State) (ex : ExamSystem.Exam) :
  ExamSystem.currentExam s = Some ex →
  (ExamSystem.currentQuestionIndex s < length (ExamSystem.questions ex))%nat →
  (snd (ExamSystem.updateNavigationButtons s) = Some true
   ↔ ExamSystem.goToNextQuestion s = s)
  ∧ (fst (ExamSystem.updateNavigationButtons s) = true
     ↔ ExamSystem.goToPreviousQuestion s = s)
  ∧ (ExamSystem.goToNextQuestion s ≠ s →
     ExamSystem.goToPreviousQuestion (ExamSystem.goToNextQuestion s) = s)
  ∧ (ExamSystem.goToPreviousQuestion s ≠ s →
     ExamSystem.goToNextQuestion (ExamSystem.goToPreviousQuestion s) = s).
Proof.
  intros Hex Hin.
  unfold ExamSystem.updateNavigationButtons, ExamSystem.goToNextQuestion,
    ExamSystem.goToPreviousQuestion.
  destruct s as [cur i ans tm t res live next v]. simpl in *. subst cur.
  split; [|split; [|split]].
  - destruct (Z.eqb_spec (Z.of_nat i) (Z.of_nat (length (ExamSystem.questions ex)) - 1))
      as [Hlast|Hnot];
      destruct (Z.ltb_spec (Z.of_nat i) (Z.of_nat (length (ExamSystem.questions ex)) - 1));
      try lia; split; try done.
    unfold ExamSystem.set_index. simpl. intros [= Hi]. lia.
  - destruct (Nat.eqb_spec i 0) as [->|Hne]; simpl; [done|].
    destruct (Nat.ltb_spec 0 i); [|lia]. split; [done|].
    unfold ExamSystem.set_index. simpl. intros [= Hi]. lia.
  - destruct (Z.ltb_spec (Z.of_nat i) (Z.of_nat (length (ExamSystem.questions ex)) - 1));
      [|done]. intros _. unfold ExamSystem.set_index. simpl.
    f_equal. lia.
  - destruct (Nat.ltb_spec 0 i); [|done]. intros _.
    unfold ExamSystem.set_index. simpl.
    destruct (Z.ltb_spec (Z.of_nat (i - 1))
                (Z.of_nat (length (ExamSystem.questions ex)) - 1)); [|lia].
    f_equal. lia.
Qed.

(** The first question of the exam [just_started]. *)
Lemma X2_navigation_buttons_witness :
  ExamSystem.updateNavigationButtons just_started = (true, Some false)
  ∧ ExamSystem.goToPreviousQuestion (ExamSystem.goToNextQuestion just_started)
    = just_started.
Proof.
  destruct (X2_navigation_buttons just_started exam_of_two eq_refl
              ltac:(vm_compute; lia)) as (_ & _ & Hback & _).
  split; [reflexivity|]. apply Hback.
  intros Hsame. apply (f_equal ExamSystem.currentQuestionIndex) in Hsame.
  vm_compute in Hsame. discriminate Hsame.
Defined.

Lemma timersTracked_finishExam c r (s : ExamSystem.State) :
  timersTracked s → timersTracked (ExamSystem.finishExam c r s).
Proof.
  unfold timersTracked, ExamSystem.finishExam.
  destruct s as [[ex|] i ans [h|] t res live next v]; simpl; intros Hs;
    try destruct (_ && _); simpl; try destruct r; simpl; try done;
    intros h' Hh';
    repeat match goal with
    | H : _ ∈ _ ∪ _ |- _ => apply elem_of_union in H as [H|H]
    | H : _ ∈ _ ∖ _ |- _ => apply elem_of_difference in H as [H ?]
    | H : _ ∈ {[ _ ]} |- _ => apply elem_of_singleton in H
    end; subst; try done;
    try (specialize (Hs _ Hh'); try discriminate Hs; injection Hs as ->;
         exfalso; match goal with H : _ ∉ _ |- _ => apply H end;
         by apply elem_of_singleton).
Qed.

(** X3. Unless a new exam is started while a timer is still live, no
    handler leaves a live interval timer other than the one [examTimer]
    holds; so at most one timer counts the remaining time down. *)
Theorem X3_timers_tracked (e : ExamSystem.Event) (s : ExamSystem.State) :
  timersTracked s →
  (∀ data, e = ExamSystem.EvStartNewExam (Some data) → ExamSystem.intervals s = ∅) →
  timersTracked (ExamSystem.handle e s)
  ∧ (size (ExamSystem.intervals (ExamSystem.handle e s)) ≤ 1)%nat.
Proof.
  intros Hs Hnew.
  assert (Hafter : timersTracked (ExamSystem.handle e s)).
  { destruct e; simpl; try done.
    - destruct reply as [data|]; [|done].
      unfold timersTracked. simpl. rewrite (Hnew data eq_refl).
      intros h Hh. apply elem_of_union in Hh as [Hh|Hh].
      + by apply elem_of_singleton in Hh as ->.
      + by apply elem_of_empty in Hh.
    - unfold ExamSystem.goToPreviousQuestion. by destruct (_ <? _)%nat.
    - unfold ExamSystem.goToNextQuestion.
      destruct (ExamSystem.currentExam s); [|done]. by destruct (_ <? _)%Z.
    - revert Hs. unfold timersTracked, ExamSystem.pauseExam.
      destruct s as [ex i ans [h|] t res live next v]; simpl; intros Hs h' Hh'.
      + apply elem_of_difference in Hh' as [Hh' Hne].
        specialize (Hs _ Hh'). injection Hs as ->.
        exfalso. apply Hne. by apply elem_of_singleton.
      + apply elem_of_union in Hh' as [Hh'|Hh'].
        * by apply elem_of_singleton in Hh' as ->.
        * by specialize (Hs _ Hh').
    - by apply timersTracked_finishExam.
    - unfold ExamSystem.tick. destruct (decide _); [|done].
      destruct (_ <=? _)%Z; [|done].
      apply timersTracked_finishExam. revert Hs. unfold timersTracked.
      destruct s as [ex i ans [h'|] t res live next v]; simpl; [|done].
      intros Hs h'' Hh''. apply elem_of_difference in Hh'' as [Hh'' _]. by apply Hs. }
  split; [exact Hafter|].
  destruct (ExamSystem.examTimer (ExamSystem.handle e s)) as [h|] eqn:Htimer.
  - transitivity (size ({[h]} : gset nat)); [|by rewrite size_singleton].
    apply subseteq_size. intros h' Hh'. apply Hafter in Hh'.
    rewrite Htimer in Hh'. injection Hh' as ->. by apply elem_of_singleton.
  - replace (ExamSystem.intervals (ExamSystem.handle e s)) with (∅ : gset nat);
      [rewrite size_empty; lia|].
    symmetry. apply leibniz_equiv, elem_of_equiv_empty. intros h Hh.
    apply Hafter in Hh. rewrite Htimer in Hh. discriminate Hh.
Qed.

(** Pausing the exam [just_started] leaves no live timer. *)
Lemma X3_timers_tracked_witness :
  (size (ExamSystem.intervals (ExamSystem.pauseExam just_started)) ≤ 1)%nat.
Proof.
  refine (proj2 (X3_timers_tracked ExamSystem.EvPause just_started _ _)).
  - intros h Hh. apply elem_of_union in Hh as [Hh|Hh].
    + apply elem_of_singleton in Hh. by subst.
    + by apply elem_of_empty in Hh.
  - intros data Hdata. discriminate Hdata.
Defined.

(** X4. Only [saveAnswer] and the start of a new exam change the answers,
    and only the start of a new exam changes the exam: pausing, finishing,
    the firing of the timer and navigation leave both as they are. *)
Theorem X4_answers_kept (e : ExamSystem.Event) (s : ExamSystem.State) :
  (∀ questionId answer, e ≠ ExamSystem.EvSaveAnswer questionId answer) →
  (∀ data, e ≠ ExamSystem.EvStartNewExam (Some data)) →
  ExamSystem.userAnswers (ExamSystem.handle e s) = ExamSystem.userAnswers s
  ∧ ExamSystem.currentExam (ExamSystem.handle e s) = ExamSystem.currentExam s.
Proof.
  intros Hsave Hnew.
  assert (Hfinish : ∀ c r s',
    ExamSystem.userAnswers (ExamSystem.finishExam c r s') = ExamSystem.userAnswers s'
    ∧ ExamSystem.currentExam (ExamSystem.finishExam c r s') = ExamSystem.currentExam s').
  { intros c r s'. unfold ExamSystem.finishExam.
    destruct s' as [[ex|] i ans [h|] t res live next v]; simpl; try done;
      destruct (_ && _); simpl; try done; by destruct r. }
  destruct e; simpl; try done.
  - destruct reply as [data|]; [|done]. by destruct (Hnew data).
  - by destruct (Hsave questionId answer).
  - unfold ExamSystem.goToPreviousQuestion. by destruct (_ <? _)%nat.
  - unfold ExamSystem.goToNextQuestion.
    destruct (ExamSystem.currentExam s) eqn:Hex; [|by rewrite Hex].
    destruct (_ <? _)%Z; simpl; by rewrite ?Hex.
  - unfold ExamSystem.pauseExam. by destruct (ExamSystem.examTimer s).
  - unfold ExamSystem.tick. destruct (decide _); [|done].
    destruct (_ <=? _)%Z; [|done].
    unfold ExamSystem.timeUp.
    destruct (Hfinish confirmFinish reply
                (ExamSystem.clearInterval
                   (ExamSystem.examTimer
                      (ExamSystem.set_timeRemaining (ExamSystem.timeRemaining s - 1) s))
                   (ExamSystem.set_timeRemaining (ExamSystem.timeRemaining s - 1) s)))
      as [-> ->].
    by destruct s as [ex i ans [h'|] t res live next v].
Qed.

(** The time runs out on the session [one_answered]: its answer is kept. *)
Lemma X4_answers_kept_witness :
  ExamSystem.userAnswers
    (ExamSystem.tick 1 true None (ExamSystem.set_timeRemaining 1 one_answered))
  = ExamSystem.userAnswers one_answered.
Proof.
  refine (proj1 (X4_answers_kept (ExamSystem.EvTick 1 true None)
                   (ExamSystem.set_timeRemaining 1 one_answered) _ _)).
  - intros questionId answer Heq. discriminate Heq.
  - intros data Heq. discriminate Heq.
Defined.

(** ** Scoring: consistency and failure *)

Lemma initialUTResults_outside (t : nat) :
  ¬ (1 ≤ t ≤ 11)%nat → ExamSystem.initialUTResults !! t = None.
Proof.
  intros Ht. unfold ExamSystem.initialUTResults. simpl.
  rewrite !lookup_insert_ne by lia. apply lookup_empty.
Qed.

Lemma forEach_fails answers qs : ∀ c a ut,
  ExamSystem.forEach answers qs (c, a, ut) = None
  ↔ ∃ q, q ∈ qs ∧ ut !! ExamSystem.ut_number q = None.
Proof.
  induction qs as [|q qs IH]; intros c a ut; cbn [ExamSystem.forEach].
  - split; [done|]. intros (q & Hq & _). by apply elem_of_nil in Hq.
  - destruct (ExamSystem.tally answers (c, a, ut) q) as [[[c1 a1] ut1]|] eqn:Htally.
    + pose proof (tally_effect answers _ _ _ _ _ _ _ Htally) as (_ & _ & Hut1).
      assert (Hq : is_Some (ut !! ExamSystem.ut_number q)).
      { revert Htally. unfold ExamSystem.tally.
        destruct (ut !! ExamSystem.ut_number q); [by eexists|done]. }
      rewrite IH. split.
      * intros (q' & Hq' & Hnone). exists q'. split; [by apply elem_of_cons; right|].
        rewrite Hut1 in Hnone. by destruct (ut !! ExamSystem.ut_number q').
      * intros (q' & Hq' & Hnone). apply elem_of_cons in Hq' as [->|Hq'].
        -- rewrite Hnone in Hq. by destruct Hq.
        -- exists q'. split; [done|]. by rewrite Hut1, Hnone.
    + split; [|done]. intros _. exists q. split; [by apply elem_of_cons; left|].
      revert Htally. unfold ExamSystem.tally.
      destruct (ut !! ExamSystem.ut_number q); [|done].
      destruct (truthy _); [|done]. by destruct (ExamSystem.isCorrect _ _).
Qed.

Lemma count_if_cons {A} (P : A → bool) (x : A) (l : list A) :
  count_if P (x :: l) = ((if P x then 1 else 0) + count_if P l)%nat.
Proof. unfold count_if. simpl. by destruct (P x). Qed.

Lemma count_if_le {A} (P Q : A → bool) (l : list A) :
  (∀ x, P x = true → Q x = true) → (count_if P l ≤ count_if Q l)%nat.
Proof.
  intros HPQ. induction l as [|x l IH]; [done|]. rewrite !count_if_cons.
  specialize (HPQ x). destruct (P x), (Q x); try lia; by specialize (HPQ eq_refl).
Qed.

Lemma count_if_length {A} (P : A → bool) (l : list A) : (count_if P l ≤ length l)%nat.
Proof. apply List.filter_length_le. Qed.

Lemma count_if_split {A} (P Q R : A → bool) (l : list A) :
  (∀ x, P x = Q x || R x) → (∀ x, Q x && R x = false) →
  count_if P l = (count_if Q l + count_if R l)%nat.
Proof.
  intros Hor Hnot. induction l as [|x l IH]; [done|]. rewrite !count_if_cons, IH.
  specialize (Hor x). specialize (Hnot x). destruct (P x), (Q x), (R x); done.
Qed.

Lemma answered_split answers (q : ExamSystem.QuestionDetail) :
  answered answers q = answeredCorrectly answers q || answeredWrongly answers q
  ∧ answeredCorrectly answers q && answeredWrongly answers q = false.
Proof.
  unfold answered, answeredCorrectly, answeredWrongly, isTruthy.
  destruct (truthy _) as [a|]; [|done]. by destruct (ExamSystem.isCorrect a q).
Qed.

(** Each question with a topic from 1 to 11 is counted in exactly one topic. *)
Lemma topic_counts_add_up (P : ExamSystem.QuestionDetail → bool) qs :
  (∀ q, q ∈ qs → (1 ≤ ExamSystem.ut_number q ≤ 11)%nat) →
  sum_list_with (λ t, count_if (λ q, inTopic t q && P q) qs) (seq 1 11) = count_if P qs.
Proof.
  induction qs as [|q qs IH]; intros Hqs; [done|].
  rewrite count_if_cons, <- IH by (intros q' Hq'; apply Hqs; by apply elem_of_cons; right).
  assert (Hq : (1 ≤ ExamSystem.ut_number q ≤ 11)%nat)
    by (apply Hqs; by apply elem_of_cons; left).
  cbn [seq sum_list_with]. rewrite !count_if_cons. unfold inTopic at 1 3 5 7 9 11 13 15 17 19 21.
  assert (ExamSystem.ut_number q = 1 ∨ ExamSystem.ut_number q = 2
          ∨ ExamSystem.ut_number q = 3 ∨ ExamSystem.ut_number q = 4
          ∨ ExamSystem.ut_number q = 5 ∨ ExamSystem.ut_number q = 6
          ∨ ExamSystem.ut_number q = 7 ∨ ExamSystem.ut_number q = 8
          ∨ ExamSystem.ut_number q = 9 ∨ ExamSystem.ut_number q = 10
          ∨ ExamSystem.ut_number q = 11)%nat as Hcases by lia.
  repeat destruct Hcases as [->|Hcases]; try rewrite Hcases; simpl;
    destruct (P q); lia.
Qed.

Lemma percentageOf_range (c a : nat) :
  (c ≤ a)%nat →
  (0 <= ExamSystem.percentageOf c a)%Q ∧ (ExamSystem.percentageOf c a <= 100)%Q.
Proof.
  intros Hca. unfold ExamSystem.percentageOf.
  destruct (Nat.ltb_spec 0 a) as [Ha|Ha]; [|split; by compute].
  assert (Hpos : (0 < inject_Z (Z.of_nat a))%Q)
    by (rewrite <- (Zlt_Qlt 0); lia).
  assert (Hlow : (0 <= inject_Z (Z.of_nat c) / inject_Z (Z.of_nat a))%Q).
  { apply Qle_shift_div_l; [done|]. rewrite Qmult_0_l, <- (Zle_Qle 0). lia. }
  assert (Hhigh : (inject_Z (Z.of_nat c) / inject_Z (Z.of_nat a) <= 1)%Q).
  { apply Qle_shift_div_r; [done|]. rewrite Qmult_1_l, <- Zle_Qle. lia. }
  split.
  - apply Qmult_le_0_compat; [done|by compute].
  - apply (Qle_trans _ (1 * 100)); [|by compute].
    apply Qmult_le_compat_r; [done|by compute].
Qed.

Lemma percentageOf_all (a : nat) :
  (0 < a)%nat → (ExamSystem.percentageOf a a == 100)%Q.
Proof.
  intros Ha. unfold ExamSystem.percentageOf.
  destruct (Nat.ltb_spec 0 a) as [_|?]; [|lia].
  unfold Qdiv. rewrite Qmult_inv_r; [reflexivity|].
  intros Hzero. assert (Hlt : (0 < inject_Z (Z.of_nat a))%Q)
    by (rewrite <- (Zlt_Qlt 0); lia).
  rewrite Hzero in Hlt. by compute in Hlt.
Qed.

(** X5. The figures [calculateAndShowResults] reports are consistent: the
    per-topic totals add up to the number of questions, the per-topic
    correct counts to [correctAnswers], the per-topic errors to the
    answered questions that are not correct; no topic has more correct
    answers and errors than questions; and the percentage lies between 0
    and 100. *)
Theorem X5_results_consistent (s : ExamSystem.State) (ex : ExamSystem.Exam)
    (details : list ExamSystem.QuestionDetail) (res : ExamSystem.Results) :
  ExamSystem.currentExam s = Some ex →
  ExamSystem.questionDetails ex = Some details →
  ExamSystem.calculateAndShowResults s = Some res →
  topicSum ExamSystem.total (ExamSystem.utResults res) = length details
  ∧ topicSum ExamSystem.correct (ExamSystem.utResults res) = ExamSystem.correctAnswers res
  ∧ (topicSum ExamSystem.errors (ExamSystem.utResults res)
     + ExamSystem.correctAnswers res)%nat = ExamSystem.totalAnswered res
  ∧ (ExamSystem.totalAnswered res ≤ length details)%nat
  ∧ (∀ t u, ExamSystem.utResults res !! t = Some u →
       (ExamSystem.correct u + ExamSystem.errors u ≤ ExamSystem.total u)%nat)
  ∧ (0 <= ExamSystem.percentage res)%Q ∧ (ExamSystem.percentage res <= 100)%Q.
Proof.
  intros Hex Hdetails. unfold ExamSystem.calculateAndShowResults.
  rewrite Hex, Hdetails.
  destruct (ExamSystem.forEach _ _ _) as [[[c a] ut]|] eqn:Hloop; [|done].
  destruct (ExamSystem.checkIfPassed _ ut) as [b|]; [|done].
  intros [= <-]; simpl.
  assert (Hrange : ∀ q, q ∈ details → (1 ≤ ExamSystem.ut_number q ≤ 11)%nat).
  { intros q Hq.
    destruct (decide (1 ≤ ExamSystem.ut_number q ≤ 11)%nat) as [|Hout]; [done|].
    assert (Hnone : ExamSystem.forEach (ExamSystem.userAnswers s) details
                      (0%nat, 0%nat, ExamSystem.initialUTResults) = None).
    { apply forEach_fails. exists q. split; [done|].
      by apply initialUTResults_outside. }
    rewrite Hnone in Hloop. discriminate Hloop. }
  apply forEach_counts in Hloop as (Hc & Ha & Hut). simpl in Hc, Ha.
  set (answers := ExamSystem.userAnswers s) in *.
  assert (Hsum : ∀ (f : ExamSystem.UTResult → nat) (g : nat → nat),
            (∀ t, (1 ≤ t ≤ 11)%nat → from_option f 0%nat (ut !! t) = g t) →
            topicSum f ut = sum_list_with g (seq 1 11)).
  { intros f g Hfg. unfold topicSum.
    assert (Hin : ∀ t, t ∈ seq 1 11 → (1 ≤ t ≤ 11)%nat)
      by (intros t Ht; apply elem_of_seq in Ht; lia).
    induction (seq 1 11) as [|t ts IH]; [done|]. cbn [sum_list_with].
    rewrite Hfg by (apply Hin; by apply elem_of_cons; left).
    rewrite IH; [done|]. intros t' Ht'. apply Hin. by apply elem_of_cons; right. }
  assert (Hwhole : ∀ t, count_if (inTopic t) details
                        = count_if (λ q, inTopic t q && true) details).
  { intros t. unfold count_if. f_equal. apply List.filter_ext. intros q.
    by rewrite andb_true_r. }
  pose proof (count_if_split (answered answers) (answeredCorrectly answers)
                (answeredWrongly answers) details
                (λ q, proj1 (answered_split answers q))
                (λ q, proj2 (answered_split answers q))) as Hparts.
  split; [|split; [|split; [|split; [|split]]]].
  - rewrite (Hsum _ (λ t, count_if (λ q, inTopic t q && true) details)).
    + rewrite (topic_counts_add_up (λ _, true)) by done.
      unfold count_if. by rewrite List.filter_true.
    + intros t Ht. rewrite Hut, initialUTResults_lookup by done. simpl. apply Hwhole.
  - rewrite (Hsum _ (λ t, count_if (λ q, inTopic t q && answeredCorrectly answers q)
                            details)).
    + rewrite topic_counts_add_up by done. lia.
    + intros t Ht. by rewrite Hut, initialUTResults_lookup by done.
  - rewrite (Hsum _ (λ t, count_if (λ q, inTopic t q && answeredWrongly answers q)
                            details)).
    + rewrite topic_counts_add_up by done. lia.
    + intros t Ht. by rewrite Hut, initialUTResults_lookup by done.
  - rewrite Ha. simpl. apply count_if_length.
  - intros t u. rewrite Hut.
    destruct (decide (1 ≤ t ≤ 11)%nat) as [Ht|Ht].
    + rewrite initialUTResults_lookup by done. intros [= <-]. simpl.
      rewrite Hwhole.
      rewrite <- (count_if_split (λ q, inTopic t q && answered answers q)
                    (λ q, inTopic t q && answeredCorrectly answers q)
                    (λ q, inTopic t q && answeredWrongly answers q)).
      * apply count_if_le. intros q. destruct (inTopic t q); [done|done].
      * intros q. rewrite (proj1 (answered_split answers q)).
        by destruct (inTopic t q).
      * intros q. pose proof (proj2 (answered_split answers q)).
        destruct (inTopic t q); [done|done].
    + by rewrite initialUTResults_outside.
  - apply percentageOf_range. lia.
Qed.

(** The figures of the session [one_answered]. *)
Lemma X5_results_consistent_witness :
  ∃ res, ExamSystem.calculateAndShowResults one_answered = Some res
         ∧ topicSum ExamSystem.total (ExamSystem.utResults res) = 2%nat.
Proof.
  destruct (ExamSystem.calculateAndShowResults one_answered) as [res|] eqn:Hres;
    [|vm_compute in Hres; discriminate].
  exists res. split; [reflexivity|].
  exact (proj1 (X5_results_consistent one_answered exam_of_two _ res
                  eq_refl eq_refl Hres)).
Defined.

Lemma checkIfPassed_defined (p : Q) (ut : gmap nat ExamSystem.UTResult) :
  is_Some (ut !! 5%nat) → is_Some (ut !! 6%nat) → is_Some (ut !! 11%nat) →
  is_Some (ExamSystem.checkIfPassed p ut).
Proof.
  intros [u5 H5] [u6 H6] [u11 H11]. unfold ExamSystem.checkIfPassed.
  destruct (Qlt_le_dec p 65); [by eexists|]. simpl. rewrite H5, H6, H11.
  destruct (_ <? _)%nat; [by eexists|]. destruct (_ <? _)%nat; [by eexists|].
  destruct (_ <? _)%nat; by eexists.
Qed.

(** X6. [calculateAndShowResults] never shows results: it always stops
    with a TypeError.  The TypeError comes before there is a result to hand
    to [displayResults] exactly when there is no exam, when the exam has no
    [questionDetails], or when one of these questions has a topic number
    outside 1 to 11.  Otherwise it comes in [displayResults], which reads
    [ut_results] of an object that has [utResults] and so calls
    [generateUTResultsHTML] on [undefined], before anything is written on
    the screen. *)
Theorem X6_results_failure (s : ExamSystem.State) :
  (ExamSystem.calculateAndShowResults s = None
   ↔ ExamSystem.currentExam s = None
     ∨ (∃ ex, ExamSystem.currentExam s = Some ex ∧ ExamSystem.questionDetails ex = None)
     ∨ (∃ ex details q,
          ExamSystem.currentExam s = Some ex
          ∧ ExamSystem.questionDetails ex = Some details
          ∧ q ∈ details ∧ ¬ (1 ≤ ExamSystem.ut_number q ≤ 11)%nat))
  ∧ (∀ res, ExamSystem.calculateAndShowResults s = Some res →
       ExamSystem.displayResults (ExamSystem.resultsObject res) = None)
  ∧ ExamSystem.resultsShown s = None.
Proof.
  split; [|split; [done|]];
    [|unfold ExamSystem.resultsShown;
      by destruct (ExamSystem.calculateAndShowResults s)].
  unfold ExamSystem.calculateAndShowResults.
  destruct (ExamSystem.currentExam s) as [ex|]; [|by split; [left|]].
  destruct (ExamSystem.questionDetails ex) as [details|] eqn:Hdetails;
    [|split; [intros _; right; left; by exists ex|done]].
  destruct (ExamSystem.forEach _ _ _) as [[[c a] ut]|] eqn:Hloop.
  - pose proof (forEach_counts _ _ _ _ _ _ _ _ Hloop) as (_ & _ & Hut).
    destruct (checkIfPassed_defined (ExamSystem.percentageOf c a) ut) as [b ->];
      try (rewrite Hut, initialUTResults_lookup by lia; by eexists).
    split; [done|].
    intros [Hnone|[(ex' & Hex' & Hnone)|(ex' & details' & q & Hex' & Hd & Hq & Hout)]];
      try done.
    + injection Hex' as <-. congruence.
    + injection Hex' as <-. rewrite Hdetails in Hd. injection Hd as <-.
      assert (Hfail : ExamSystem.forEach (ExamSystem.userAnswers s) details
                        (0%nat, 0%nat, ExamSystem.initialUTResults) = None).
      { apply forEach_fails. exists q. split; [done|].
        by apply initialUTResults_outside. }
      rewrite Hfail in Hloop. discriminate Hloop.
  - split; [|done]. intros _. right; right.
    apply forEach_fails in Hloop as (q & Hq & Hnone).
    exists ex, details, q. repeat split; try done.
    intros Hin. by rewrite (initialUTResults_lookup _ Hin) in Hnone.
Qed.

(** X7. An exam in which no given answer is wrong is passed as soon as one
    question is answered, however few; an exam with no answer at all is
    failed. *)
Theorem X7_pass_edges (s : ExamSystem.State) (ex : ExamSystem.Exam)
    (details : list ExamSystem.QuestionDetail) (res : ExamSystem.Results) :
  ExamSystem.currentExam s = Some ex →
  ExamSystem.questionDetails ex = Some details →
  ExamSystem.calculateAndShowResults s = Some res →
  let answers := ExamSystem.userAnswers s in
  ((0 < count_if (answered answers) details)%nat →
   count_if (answeredWrongly answers) details = 0%nat →
   ExamSystem.passed res = true)
  ∧ (count_if (answered answers) details = 0%nat → ExamSystem.passed res = false).
Proof.
  intros Hex Hdetails. unfold ExamSystem.calculateAndShowResults.
  rewrite Hex, Hdetails.
  destruct (ExamSystem.forEach _ _ _) as [[[c a] ut]|] eqn:Hloop; [|done].
  destruct (ExamSystem.checkIfPassed _ ut) as [b|] eqn:Hpass; [|done].
  intros [= <-]; simpl.
  apply forEach_counts in Hloop as (Hc & Ha & Hut). simpl in Hc, Ha.
  set (answers := ExamSystem.userAnswers s) in *.
  pose proof (count_if_split (answered answers) (answeredCorrectly answers)
                (answeredWrongly answers) details
                (λ q, proj1 (answered_split answers q))
                (λ q, proj2 (answered_split answers q))) as Hparts.
  unfold ExamSystem.checkIfPassed in Hpass. split.
  - intros Hsome Hnowrong.
    assert (Hnone : ∀ t, count_if (λ q, inTopic t q && answeredWrongly answers q) details
                         = 0%nat).
    { intros t. apply Nat.le_0_r. rewrite <- Hnowrong. apply count_if_le.
      intros q. by destruct (inTopic t q). }
    replace c with a in Hpass by lia.
    destruct (Qlt_le_dec _ 65) as [Hlt|_].
    + rewrite percentageOf_all in Hlt by lia. by compute in Hlt.
    + simpl in Hpass. rewrite !Hut in Hpass.
      rewrite !initialUTResults_lookup in Hpass by lia. simpl in Hpass.
      rewrite !Hnone in Hpass. simpl in Hpass. by injection Hpass as <-.
  - intros Hnothing. replace a with 0%nat in Hpass by lia.
    unfold ExamSystem.percentageOf in Hpass. simpl in Hpass.
    destruct (Qlt_le_dec 0 65) as [_|Hle]; [by injection Hpass as <-|].
    by compute in Hle.
Qed.

(** One correct answer out of two questions: [one_answered] is passed. *)
Lemma X7_pass_edges_witness :
  ∃ res, ExamSystem.calculateAndShowResults one_answered = Some res
         ∧ ExamSystem.passed res = true.
Proof.
  destruct (ExamSystem.calculateAndShowResults one_answered) as [res|] eqn:Hres;
    [|vm_compute in Hres; discriminate].
  exists res. split; [reflexivity|].
  apply (proj1 (X7_pass_edges one_answered exam_of_two _ res eq_refl eq_refl Hres)).
  - vm_compute. lia.
  - vm_compute. reflexivity.
Defined.

(** ** The timer display *)

Lemma parseDecimal_toString (n : Z) : parseDecimal (ExamSystem.toString n) = Some n.
Proof.
  unfold parseDecimal, ExamSystem.toString.
  assert (Hnil : ∀ d, Z.of_int d = 0%Z → n ≠ 0%Z → Z.to_int n ≠ d).
  { intros d Hd Hn Heq. apply Hn. by rewrite <- (DecimalZ.of_to n), Heq. }
  destruct (decide (n = 0%Z)) as [->|Hn]; [done|].
  rewrite NilZero.isi by (by apply Hnil).
  simpl. f_equal. apply DecimalZ.of_to.
Qed.

Lemma seconds_text (n : nat) :
  (n < 60)%nat →
  String.length (ExamSystem.padStart2 (ExamSystem.toString (Z.of_nat n))) = 2%nat
  ∧ parseDecimal (ExamSystem.padStart2 (ExamSystem.toString (Z.of_nat n)))
    = Some (Z.of_nat n).
Proof.
  intros Hn. do 60 (destruct n as [|n]; [by vm_compute|]). lia.
Qed.

(** X8. With time left, the timer shows [minutes:seconds] with the seconds
    on exactly two digits; read back as numbers they give the remaining
    time, the seconds below 60.  The warning is on from ten minutes down. *)
Theorem X8_timer_text (s : ExamSystem.State) :
  (0 ≤ ExamSystem.timeRemaining s)%Z →
  ∃ mm ss minutes seconds,
    fst (ExamSystem.updateTimerDisplay s) = (mm ++ ":" ++ ss)%string
    ∧ String.length ss = 2%nat
    ∧ parseDecimal mm = Some minutes ∧ parseDecimal ss = Some seconds
    ∧ (0 ≤ seconds < 60)%Z
    ∧ (minutes * 60 + seconds)%Z = ExamSystem.timeRemaining s
    ∧ (snd (ExamSystem.updateTimerDisplay s) = true ↔ (minutes < 10 ∨ minutes = 10 ∧ seconds = 0)%Z).
Proof.
  intros Ht. unfold ExamSystem.updateTimerDisplay. simpl.
  set (t := ExamSystem.timeRemaining s) in *.
  rewrite Z.rem_mod_nonneg by lia.
  pose proof (Z.mod_pos_bound t 60 ltac:(lia)) as Hsec.
  pose proof (Z.div_mod t 60 ltac:(lia)) as Hdiv.
  destruct (seconds_text (Z.to_nat (t mod 60)) ltac:(lia)) as [Hlen Hparse].
  rewrite Z2Nat.id in Hlen, Hparse by lia.
  eexists _, _, (t / 60)%Z, (t mod 60)%Z. split; [reflexivity|].
  split; [exact Hlen|]. split; [apply parseDecimal_toString|].
  split; [exact Hparse|]. split; [lia|]. split; [lia|].
  rewrite Z.leb_le. lia.
Qed.

(** A fresh exam shows 90:00. *)
Lemma X8_timer_text_witness :
  ∃ mm ss minutes seconds,
    fst (ExamSystem.updateTimerDisplay just_started) = (mm ++ ":" ++ ss)%string
    ∧ String.length ss = 2%nat
    ∧ parseDecimal mm = Some minutes ∧ parseDecimal ss = Some seconds
    ∧ (0 ≤ seconds < 60)%Z
    ∧ (minutes * 60 + seconds)%Z = ExamSystem.timeRemaining just_started
    ∧ (snd (ExamSystem.updateTimerDisplay just_started) = true
       ↔ (minutes < 10 ∨ minutes = 10 ∧ seconds = 0)%Z).
Proof.
  apply (X8_timer_text just_started). vm_compute. discriminate.
Defined.

(** ** The filter module *)

(** X9. The WHERE clause [buildFilterConditions] builds has as many
    placeholders as there are parameters; it is one of eight fixed texts,
    chosen by which arguments are set, so no argument text enters it; with
    no argument set it is [1=1] with no parameter. *)
Theorem X9_where_clause (convocatoria tema search_text : FilterManager.Value) :
  let built := FilterManager.buildFilterConditions convocatoria tema search_text in
  countChar "?" (FilterManager.whereClause built) = length (FilterManager.params built)
  ∧ (∀ convocatoria' tema' search_text',
       FilterManager.isTruthy convocatoria' = FilterManager.isTruthy convocatoria →
       FilterManager.isTruthy tema' = FilterManager.isTruthy tema →
       FilterManager.isTruthy search_text' = FilterManager.isTruthy search_text →
       FilterManager.whereClause
         (FilterManager.buildFilterConditions convocatoria' tema' search_text')
       = FilterManager.whereClause built)
  ∧ (FilterManager.isTruthy convocatoria = false →
     FilterManager.isTruthy tema = false →
     FilterManager.isTruthy search_text = false →
     built = {| FilterManager.whereClause := "1=1"; FilterManager.params := [] |}).
Proof.
  unfold FilterManager.buildFilterConditions. split; [|split].
  - destruct (FilterManager.isTruthy convocatoria), (FilterManager.isTruthy tema),
      (FilterManager.isTruthy search_text); reflexivity.
  - intros c' t' s' -> -> ->.
    destruct (FilterManager.isTruthy convocatoria), (FilterManager.isTruthy tema),
      (FilterManager.isTruthy search_text); reflexivity.
  - intros -> -> ->. reflexivity.
Qed.

Lemma prefix_spec (n s : string) :
  String.prefix n s = true ↔ ∃ after, s = (n ++ after)%string.
Proof.
  revert s. induction n as [|a n IH]; intros [|b s]; simpl.
  - split; [by exists ""|done].
  - split; [by exists (String b s)|done].
  - split; [done|by intros [after Heq]].
  - destruct (Ascii.ascii_dec a b) as [->|Hne].
    + rewrite IH. split; intros [after Heq]; exists after.
      * by rewrite sapp_cons, Heq.
      * rewrite sapp_cons in Heq. by injection Heq.
    + split; [done|]. intros [after Heq]. rewrite sapp_cons in Heq.
      injection Heq as Hab _. by destruct Hne.
Qed.

Lemma includes_spec (s n : string) :
  FilterManager.includes s n = true ↔ ∃ before after, s = (before ++ n ++ after)%string.
Proof.
  induction s as [|a s IH]; cbn [FilterManager.includes].
  - rewrite orb_false_r, prefix_spec. split.
    + intros [after Heq]. by exists "", after.
    + intros (before & after & Heq). destruct before as [|b before]; [|done].
      exists after. by rewrite sapp_nil_l in Heq.
  - rewrite orb_true_iff, prefix_spec, IH. split.
    + intros [[after Heq]|(before & after & Heq)].
      * by exists "", after.
      * exists (String a before), after. by rewrite sapp_cons, Heq.
    + intros (before & after & Heq). destruct before as [|b before].
      * left. exists after. by rewrite sapp_nil_l in Heq.
      * right. rewrite sapp_cons in Heq. injection Heq as _ Heq. by exists before, after.
Qed.

Lemma filter_filter_and {A} (P Q : A → bool) (l : list A) :
  List.filter Q (List.filter P l) = List.filter (λ x, P x && Q x) l.
Proof.
  induction l as [|x l IH]; [done|]. simpl.
  destruct (P x); simpl; [|done]. destruct (Q x); by rewrite IH.
Qed.

Lemma filter_all {A} (P : A → bool) (l : list A) :
  (∀ x, x ∈ l → P x = true) → List.filter P l = l.
Proof.
  induction l as [|x l IH]; intros Hall; [done|]. simpl.
  rewrite (Hall x) by (by apply elem_of_cons; left).
  f_equal. apply IH. intros y Hy. apply Hall. by apply elem_of_cons; right.
Qed.

Lemma filter_sublist {A} (P : A → bool) (l : list A) : sublist (List.filter P l) l.
Proof.
  induction l as [|x l IH]; simpl; [constructor|].
  destruct (P x); by constructor.
Qed.

Lemma elem_of_List_filter {A} (P : A → bool) (l : list A) (x : A) :
  x ∈ List.filter P l ↔ x ∈ l ∧ P x = true.
Proof. rewrite !list_elem_of_In. apply List.filter_In. Qed.

Lemma uniqueFilter_sublist qs : ∀ seen,
  sublist (FilterManager.uniqueFilter seen qs) qs.
Proof.
  induction qs as [|q qs IH]; intros seen; simpl; [constructor|].
  destruct (bool_decide _); by constructor.
Qed.

Lemma uniqueFilter_hashes qs : ∀ seen,
  NoDup (FilterManager.hash_pregunta <$> FilterManager.uniqueFilter seen qs)
  ∧ (∀ q, q ∈ FilterManager.uniqueFilter seen qs → FilterManager.hash_pregunta q ∉ seen)
  ∧ (∀ q, q ∈ qs → FilterManager.hash_pregunta q ∉ seen →
       FilterManager.hash_pregunta q
       ∈ FilterManager.hash_pregunta <$> FilterManager.uniqueFilter seen qs).
Proof.
  induction qs as [|q qs IH]; intros seen; simpl.
  - split; [constructor|]. split; intros q Hq; by apply elem_of_nil in Hq.
  - destruct (bool_decide_reflect (FilterManager.hash_pregunta q ∈ seen)) as [Hin|Hout].
    + destruct (IH seen) as (Hnodup & Hfresh & Hall). split; [done|]. split; [done|].
      intros q' Hq' Hnew. apply elem_of_cons in Hq' as [->|Hq']; [done|]. by apply Hall.
    + destruct (IH ({[FilterManager.hash_pregunta q]} ∪ seen)) as (Hnodup & Hfresh & Hall).
      split; [|split].
      * rewrite fmap_cons. constructor; [|done]. intros Hdup.
        apply list_elem_of_fmap in Hdup as (q' & Heq & Hq').
        apply (Hfresh q' Hq'). apply elem_of_union. left. by apply elem_of_singleton.
      * intros q' Hq'. apply elem_of_cons in Hq' as [->|Hq']; [done|].
        intros Hin. apply (Hfresh q' Hq'). apply elem_of_union. by right.
      * intros q' Hq' Hnew. rewrite fmap_cons.
        destruct (decide (FilterManager.hash_pregunta q' = FilterManager.hash_pregunta q))
          as [->|Hne]; [by apply elem_of_cons; left|].
        apply elem_of_cons. right. apply elem_of_cons in Hq' as [->|Hq']; [done|].
        apply Hall; [done|]. intros Hin. apply elem_of_union in Hin as [Hin|Hin]; [|done].
        by apply elem_of_singleton in Hin.
Qed.

Lemma uniqueFilter_distinct qs : ∀ seen,
  NoDup (FilterManager.hash_pregunta <$> qs) →
  (∀ q, q ∈ qs → FilterManager.hash_pregunta q ∉ seen) →
  FilterManager.uniqueFilter seen qs = qs.
Proof.
  induction qs as [|q qs IH]; intros seen Hnodup Hfresh; simpl; [done|].
  rewrite fmap_cons in Hnodup. apply NoDup_cons in Hnodup as [Hq Hnodup].
  rewrite bool_decide_eq_false_2 by (apply Hfresh; by apply elem_of_cons; left).
  f_equal. apply IH; [done|]. intros q' Hq' Hin.
  apply elem_of_union in Hin as [Hin|Hin].
  - apply elem_of_singleton in Hin. apply Hq. rewrite <- Hin.
    apply list_elem_of_fmap. by exists q'.
  - apply (Hfresh q'); [by apply elem_of_cons; right|done].
Qed.

Lemma filter_if {A} (b : bool) (P : A → bool) (l : list A) :
  (if b then List.filter P l else l) = List.filter (λ x, implb b (P x)) l.
Proof. destruct b; simpl; [done|]. by rewrite List.filter_true. Qed.

Section FilterFacts.

Variable toLowerCase : string → string.

Lemma searchFilter_Some needle qs r :
  FilterManager.searchFilter toLowerCase needle qs = Some r →
  r = List.filter (found toLowerCase needle) qs.
Proof.
  revert r. induction qs as [|q qs IH]; intros r; simpl; [by intros [= <-]|].
  unfold found at 1.
  destruct (FilterManager.texto_pregunta q) as [| |t]; try done.
  destruct (FilterManager.searchFilter toLowerCase needle qs) as [rest|]; [|done].
  intros [= <-]. by rewrite (IH rest eq_refl).
Qed.

Lemma searchFilter_None needle qs :
  FilterManager.searchFilter toLowerCase needle qs = None
  ↔ ∃ q, q ∈ qs ∧ ∀ t, FilterManager.texto_pregunta q ≠ FilterManager.Str t.
Proof.
  induction qs as [|q qs IH]; simpl.
  - split; [done|]. intros (q & Hq & _). by apply elem_of_nil in Hq.
  - destruct (FilterManager.texto_pregunta q) as [| |t] eqn:Htext.
    + split; [|done]. intros _. exists q. split; [by apply elem_of_cons; left|].
      intros t. by rewrite Htext.
    + split; [|done]. intros _. exists q. split; [by apply elem_of_cons; left|].
      intros t. by rewrite Htext.
    + destruct (FilterManager.searchFilter toLowerCase needle qs) as [rest|].
      * split; [done|]. intros (q' & Hq' & Hnot).
        apply elem_of_cons in Hq' as [->|Hq'].
        -- by destruct (Hnot t).
        -- assert (Hnone : Some rest = None) by (apply IH; by exists q'). done.
      * split; [|done]. intros _. destruct (proj1 IH eq_refl) as (q' & Hq' & Hnot).
        exists q'. split; [by apply elem_of_cons; right|done].
Qed.

Lemma searchFilter_all needle qs :
  (∀ q, q ∈ qs → found toLowerCase needle q = true) →
  FilterManager.searchFilter toLowerCase needle qs = Some qs.
Proof.
  induction qs as [|q qs IH]; intros Hall; simpl; [done|].
  pose proof (Hall q ltac:(by apply elem_of_cons; left)) as Hq. unfold found in Hq.
  destruct (FilterManager.texto_pregunta q) as [| |t]; try done.
  rewrite IH by (intros q' Hq'; apply Hall; by apply elem_of_cons; right).
  by rewrite Hq.
Qed.

Lemma found_passesSearch (f : FilterManager.Filters) (q : FilterManager.Question) :
  FilterManager.isTruthy (FilterManager.search f) = true →
  found toLowerCase (FilterManager.text (FilterManager.search f)) q = true
  ↔ passesSearch toLowerCase f q.
Proof.
  intros Hsearch. unfold found, passesSearch. split.
  - destruct (FilterManager.texto_pregunta q) as [| |t]; try done.
    intros Hfound _. apply includes_spec in Hfound as (before & after & Heq).
    by exists t, before, after.
  - intros Hpasses. destruct (Hpasses Hsearch) as (t & before & after & -> & Heq).
    apply includes_spec. by exists before, after.
Qed.

Lemma applyFilters_stages (qs : list FilterManager.Question) (f : FilterManager.Filters) :
  FilterManager.applyFilters toLowerCase qs f
  = match (if FilterManager.isTruthy (FilterManager.search f)
           then FilterManager.searchFilter toLowerCase
                  (FilterManager.text (FilterManager.search f))
                  (List.filter (passesSelects f) qs)
           else Some (List.filter (passesSelects f) qs)) with
    | Some filtered =>
        Some (if FilterManager.duplicados f
              then FilterManager.uniqueFilter ∅ filtered else filtered)
    | None => None
    end.
Proof.
  unfold FilterManager.applyFilters.
  rewrite !filter_if, !filter_filter_and.
  rewrite (List.filter_ext _ (passesSelects f)); [reflexivity|].
  intros q. unfold passesSelects. by rewrite !andb_assoc.
Qed.

(** The questions left by the filters on the properties and on the text. *)
Lemma applyFilters_selected qs f r :
  FilterManager.applyFilters toLowerCase qs f = Some r →
  ∃ selected,
    r = (if FilterManager.duplicados f
         then FilterManager.uniqueFilter ∅ selected else selected)
    ∧ sublist selected qs
    ∧ (∀ q, q ∈ selected
            ↔ q ∈ qs ∧ passesSelects f q = true ∧ passesSearch toLowerCase f q).
Proof.
  rewrite applyFilters_stages.
  destruct (FilterManager.isTruthy (FilterManager.search f)) eqn:Hsearch.
  - destruct (FilterManager.searchFilter _ _ _) as [selected|] eqn:Hfilter; [|done].
    intros [= <-]. exists selected. split; [done|].
    apply searchFilter_Some in Hfilter as ->. split.
    + etransitivity; apply filter_sublist.
    + intros q. rewrite !elem_of_List_filter, (found_passesSearch f q Hsearch). tauto.
  - intros [= <-]. exists (List.filter (passesSelects f) qs). split; [done|].
    split; [apply filter_sublist|].
    intros q. rewrite elem_of_List_filter. unfold passesSearch. rewrite Hsearch.
    split; [intros [? ?]; by repeat split|tauto].
Qed.

(** X10. [applyFilters] returns questions of the list, in their order, and
    only questions that meet every filter that is set.  Without the filter
    on duplicates it returns all of them; with it, the questions returned
    have different hashes, and every hash of a question that meets the
    filters is the hash of a question returned. *)
Theorem X10_filters_select (qs r : list FilterManager.Question) (f : FilterManager.Filters) :
  FilterManager.applyFilters toLowerCase qs f = Some r →
  sublist r qs
  ∧ (∀ q, q ∈ r → passesSelects f q = true ∧ passesSearch toLowerCase f q)
  ∧ (FilterManager.duplicados f = false →
     ∀ q, q ∈ qs → passesSelects f q = true → passesSearch toLowerCase f q → q ∈ r)
  ∧ (FilterManager.duplicados f = true →
     NoDup (FilterManager.hash_pregunta <$> r)
     ∧ ∀ q, q ∈ qs → passesSelects f q = true → passesSearch toLowerCase f q →
         FilterManager.hash_pregunta q ∈ FilterManager.hash_pregunta <$> r).
Proof.
  intros Hr. apply applyFilters_selected in Hr as (selected & -> & Hsub & Hsel).
  destruct (FilterManager.duplicados f).
  - pose proof (uniqueFilter_sublist selected ∅) as Hunique.
    destruct (uniqueFilter_hashes selected ∅) as (Hnodup & _ & Hall).
    split; [by etransitivity|]. split; [|split; [done|]].
    + intros q Hq. apply (elem_of_sublist _ _ _ Hq), Hsel in Hunique. tauto.
    + intros _. split; [done|]. intros q Hq Hselects Hsearch.
      apply Hall; [by apply Hsel|]. apply not_elem_of_empty.
  - split; [done|]. split; [|split; [|done]].
    + intros q Hq. apply Hsel in Hq. tauto.
    + intros _ q Hq Hselects Hsearch. by apply Hsel.
Qed.

(** X11. [applyFilters] stops with a TypeError exactly when a search text is
    set and some question that meets the other filters has no text. *)
Theorem X11_filters_failure (qs : list FilterManager.Question) (f : FilterManager.Filters) :
  FilterManager.applyFilters toLowerCase qs f = None
  ↔ FilterManager.isTruthy (FilterManager.search f) = true
    ∧ ∃ q, q ∈ qs ∧ passesSelects f q = true
           ∧ ∀ t, FilterManager.texto_pregunta q ≠ FilterManager.Str t.
Proof.
  rewrite applyFilters_stages.
  destruct (FilterManager.isTruthy (FilterManager.search f)).
  - destruct (FilterManager.searchFilter _ _ _) as [selected|] eqn:Hfilter.
    + split; [done|]. intros (_ & q & Hq & Hselects & Hnot).
      assert (Hnone : FilterManager.searchFilter toLowerCase
                        (FilterManager.text (FilterManager.search f))
                        (List.filter (passesSelects f) qs) = None).
      { apply searchFilter_None. exists q. by rewrite elem_of_List_filter. }
      rewrite Hnone in Hfilter. discriminate Hfilter.
    + split; [|done]. intros _. split; [done|].
      apply searchFilter_None in Hfilter as (q & Hq & Hnot).
      apply elem_of_List_filter in Hq as [Hq Hselects]. by exists q.
  - split; [done|]. by intros [? _].
Qed.

(** X12. Cleared filters let every question through, and filtering the
    result of [applyFilters] again by the same filters changes nothing. *)
Theorem X12_filters_idempotent (qs : list FilterManager.Question) (f : FilterManager.Filters) :
  FilterManager.applyFilters toLowerCase qs FilterManager.clearFilters = Some qs
  ∧ ∀ r, FilterManager.applyFilters toLowerCase qs f = Some r →
         FilterManager.applyFilters toLowerCase r f = Some r.
Proof.
  split; [done|]. intros r Hr.
  assert (Hin : ∀ q, q ∈ r → passesSelects f q = true ∧ passesSearch toLowerCase f q).
  { apply applyFilters_selected in Hr as (selected & -> & _ & Hsel).
    intros q Hq. cut (q ∈ selected); [intros Hq'; apply Hsel in Hq'; tauto|].
    destruct (FilterManager.duplicados f); [|done].
    apply (elem_of_sublist _ _ _ Hq), uniqueFilter_sublist. }
  assert (Hdistinct : FilterManager.duplicados f = true →
                      NoDup (FilterManager.hash_pregunta <$> r)).
  { apply applyFilters_selected in Hr as (selected & -> & _ & _). intros ->.
    apply uniqueFilter_hashes. }
  rewrite applyFilters_stages.
  rewrite (filter_all (passesSelects f) r) by (intros q Hq; by apply Hin).
  assert (Hsearched :
    (if FilterManager.isTruthy (FilterManager.search f)
     then FilterManager.searchFilter toLowerCase
            (FilterManager.text (FilterManager.search f)) r
     else Some r) = Some r).
  { destruct (FilterManager.isTruthy (FilterManager.search f)) eqn:Hsearch; [|done].
    apply searchFilter_all. intros q Hq. apply (found_passesSearch f q Hsearch).
    by apply Hin. }
  rewrite Hsearched.
  destruct (FilterManager.duplicados f); [|done].
  rewrite uniqueFilter_distinct; [done|by apply Hdistinct|].
  intros q _. apply not_elem_of_empty.
Qed.

End FilterFacts.

(** The filter [babor_once] keeps the first of the two questions on the
    port-hand mark. *)
Lemma X10_filters_select_witness :
  sublist [filter_question "2023-04" "Marca lateral de BABOR" "h1"] three_questions.
Proof.
  exact (proj1 (X10_filters_select ExamViewer.lowerAscii three_questions _ babor_once
                  eq_refl)).
Defined.

(** ** Pages of the question list *)

Lemma take_drop_pages {A} (l : list A) (k n : nat) :
  concat (map (λ i, take k (drop (i * k) l)) (seq 0 n)) = take (n * k) l.
Proof.
  induction n as [|n IH]; [done|].
  rewrite seq_S, map_app, concat_app, IH. simpl. rewrite app_nil_r.
  rewrite (Nat.add_comm k (n * k)), <- take_take_drop. done.
Qed.

Lemma renderQuestions_page {A} (l : list A) (p : nat) :
  ExamViewer.renderQuestions l (Z.of_nat (S p)) = take 10 (drop (p * 10) l).
Proof.
  unfold ExamViewer.renderQuestions, ExamViewer.slice, ExamViewer.questionsPerPage.
  destruct (Nat.eqb_spec (length l) 0) as [Hnil|Hlen].
  - apply nil_length_inv in Hnil as ->. by rewrite drop_nil, take_nil.
  - replace ((Z.of_nat (S p) - 1) * 10)%Z with (Z.of_nat (p * 10)) by lia.
    destruct (Z.ltb_spec (Z.of_nat (p * 10)) 0); [lia|].
    destruct (Z.ltb_spec (Z.min (Z.of_nat (p * 10) + 10) (Z.of_nat (length l))) 0); [lia|].
    destruct (decide (p * 10 ≤ length l)%nat) as [Hin|Hout].
    + rewrite (Z.min_l (Z.of_nat (p * 10))) by lia. rewrite Nat2Z.id.
      destruct (decide (p * 10 + 10 ≤ length l)%nat) as [Hfull|Hlast].
      * f_equal. lia.
      * rewrite !take_ge; [done| |]; rewrite length_drop; lia.
    + rewrite (drop_ge l (p * 10)) by lia. rewrite take_nil.
      replace (Z.to_nat _) with 0%nat by lia. done.
Qed.

(** X13. The pages of [renderQuestions] split the filtered questions:
    shown one after the other, the pages 1 to [totalPages] give back the
    list, every question once and in order.  Every page has ten questions
    but the last, which has from one to ten. *)
Theorem X13_pages_partition {A} (filteredQuestions : list A) :
  concat (map (λ p, ExamViewer.renderQuestions filteredQuestions (Z.of_nat p))
              (seq 1 (Z.to_nat (ExamViewer.totalPages filteredQuestions))))
  = filteredQuestions
  ∧ ∀ p : Z, (1 ≤ p ≤ ExamViewer.totalPages filteredQuestions)%Z →
      (1 ≤ length (ExamViewer.renderQuestions filteredQuestions p) ≤ 10)%nat
      ∧ ((p < ExamViewer.totalPages filteredQuestions)%Z →
         length (ExamViewer.renderQuestions filteredQuestions p) = 10%nat).
Proof.
  assert (Hpages : (Z.of_nat (length filteredQuestions)
                    ≤ ExamViewer.totalPages filteredQuestions * 10
                    < Z.of_nat (length filteredQuestions) + 10)%Z).
  { unfold ExamViewer.totalPages, ExamViewer.questionsPerPage.
    pose proof (Z.div_mod (Z.of_nat (length filteredQuestions) + 10 - 1) 10 ltac:(lia)).
    pose proof (Z.mod_pos_bound (Z.of_nat (length filteredQuestions) + 10 - 1) 10
                  ltac:(lia)).
    lia. }
  split.
  - rewrite <- seq_shift, map_map.
    rewrite (map_ext _ (λ i, take 10 (drop (i * 10) filteredQuestions)))
      by (intros p; apply renderQuestions_page).
    rewrite take_drop_pages. apply take_ge. lia.
  - intros p Hp. replace p with (Z.of_nat (S (Z.to_nat (p - 1)))) by lia.
    rewrite renderQuestions_page, length_take, length_drop. lia.
Qed.

Lemma elem_of_pagesFromTo (startPage endPage i : Z) :
  i ∈ ExamViewer.pagesFromTo startPage endPage ↔ (startPage ≤ i ≤ endPage)%Z.
Proof.
  unfold ExamViewer.pagesFromTo. rewrite list_elem_of_In, in_map_iff. split.
  - intros (k & <- & Hk). apply in_seq in Hk. lia.
  - intros Hi. exists (Z.to_nat (i - startPage)). split; [lia|]. apply in_seq. lia.
Qed.

(** X14. On a page from 1 to [totalPages], every button of
    [renderPagination] leads to a page from 1 to [totalPages] at most two
    pages away; the button marked active is the numbered button of the
    current page, which is there whenever there is more than one page.
    With one page or none there is no button. *)
Theorem X14_page_buttons {A} (filteredQuestions : list A) (currentPage : Z) :
  (1 ≤ currentPage ≤ ExamViewer.totalPages filteredQuestions)%Z →
  let buttons := ExamViewer.renderPagination filteredQuestions currentPage in
  (∀ b, b ∈ buttons →
     (1 ≤ ExamViewer.page b ≤ ExamViewer.totalPages filteredQuestions)%Z
     ∧ (currentPage - 2 ≤ ExamViewer.page b ≤ currentPage + 2)%Z
     ∧ (ExamViewer.active b = true
        ↔ ExamViewer.label b = ExamViewer.NumberedPage currentPage))
  ∧ ((1 < ExamViewer.totalPages filteredQuestions)%Z →
     {| ExamViewer.label := ExamViewer.NumberedPage currentPage;
        ExamViewer.page := currentPage; ExamViewer.active := true |} ∈ buttons)
  ∧ ((ExamViewer.totalPages filteredQuestions ≤ 1)%Z → buttons = []).
Proof.
  intros Hpage. unfold ExamViewer.renderPagination. simpl.
  set (pages := ExamViewer.totalPages filteredQuestions) in *.
  destruct (Z.leb_spec pages 1) as [Hone|Hmany].
  - split; [|split; [lia|done]]. intros b Hb. by apply elem_of_nil in Hb.
  - split; [|split; [|lia]].
    + intros b Hb. apply elem_of_app in Hb as [Hb|Hb]; [|apply elem_of_app in Hb as [Hb|Hb]].
      * destruct (Z.ltb_spec 1 currentPage); [|by apply elem_of_nil in Hb].
        apply list_elem_of_singleton in Hb as ->. simpl.
        repeat split; try lia; done.
      * apply list_elem_of_In, in_map_iff in Hb as (i & <- & Hi).
        apply list_elem_of_In, elem_of_pagesFromTo in Hi. simpl.
        repeat split; try lia.
        -- intros Hactive. apply Z.eqb_eq in Hactive. by subst.
        -- intros [= ->]. apply Z.eqb_refl.
      * destruct (Z.ltb_spec currentPage pages); [|by apply elem_of_nil in Hb].
        apply list_elem_of_singleton in Hb as ->. simpl.
        repeat split; try lia; done.
    + intros _. apply elem_of_app. right. apply elem_of_app. left.
      apply list_elem_of_In, in_map_iff. exists currentPage.
      split; [by rewrite Z.eqb_refl|].
      apply list_elem_of_In, elem_of_pagesFromTo. lia.
Qed.

(** Twenty-five questions, second page: the button of page 2 is active. *)
Lemma X14_page_buttons_witness :
  {| ExamViewer.label := ExamViewer.NumberedPage 2;
     ExamViewer.page := 2; ExamViewer.active := true |}
  ∈ ExamViewer.renderPagination (seq 0 25) 2.
Proof.
  refine (proj1 (proj2 (X14_page_buttons (seq 0 25) 2 _)) _).
  - vm_compute. split; discriminate.
  - vm_compute. reflexivity.
Defined.

(** ** Looking a question up and marking it explained *)

Lemma findInPreguntas_first (h : string) (ex : ExamViewer.Examen)
    (ps : list ExamViewer.Pregunta) :
  ExamViewer.findInPreguntas h ex ps
  = head (List.filter (knownAs h) (map (ExamViewer.withExamen ex) ps)).
Proof.
  induction ps as [|p ps IH]; [done|]. simpl. unfold knownAs at 1. simpl.
  by destruct (bool_decide _).
Qed.

Lemma head_app_filter {A} (l1 l2 : list A) :
  head (l1 ++ l2) = match head l1 with Some x => Some x | None => head l2 end.
Proof. by destruct l1. Qed.

Lemma findInExamenes_first (h : string) (examenes : list ExamViewer.Examen) :
  ExamViewer.findInExamenes h examenes
  = head (List.filter (knownAs h) (allQuestions examenes)).
Proof.
  unfold allQuestions. induction examenes as [|ex examenes IH]; [done|]. simpl.
  rewrite List.filter_app, head_app_filter, <- findInPreguntas_first, IH. done.
Qed.

Lemma findQuestionByHash_first (h : string) (v : ExamViewer.Viewer) :
  ExamViewer.findQuestionByHash h v
  = match ExamViewer.data v with
    | Some examenes => head (List.filter (knownAs h) (allQuestions examenes))
    | None => None
    end.
Proof.
  unfold ExamViewer.findQuestionByHash.
  destruct (ExamViewer.data v); [apply findInExamenes_first|done].
Qed.

Lemma findQuestionByHash_none (h : string) (v : ExamViewer.Viewer) :
  ExamViewer.findQuestionByHash h v = None
  ↔ ∀ examenes q, ExamViewer.data v = Some examenes → q ∈ allQuestions examenes →
      ExamViewer.preguntaHash (ExamViewer.pregunta q) ≠ Some h.
Proof.
  rewrite findQuestionByHash_first.
  destruct (ExamViewer.data v) as [examenes|]; [|done].
  split.
  - intros Hnone examenes' q [= <-] Hq Hknown.
    assert (Hin : q ∈ List.filter (knownAs h) (allQuestions examenes)).
    { apply elem_of_List_filter. split; [done|]. by apply bool_decide_eq_true_2. }
    destruct (List.filter _ _); [by apply elem_of_nil in Hin|done].
  - intros Hnone. destruct (List.filter _ _) as [|q rest] eqn:Hfilter; [done|].
    assert (Hin : q ∈ List.filter (knownAs h) (allQuestions examenes))
      by (rewrite Hfilter; by apply elem_of_cons; left).
    apply elem_of_List_filter in Hin as [Hin Hknown].
    apply bool_decide_eq_true in Hknown. by destruct (Hnone examenes q eq_refl Hin).
Qed.

(** X15. [findQuestionByHash] returns the first question, in the order of
    the exams and of their questions, that is known under the hash, and
    null when there is none or no data is loaded; [generateExplanation]
    sends a request to the generator exactly when there is one, and sends
    that question. *)
Theorem X15_find_first (h : string) (v : ExamViewer.Viewer) :
  ExamViewer.findQuestionByHash h v
  = match ExamViewer.data v with
    | Some examenes => head (List.filter (knownAs h) (allQuestions examenes))
    | None => None
    end
  ∧ (ExamViewer.findQuestionByHash h v = None
     ↔ ∀ examenes q, ExamViewer.data v = Some examenes → q ∈ allQuestions examenes →
         ExamViewer.preguntaHash (ExamViewer.pregunta q) ≠ Some h)
  ∧ ExamViewer.generatorCalls (ExamViewer.generateExplanation h v)
    = ExamViewer.generatorCalls v
      ++ option_list (ExamViewer.findQuestionByHash h v).
Proof.
  split; [apply findQuestionByHash_first|]. split; [apply findQuestionByHash_none|].
  unfold ExamViewer.generateExplanation.
  destruct (ExamViewer.findQuestionByHash h v); simpl; [done|].
  by rewrite app_nil_r.
Qed.

Lemma withHashExplicacion_twice (x : string) (p : ExamViewer.Pregunta) :
  ExamViewer.withHashExplicacion x (ExamViewer.withHashExplicacion x p)
  = ExamViewer.withHashExplicacion x p.
Proof. done. Qed.

Lemma withPreguntas_same (ex : ExamViewer.Examen) :
  ExamViewer.withPreguntas (ExamViewer.preguntas ex) ex = ex.
Proof. by destruct ex. Qed.

Lemma sameButExplanation_refl (x : string) (ps : list ExamViewer.Pregunta) :
  Forall2 (sameButExplanation x) ps ps.
Proof. induction ps; constructor; [by left|done]. Qed.

Lemma sameButExplanation_trans (x : string) (ps ps' ps'' : list ExamViewer.Pregunta) :
  Forall2 (sameButExplanation x) ps ps' → Forall2 (sameButExplanation x) ps' ps'' →
  Forall2 (sameButExplanation x) ps ps''.
Proof.
  intros H12. revert ps''. induction H12 as [|p p' ps ps' Hp _ IH]; intros ps'' H23.
  - by inversion H23.
  - inversion H23 as [|? p'' ? ps''0 Hp' Hrest]; subst. constructor; [|by apply IH].
    destruct Hp as [->| ->], Hp' as [->| ->]; try (by left); by right.
Qed.

Lemma sameExam_refl (x : string) (examenes : list ExamViewer.Examen) :
  Forall2 (sameExamButExplanation x) examenes examenes.
Proof.
  induction examenes as [|ex examenes IH]; constructor; [|done].
  exists (ExamViewer.preguntas ex). split; [by rewrite withPreguntas_same|].
  apply sameButExplanation_refl.
Qed.

Lemma sameExam_trans (x : string) (l l' l'' : list ExamViewer.Examen) :
  Forall2 (sameExamButExplanation x) l l' → Forall2 (sameExamButExplanation x) l' l'' →
  Forall2 (sameExamButExplanation x) l l''.
Proof.
  intros H12. revert l''. induction H12 as [|ex ex' l l' Hex _ IH]; intros l'' H23.
  - by inversion H23.
  - inversion H23 as [|? ex'' ? l''0 Hex' Hrest]; subst. constructor; [|by apply IH].
    destruct Hex as (ps' & -> & Hps), Hex' as (ps'' & -> & Hps'). exists ps''.
    split; [done|]. by apply (sameButExplanation_trans x _ ps').
Qed.

Lemma markFirst_same (test : ExamViewer.Pregunta → bool) (x : string)
    (ps : list ExamViewer.Pregunta) :
  Forall2 (sameButExplanation x) ps (ExamViewer.markFirst test x ps).
Proof.
  induction ps as [|p ps IH]; simpl; [constructor|].
  destruct (test p); constructor; try (by left); try done.
  - by right.
  - apply sameButExplanation_refl.
Qed.

Lemma markOccurrence_same (x : string) (examenes : list ExamViewer.Examen)
    (otra : ExamViewer.OtraAparicion) :
  Forall2 (sameExamButExplanation x) examenes (ExamViewer.markOccurrence x examenes otra).
Proof.
  unfold ExamViewer.markOccurrence.
  induction examenes as [|ex examenes IH]; simpl; constructor; [|done].
  eexists. split; [done|]. apply markFirst_same.
Qed.

Lemma markOccurrences_same (x : string) (otras : list ExamViewer.OtraAparicion) :
  ∀ examenes,
  Forall2 (sameExamButExplanation x) examenes
          (fold_left (ExamViewer.markOccurrence x) otras examenes).
Proof.
  induction otras as [|otra otras IH]; intros examenes; simpl; [apply sameExam_refl|].
  eapply sameExam_trans; [apply markOccurrence_same|apply IH].
Qed.

Lemma assignInPreguntas_same (h x : string) (ps : list ExamViewer.Pregunta) :
  match ExamViewer.assignInPreguntas h x ps with
  | Some (ps', found) =>
      Forall2 (sameButExplanation x) ps ps' ∧ found ∈ ps'
      ∧ ExamViewer.hash_pregunta found = Some h
      ∧ ExamViewer.hash_explicacion found = Some x
  | None => ∀ p, p ∈ ps → ExamViewer.hash_pregunta p ≠ Some h
  end.
Proof.
  induction ps as [|p ps IH]; simpl; [by intros p Hp; apply elem_of_nil in Hp|].
  destruct (bool_decide_reflect (ExamViewer.hash_pregunta p = Some h)) as [Hp|Hp].
  - split; [|split; [by apply elem_of_cons; left|done]].
    constructor; [by right|apply sameButExplanation_refl].
  - destruct (ExamViewer.assignInPreguntas h x ps) as [[ps' found]|].
    + destruct IH as (Hsame & Hin & Hfound). split; [|split; [by apply elem_of_cons; right|done]].
      constructor; [by left|done].
    + intros p' Hp'. apply elem_of_cons in Hp' as [->|Hp']; [done|by apply IH].
Qed.

Lemma assignInExamenes_same (h x : string) (examenes : list ExamViewer.Examen) :
  match ExamViewer.assignInExamenes h x examenes with
  | Some (examenes', found) =>
      Forall2 (sameExamButExplanation x) examenes examenes'
      ∧ (∃ ex', ex' ∈ examenes' ∧ found ∈ ExamViewer.preguntas ex')
      ∧ ExamViewer.hash_pregunta found = Some h
      ∧ ExamViewer.hash_explicacion found = Some x
  | None => ∀ ex p, ex ∈ examenes → p ∈ ExamViewer.preguntas ex →
                    ExamViewer.hash_pregunta p ≠ Some h
  end.
Proof.
  induction examenes as [|ex examenes IH]; simpl;
    [by intros ex p Hex; apply elem_of_nil in Hex|].
  pose proof (assignInPreguntas_same h x (ExamViewer.preguntas ex)) as Hps.
  destruct (ExamViewer.assignInPreguntas h x (ExamViewer.preguntas ex))
    as [[ps' found]|].
  - destruct Hps as (Hsame & Hin & Hfound). split; [|split; [|done]].
    + constructor; [by exists ps'|apply sameExam_refl].
    + eexists. split; [by apply elem_of_cons; left|done].
  - destruct (ExamViewer.assignInExamenes h x examenes) as [[examenes' found]|].
    + destruct IH as (Hsame & (ex' & Hex' & Hin) & Hfound). split; [|split; [|done]].
      * constructor; [|done]. exists (ExamViewer.preguntas ex).
        split; [by rewrite withPreguntas_same|apply sameButExplanation_refl].
      * exists ex'. split; [by apply elem_of_cons; right|done].
    + intros ex' p Hex' Hp. apply elem_of_cons in Hex' as [->|Hex'];
        [by apply Hps|by apply (IH ex')].
Qed.

(** A marked question stays marked in a list that differs by marks only. *)
Lemma marked_kept (h x : string) (examenes out : list ExamViewer.Examen) :
  Forall2 (sameExamButExplanation x) examenes out →
  (∃ ex p, ex ∈ examenes ∧ p ∈ ExamViewer.preguntas ex
           ∧ ExamViewer.hash_pregunta p = Some h
           ∧ ExamViewer.hash_explicacion p = Some x) →
  ∃ ex' p', ex' ∈ out ∧ p' ∈ ExamViewer.preguntas ex'
            ∧ ExamViewer.hash_pregunta p' = Some h
            ∧ ExamViewer.hash_explicacion p' = Some x.
Proof.
  intros Hsame (ex & p & Hex & Hp & Hh & Hx).
  apply list_elem_of_lookup in Hex as [j Hj].
  destruct (Forall2_lookup_l _ _ _ _ _ Hsame Hj) as (ex' & Hj' & ps' & -> & Hps).
  apply list_elem_of_lookup in Hp as [i Hi].
  destruct (Forall2_lookup_l _ _ _ _ _ Hps Hi) as (p' & Hi' & Hp').
  exists (ExamViewer.withPreguntas ps' ex), p'.
  split; [by apply list_elem_of_lookup; exists j|].
  split; [by apply list_elem_of_lookup; exists i|].
  by destruct Hp' as [->| ->].
Qed.

(** X16. [assignExplanationToQuestionAndDuplicates] changes nothing but
    explanation hashes: the exams, their order, their questions and every
    other property of a question are kept, and an explanation hash that
    changes becomes the given one.  When some question has the hash, a
    question with that hash carries the explanation hash afterwards, and
    after [saveExplanation] it is found under the hash with the explanation
    in the cache. *)
Theorem X16_assign_marks (h x : string) (examenes : list ExamViewer.Examen) :
  let out := ExamViewer.assignExplanationToQuestionAndDuplicates h x examenes in
  Forall2 (sameExamButExplanation x) examenes out
  ∧ ((∃ ex p, ex ∈ examenes ∧ p ∈ ExamViewer.preguntas ex
              ∧ ExamViewer.hash_pregunta p = Some h) →
     (∃ ex' p', ex' ∈ out ∧ p' ∈ ExamViewer.preguntas ex'
                ∧ ExamViewer.hash_pregunta p' = Some h
                ∧ ExamViewer.hash_explicacion p' = Some x)
     ∧ ∀ v e, ExamViewer.data v = Some examenes →
         is_Some (ExamViewer.findQuestionByHash h (ExamViewer.saveExplanation h e v))
         ∧ ExamViewer.explicaciones (ExamViewer.saveExplanation h e v) !! h = Some e).
Proof.
  assert (Hmarks : ∀ x',
    let out := ExamViewer.assignExplanationToQuestionAndDuplicates h x' examenes in
    Forall2 (sameExamButExplanation x') examenes out
    ∧ ((∃ ex p, ex ∈ examenes ∧ p ∈ ExamViewer.preguntas ex
                ∧ ExamViewer.hash_pregunta p = Some h) →
       ∃ ex' p', ex' ∈ out ∧ p' ∈ ExamViewer.preguntas ex'
                 ∧ ExamViewer.hash_pregunta p' = Some h
                 ∧ ExamViewer.hash_explicacion p' = Some x')).
  { intros x'. unfold ExamViewer.assignExplanationToQuestionAndDuplicates.
    pose proof (assignInExamenes_same h x' examenes) as Hfirst.
    destruct (ExamViewer.assignInExamenes h x' examenes) as [[examenes' found]|].
    - destruct Hfirst as (Hsame & (ex' & Hex' & Hin) & Hh & Hx).
      assert (Hmarked : ∃ ex p, ex ∈ examenes' ∧ p ∈ ExamViewer.preguntas ex
                ∧ ExamViewer.hash_pregunta p = Some h
                ∧ ExamViewer.hash_explicacion p = Some x') by (by exists ex', found).
      destruct (ExamViewer.es_duplicada found); [|by split].
      destruct (ExamViewer.otras_apariciones found) as [otras|]; [|by split].
      pose proof (markOccurrences_same x' otras examenes') as Hdup. split.
      + by apply (sameExam_trans x' _ examenes').
      + intros _. by apply (marked_kept h x' examenes').
    - split; [apply sameExam_refl|].
      intros (ex & p & Hex & Hp & Hh). by destruct (Hfirst ex p Hex Hp). }
  split; [apply Hmarks|]. intros Hsome. split; [by apply Hmarks|].
  intros v e Hdata. unfold ExamViewer.saveExplanation. simpl. rewrite Hdata. simpl.
  split; [|apply lookup_insert_eq].
  destruct (proj2 (Hmarks h) Hsome) as (ex' & p' & Hex' & Hp' & Hh & Hx).
  destruct (ExamViewer.findQuestionByHash h _) as [q|] eqn:Hfind; [by eexists|].
  exfalso.
  apply (proj1 (findQuestionByHash_none h _) Hfind _ (ExamViewer.withExamen ex' p') eq_refl).
  - unfold allQuestions. apply list_elem_of_In, in_concat.
    exists (map (ExamViewer.withExamen ex') (ExamViewer.preguntas ex')).
    split; apply in_map_iff; eexists; (split; [reflexivity|]);
      by apply list_elem_of_In.
  - simpl. unfold ExamViewer.preguntaHash. rewrite Hx.
    unfold truthy. by destruct (String.eqb h "").
Qed.

(** ** Deleting explanations *)

(** X17. A confirmed [deleteExplanation] removes the explanation of the
    hash and of no other: the button of a question with the hash asks for a
    generation again, and the cache of before a [saveExplanation] of a new
    hash is back.  When the confirmation is declined nothing changes, yet
    [regenerateExplanation] goes on to call the generator for the question
    all the same. *)
Theorem X17_delete_explanation (h : string) (v : ExamViewer.Viewer) :
  (∀ q, ExamViewer.getExplanationHash (ExamViewer.pregunta q) = Some h →
        ExamViewer.renderExplanationButton q (ExamViewer.deleteExplanation true h v)
        = ExamViewer.GenerateButton h)
  ∧ (∀ h', h' ≠ h →
       ExamViewer.explicaciones (ExamViewer.deleteExplanation true h v) !! h'
       = ExamViewer.explicaciones v !! h')
  ∧ (∀ e, ExamViewer.explicaciones v !! h = None →
       ExamViewer.explicaciones
         (ExamViewer.deleteExplanation true h (ExamViewer.saveExplanation h e v))
       = ExamViewer.explicaciones v)
  ∧ ExamViewer.deleteExplanation false h v = v
  ∧ (∀ confirmed q, ExamViewer.findQuestionByHash h v = Some q →
       let '(v', call) := ExamViewer.regenerateExplanation confirmed h v in
       ExamViewer.generatorCalls (ExamViewer.step v' call)
       = ExamViewer.generatorCalls v ++ [q]).
Proof.
  split; [|split; [|split; [|split]]].
  - intros q Hq. unfold ExamViewer.renderExplanationButton, ExamViewer.checkExplanationExists.
    rewrite Hq. unfold ExamViewer.getExplanationHash in Hq.
    rewrite (truthy_Some _ _ Hq). simpl. rewrite lookup_delete_eq.
    by rewrite bool_decide_eq_false_2 by (by intros [? ?]).
  - intros h' Hne. simpl. by apply lookup_delete_ne.
  - intros e Hnew. unfold ExamViewer.saveExplanation. simpl.
    destruct (ExamViewer.data v); simpl; by rewrite delete_insert_id.
  - done.
  - intros confirmed q Hfound. simpl.
    assert (Hsame : ExamViewer.findQuestionByHash h
                      (ExamViewer.deleteExplanation confirmed h v) = Some q)
      by (by destruct confirmed).
    unfold ExamViewer.generateExplanation. rewrite Hsame. by destruct confirmed.
Qed.

(** ** The normal form of a text *)

Section NormalForm.
Import ExamViewer.

Lemma replaced_char_clean (c : ascii) :
  isUpper c = false →
  let c' := if isWord c || isSpace c then c else " "%char in
  isNormalChar c' || isSpace c' = true.
Proof.
  destruct c as [[] [] [] [] [] [] [] []]; vm_compute; intros H;
    try discriminate H; reflexivity.
Qed.

Lemma lowerChar_lower (c : ascii) : isUpper (lowerChar c) = false.
Proof. destruct c as [[] [] [] [] [] [] [] []]; reflexivity. Qed.

(** [lowerAscii] leaves no letter A to Z. *)
Lemma lowerAscii_lowersUpper : lowersUpper lowerAscii.
Proof.
  intros s. induction s as [|c s IH]; [done|]. cbn [lowerAscii noUpper].
  by rewrite lowerChar_lower, IH.
Qed.

Lemma normalChar_facts (c : ascii) :
  isNormalChar c = true →
  isSpace c = false ∧ lowerChar c = c ∧ isWord c = true ∧ Ascii.eqb c " " = false.
Proof.
  destruct c as [[] [] [] [] [] [] [] []]; vm_compute; intros H;
    try discriminate H; done.
Qed.

Lemma notSpace_facts (c : ascii) : isSpace c = false → Ascii.eqb c " " = false.
Proof.
  destruct c as [[] [] [] [] [] [] [] []]; vm_compute; intros H;
    try discriminate H; done.
Qed.

Lemma replacePunctuation_clean (s : string) :
  noUpper s = true → allClean (replacePunctuation s) = true.
Proof.
  induction s as [|c s IH]; [done|]. cbn [noUpper].
  intros [Hc Hs]%andb_true_iff. apply negb_true_iff in Hc.
  cbn [replacePunctuation allClean].
  by rewrite (replaced_char_clean c Hc), IH.
Qed.

Lemma collapseFrom_loose (s : string) : ∀ inRun,
  allClean s = true → loose inRun (collapseFrom inRun s) = true.
Proof.
  induction s as [|c s IH]; intros inRun Hclean; [done|].
  cbn in Hclean. apply andb_true_iff in Hclean as [Hc Hs]. cbn.
  destruct (isSpace c) eqn:Hspace.
  - destruct inRun; [by apply IH|]. cbn. by apply IH.
  - rewrite orb_false_r in Hc. cbn. rewrite (notSpace_facts c Hspace), Hc. by apply IH.
Qed.

Lemma loose_trimStart (s : string) (afterSpace : bool) :
  loose afterSpace s = true → loose true (trimStart s) = true.
Proof.
  assert (Hfixed : ∀ r, loose true r = true → trimStart r = r).
  { intros [|c r]; [done|]. cbn. destruct (Ascii.eqb c " "); [done|].
    intros Hr. apply andb_true_iff in Hr as [Hc _].
    by rewrite (proj1 (normalChar_facts c Hc)). }
  destruct s as [|c s]; [done|]. cbn.
  destruct (Ascii.eqb_spec c " ") as [->|Hne].
  - intros Hs. apply andb_true_iff in Hs as [_ Hs]. cbn. by rewrite (Hfixed s Hs).
  - intros Hs. pose proof Hs as Hs'. apply andb_true_iff in Hs' as [Hc _].
    rewrite (proj1 (normalChar_facts c Hc)). cbn.
    destruct (Ascii.eqb_spec c " "); [done|]. exact Hs.
Qed.

Lemma loose_trimEnd (s : string) : ∀ afterSpace,
  loose afterSpace s = true →
  trimEnd s = "" ∨ spaced afterSpace (trimEnd s) = true.
Proof.
  induction s as [|c s IH]; intros afterSpace; [by left|]. cbn.
  destruct (Ascii.eqb_spec c " ") as [->|Hne].
  - intros Hs. apply andb_true_iff in Hs as [Hafter Hs].
    destruct (IH true Hs) as [->|Hkept]; [by left|].
    destruct (trimEnd s) as [|c' kept] eqn:Htrim; [by left|]. right.
    change (negb afterSpace && spaced true (String c' kept) = true).
    by rewrite Hafter, Hkept.
  - intros Hs. apply andb_true_iff in Hs as [Hc Hs]. right.
    destruct (normalChar_facts c Hc) as (Hspace & _ & _ & Heqb).
    assert (Hkept : spaced false (trimEnd s) = true)
      by (by destruct (IH false Hs) as [->|]).
    destruct (trimEnd s) as [|c' kept].
    + rewrite Hspace. cbn. by rewrite Heqb, Hc.
    + cbn [spaced] in *. by rewrite Heqb, Hc, Hkept.
Qed.

Lemma normalized_normalForm (toLowerCase : string → string) (t : string) :
  lowersUpper toLowerCase → normalForm (normalized toLowerCase t).
Proof.
  intros Hupper. unfold normalized, prepared, trim, collapseWhitespace.
  pose proof (collapseFrom_loose _ false
                (replacePunctuation_clean _ (Hupper t))) as Hloose.
  apply loose_trimStart in Hloose. by apply loose_trimEnd in Hloose.
Qed.

Lemma normalChar_ascii (c : ascii) : isNormalChar c = true → isAscii c = true.
Proof.
  destruct c as [[] [] [] [] [] [] [] []]; vm_compute; intros H;
    try discriminate H; done.
Qed.

Lemma spaced_ascii (s : string) : ∀ afterSpace,
  spaced afterSpace s = true → allAscii s = true.
Proof.
  induction s as [|c s IH]; intros afterSpace; [done|]. cbn [spaced allAscii].
  destruct (Ascii.eqb_spec c " ") as [->|Hne]; intros Hs;
    apply andb_true_iff in Hs as [Hc Hs].
  - by rewrite (IH _ Hs).
  - by rewrite (normalChar_ascii c Hc), (IH _ Hs).
Qed.

Lemma spaced_prepared (s : string) : ∀ afterSpace,
  spaced afterSpace s = true → prepared lowerAscii s = s.
Proof.
  unfold prepared. induction s as [|c s IH]; intros afterSpace; [done|]. cbn.
  destruct (Ascii.eqb_spec c " ") as [->|Hne]; intros Hs;
    apply andb_true_iff in Hs as [Hc Hs].
  - by rewrite (IH _ Hs).
  - destruct (normalChar_facts c Hc) as (_ & -> & -> & _). by rewrite (IH _ Hs).
Qed.

Lemma spaced_collapseFrom (s : string) : ∀ afterSpace,
  spaced afterSpace s = true → collapseFrom afterSpace s = s.
Proof.
  induction s as [|c s IH]; intros afterSpace; [done|]. cbn.
  destruct (Ascii.eqb_spec c " ") as [->|Hne]; intros Hs;
    apply andb_true_iff in Hs as [Hc Hs].
  - destruct afterSpace; [done|]. cbn. by rewrite (IH _ Hs).
  - rewrite (proj1 (normalChar_facts c Hc)). by rewrite (IH _ Hs).
Qed.

Lemma spaced_trimEnd (s : string) : ∀ afterSpace,
  spaced afterSpace s = true → trimEnd s = s.
Proof.
  induction s as [|c s IH]; intros afterSpace; [done|]. cbn.
  destruct (Ascii.eqb_spec c " ") as [->|Hne]; intros Hs;
    apply andb_true_iff in Hs as [Hc Hs].
  - rewrite (IH _ Hs). by destruct s.
  - rewrite (IH _ Hs). destruct s; [|done].
    by rewrite (proj1 (normalChar_facts c Hc)).
Qed.

Lemma spaced_normalized (toLowerCase : string → string) (s : string) :
  lowersAscii toLowerCase → spaced true s = true → normalized toLowerCase s = s.
Proof.
  intros Hlowers Hs. unfold normalized, trim, collapseWhitespace.
  rewrite (prepared_ascii toLowerCase Hlowers) by (by apply (spaced_ascii s true)).
  rewrite (spaced_prepared s true Hs).
  destruct s as [|c s]; [done|]. pose proof Hs as Hs'. cbn in Hs'.
  destruct (Ascii.eqb c " "); [done|]. apply andb_true_iff in Hs' as [Hc Hrest].
  destruct (normalChar_facts c Hc) as (Hspace & _).
  cbn [collapseFrom]. rewrite Hspace, (spaced_collapseFrom s false Hrest).
  cbn [trimStart]. rewrite Hspace. by apply (spaced_trimEnd _ true).
Qed.

(** X18. Whatever [toLowerCase] does outside ASCII, as long as it has the
    two facts of [lowersAscii] and leaves no letter A to Z,
    [normalizarTexto] returns a text in normal form: lower-case letters a to
    z, digits and underscores in words, one space between two words and
    none around.  The texts in normal form are exactly the texts it leaves
    as they are, so that normalizing twice is normalizing once. *)
Theorem X18_normal_form (toLowerCase : string → string) (texto : option string) :
  lowersAscii toLowerCase →
  lowersUpper toLowerCase →
  normalForm (normalizarTexto toLowerCase texto)
  ∧ normalizarTexto toLowerCase (Some (normalizarTexto toLowerCase texto))
    = normalizarTexto toLowerCase texto
  ∧ ∀ s, normalForm s ↔ normalizarTexto toLowerCase (Some s) = s.
Proof.
  intros Hlowers Hupper.
  assert (Hform : ∀ t, normalForm (normalizarTexto toLowerCase t)).
  { intros t. destruct (normalizarTexto_normalized toLowerCase t) as [->|[_ ->]].
    - by apply normalized_normalForm.
    - by left. }
  assert (Hfixed : ∀ s, normalForm s → normalizarTexto toLowerCase (Some s) = s).
  { intros s [->|Hs]; [done|]. rewrite normalizarTexto_default by done.
    by apply spaced_normalized. }
  split; [apply Hform|]. split; [apply Hfixed, Hform|].
  intros s. split; [apply Hfixed|]. intros <-. apply Hform.
Qed.

End NormalForm.

(** On a text of ASCII characters: the normal form of a greeting. *)
Lemma X18_normal_form_witness :
  normalForm (ExamViewer.normalizarTexto ExamViewer.lowerAscii
                (Some "  Hola,   MUNDO!! que_tal? "))
  ∧ ExamViewer.normalizarTexto ExamViewer.lowerAscii (Some "hola mundo que_tal")
    = "hola mundo que_tal"%string.
Proof.
  destruct (X18_normal_form ExamViewer.lowerAscii (Some "  Hola,   MUNDO!! que_tal? ")
              lowerAscii_lowersAscii lowerAscii_lowersUpper) as (Hform & Hidem & _).
  split; [exact Hform|exact Hidem].
Defined.

(** ** The format of a computed hash *)

Lemma of_pos_hex (n : nat) : ∀ (p : positive) (rest : string),
  (Z.pos p < 16 ^ Z.of_nat n)%Z → allHex rest = true →
  (String.length (HexString.Raw.of_pos p rest) ≤ n + String.length rest)%nat
  ∧ allHex (HexString.Raw.of_pos p rest) = true.
Proof.
  induction n as [|n IH]; intros p rest Hp Hrest; [simpl in Hp; lia|].
  rewrite Nat2Z.inj_succ, Z.pow_succ_r in Hp by lia.
  set (m := (16 ^ Z.of_nat n)%Z) in *.
  assert (Hstep : ∀ c q, isHexDigit c = true → (Z.pos q < m)%Z →
    (String.length (HexString.Raw.of_pos q (String c rest)) ≤ S n + String.length rest)%nat
    ∧ allHex (HexString.Raw.of_pos q (String c rest)) = true).
  { intros c q Hc Hq. destruct (IH q (String c rest) Hq) as [Hlen Hhex].
    - cbn [allHex]. by rewrite Hc, Hrest.
    - split; [|done]. cbn [String.length] in Hlen. lia. }
  assert (Hone : ∀ c, isHexDigit c = true →
    (String.length (String c rest) ≤ S n + String.length rest)%nat
    ∧ allHex (String c rest) = true).
  { intros c Hc. split; [cbn [String.length]; lia|]. cbn [allHex]. by rewrite Hc, Hrest. }
  do 4 (try destruct p as [p|p|]);
    cbn [HexString.Raw.of_pos];
    first [apply Hone; reflexivity | apply Hstep; [reflexivity|lia]].
Qed.

Lemma toInt32_range (z : Z) : (- 2 ^ 31 ≤ ExamViewer.toInt32 z < 2 ^ 31)%Z.
Proof.
  unfold ExamViewer.toInt32.
  pose proof (Z.mod_pos_bound (z + 2 ^ 31) (2 ^ 32) ltac:(lia)). lia.
Qed.

Lemma hashLoop_range (s : string) : ∀ hash,
  (- 2 ^ 31 ≤ hash < 2 ^ 31)%Z → (- 2 ^ 31 ≤ ExamViewer.hashLoop hash s < 2 ^ 31)%Z.
Proof.
  induction s as [|c s IH]; intros hash Hhash; [done|]. cbn [ExamViewer.hashLoop].
  apply IH, toInt32_range.
Qed.

Lemma repeatChar_app (c : ascii) (n m : nat) :
  ExamViewer.repeatChar c (n + m)
  = (ExamViewer.repeatChar c n ++ ExamViewer.repeatChar c m)%string.
Proof. induction n as [|n IH]; [done|]. simpl. by rewrite IH, sapp_cons. Qed.

Lemma length_sapp (a b : string) :
  String.length (a ++ b)%string = (String.length a + String.length b)%nat.
Proof. induction a as [|c a IH]; [done|]. rewrite sapp_cons. simpl. by rewrite IH. Qed.

Lemma length_repeatChar (c : ascii) (n : nat) :
  String.length (ExamViewer.repeatChar c n) = n.
Proof. induction n as [|n IH]; [done|]. simpl. by rewrite IH. Qed.

Lemma allHex_app (a b : string) : allHex (a ++ b)%string = allHex a && allHex b.
Proof.
  induction a as [|c a IH]; [done|]. rewrite sapp_cons. simpl.
  by rewrite IH, andb_assoc.
Qed.

Lemma allHex_zeros (n : nat) : allHex (ExamViewer.repeatChar "0" n) = true.
Proof. induction n as [|n IH]; [done|]. simpl. by rewrite IH. Qed.

(** X19. For a question without a stored hash, the hash
    [calculateQuestionHashSync] computes is sixteen lower-case hexadecimal
    digits of which the first eight are zeros: it carries 32 bits.  This
    holds whatever [toLowerCase] is. *)
Theorem X19_hash_format (toLowerCase : string → string) (p : ExamViewer.Pregunta) :
  truthy (ExamViewer.hash_pregunta p) = None →
  ∃ digits, ExamViewer.calculateQuestionHashSync toLowerCase p
            = ("00000000" ++ digits)%string
            ∧ String.length digits = 8%nat ∧ allHex digits = true.
Proof.
  intros Hstored. unfold ExamViewer.calculateQuestionHashSync. rewrite Hstored.
  pose proof (hashLoop_range (ExamViewer.contenido toLowerCase p) 0 ltac:(lia))
    as Hrange.
  set (hash := ExamViewer.hashLoop 0 (ExamViewer.contenido toLowerCase p)) in *.
  assert (Hhex : (String.length (ExamViewer.toString16 (Z.abs hash)) ≤ 8)%nat
                 ∧ allHex (ExamViewer.toString16 (Z.abs hash)) = true).
  { unfold ExamViewer.toString16. destruct (Z.abs hash) as [|q|q] eqn:Habs.
    - split; [simpl; lia|done].
    - destruct (of_pos_hex 8 q "" ltac:(simpl; lia) eq_refl) as [Hlen Hall].
      split; [simpl in Hlen; lia|done].
    - split; [simpl; lia|done]. }
  destruct Hhex as [Hlen Hall]. unfold ExamViewer.padStart16.
  set (s := ExamViewer.toString16 (Z.abs hash)) in *.
  replace (16 - String.length s)%nat with (8 + (8 - String.length s))%nat by lia.
  rewrite repeatChar_app, sapp_assoc.
  exists (ExamViewer.repeatChar "0" (8 - String.length s) ++ s)%string.
  split; [done|]. split.
  - rewrite length_sapp, length_repeatChar. lia.
  - by rewrite allHex_app, allHex_zeros, Hall.
Qed.

(** The hash computed for the question [babor], which stores none. *)
Lemma X19_hash_format_witness :
  ∃ digits, ExamViewer.calculateQuestionHashSync ExamViewer.lowerAscii babor
            = ("00000000" ++ digits)%string
            ∧ String.length digits = 8%nat ∧ allHex digits = true.
Proof. exact (X19_hash_format ExamViewer.lowerAscii babor eq_refl). Defined.

(** ** When two questions have the same content *)

(** The first [replace] leaves no vertical bar, and the steps after it
    bring none in. *)
Lemma replaced_char_not_bar (c : ascii) :
  Ascii.eqb (if ExamViewer.isWord c || ExamViewer.isSpace c then c else " "%char) "|"
  = false.
Proof. destruct c as [[] [] [] [] [] [] [] []]; reflexivity. Qed.

Lemma replacePunctuation_barFree (s : string) :
  barFree (ExamViewer.replacePunctuation s) = true.
Proof.
  induction s as [|c s IH]; [done|].
  cbn [ExamViewer.replacePunctuation barFree].
  by rewrite replaced_char_not_bar, IH.
Qed.

Lemma collapseFrom_barFree (s : string) : ∀ inRun,
  barFree s = true → barFree (ExamViewer.collapseFrom inRun s) = true.
Proof.
  induction s as [|c s IH]; intros inRun; [done|].
  cbn [barFree ExamViewer.collapseFrom]. intros [Hc Hs]%andb_true_iff.
  destruct (ExamViewer.isSpace c); [destruct inRun|]; cbn [barFree];
    rewrite ?Hc, ?IH; done.
Qed.

Lemma trimStart_barFree (s : string) :
  barFree s = true → barFree (ExamViewer.trimStart s) = true.
Proof.
  induction s as [|c s IH]; [done|]. intros Hs. cbn [ExamViewer.trimStart].
  destruct (ExamViewer.isSpace c); [|exact Hs].
  cbn [barFree] in Hs. apply andb_true_iff in Hs as [_ Hs]. by apply IH.
Qed.

Lemma trimEnd_barFree (s : string) :
  barFree s = true → barFree (ExamViewer.trimEnd s) = true.
Proof.
  induction s as [|c s IH]; [done|].
  cbn [barFree ExamViewer.trimEnd]. intros [Hc Hs]%andb_true_iff.
  specialize (IH Hs). destruct (ExamViewer.trimEnd s) as [|c' kept].
  - destruct (ExamViewer.isSpace c); [done|]. cbn [barFree]. by rewrite Hc.
  - cbn [barFree] in *. by rewrite Hc, IH.
Qed.

Lemma barFree_no_bar (a b x : string) :
  barFree x = true → x ≠ (a ++ "|" ++ b)%string.
Proof.
  revert x. induction a as [|c a IH]; intros x Hx Heq.
  - rewrite sapp_nil_l in Heq. subst x. done.
  - rewrite sapp_cons in Heq. subst x. cbn in Hx.
    apply andb_true_iff in Hx as [_ Hx]. by apply (IH _ Hx).
Qed.

Lemma split_bar (a a' b b' : string) :
  barFree a = true → barFree a' = true →
  (a ++ "|" ++ b)%string = (a' ++ "|" ++ b')%string → a = a' ∧ b = b'.
Proof.
  revert a'. induction a as [|c a IH]; intros [|c' a'] Ha Ha' Heq.
  - rewrite !sapp_nil_l in Heq. by injection Heq.
  - rewrite sapp_nil_l, !sapp_cons in Heq. injection Heq as <- _. done.
  - rewrite sapp_nil_l, !sapp_cons in Heq. injection Heq as -> _. done.
  - rewrite !sapp_cons in Heq. injection Heq as <- Heq. cbn in Ha, Ha'.
    apply andb_true_iff in Ha as [_ Ha]. apply andb_true_iff in Ha' as [_ Ha'].
    destruct (IH a' Ha Ha' Heq) as [-> ->]. done.
Qed.

Lemma concat_bar_cons (x y : string) (l : list string) :
  String.concat "|" (x :: y :: l) = (x ++ "|" ++ String.concat "|" (y :: l))%string.
Proof. reflexivity. Qed.

Lemma concat_bar_inj (l : list string) : ∀ l',
  Forall (λ t, barFree t = true ∧ t ≠ "") l →
  Forall (λ t, barFree t = true ∧ t ≠ "") l' →
  String.concat "|" l = String.concat "|" l' → l = l'.
Proof.
  induction l as [|x l IH]; intros l' Hl Hl' Heq.
  - destruct l' as [|x' [|y' l']]; [done| |].
    + apply Forall_cons in Hl' as [[_ Hne] _]. simpl in Heq. by subst.
    + apply Forall_cons in Hl' as [[_ Hne] _]. rewrite concat_bar_cons in Heq.
      destruct x'; [done|]. by rewrite sapp_cons in Heq.
  - apply Forall_cons in Hl as [[Hx Hne] Hl].
    destruct l' as [|x' l'].
    + destruct l as [|y l]; [simpl in Heq; by subst|].
      rewrite concat_bar_cons in Heq. destruct x; [done|]. by rewrite sapp_cons in Heq.
    + apply Forall_cons in Hl' as [[Hx' Hne'] Hl'].
      destruct l as [|y l], l' as [|y' l'].
      * simpl in Heq. by subst.
      * rewrite concat_bar_cons in Heq. simpl in Heq.
        by destruct (barFree_no_bar x' (String.concat "|" (y' :: l')) x Hx).
      * rewrite concat_bar_cons in Heq. simpl in Heq.
        by destruct (barFree_no_bar x (String.concat "|" (y :: l)) x' Hx').
      * rewrite !concat_bar_cons in Heq.
        destruct (split_bar _ _ _ _ Hx Hx' Heq) as [-> Hrest].
        f_equal. by apply IH.
Qed.

Section SameContent.

Variable toLowerCase : string → string.

Lemma normalizarTexto_barFree (texto : option string) :
  barFree (ExamViewer.normalizarTexto toLowerCase texto) = true.
Proof.
  unfold ExamViewer.normalizarTexto. destruct (truthy texto) as [t|]; [|done].
  unfold ExamViewer.trim, ExamViewer.collapseWhitespace.
  apply trimEnd_barFree, trimStart_barFree, collapseFrom_barFree,
    replacePunctuation_barFree.
Qed.

Lemma opcionesNormalizadas_clean (p : ExamViewer.Pregunta) :
  Forall (λ t, barFree t = true ∧ t ≠ "") (opcionesNormalizadas toLowerCase p).
Proof.
  apply Forall_forall. intros t Ht. unfold opcionesNormalizadas in Ht.
  apply elem_of_List_filter in Ht as [Ht Hne].
  apply list_elem_of_In, in_map_iff in Ht as (op & <- & _).
  split; [apply normalizarTexto_barFree|].
  intros Hempty. rewrite Hempty in Hne. done.
Qed.

Lemma contenido_parts (p : ExamViewer.Pregunta) :
  ExamViewer.contenido toLowerCase p
  = (ExamViewer.normalizarTexto toLowerCase (ExamViewer.enunciado p) ++ "|"
     ++ String.concat "|"
          (merge_sort String.le (opcionesNormalizadas toLowerCase p)))%string.
Proof.
  unfold ExamViewer.contenido, ExamViewer.opcionesNorm, opcionesNormalizadas, opcionesOf.
  f_equal. unfold ExamViewer.normalizarTexto, truthy.
  destruct (ExamViewer.enunciado p) as [s|]; [|done].
  destruct (String.eqb_spec s "") as [->|Hne]; [done|]. simpl.
  by destruct (String.eqb_spec s "").
Qed.

(** X20. Two questions have the same content text, the text that is
    hashed, exactly when their prompts have the same normalized text and
    their options have, in some order, the same normalized texts, empty
    ones left out.  This holds whatever [toLowerCase] is. *)
Theorem X20_same_content (p p' : ExamViewer.Pregunta) :
  ExamViewer.contenido toLowerCase p = ExamViewer.contenido toLowerCase p'
  ↔ ExamViewer.normalizarTexto toLowerCase (ExamViewer.enunciado p)
    = ExamViewer.normalizarTexto toLowerCase (ExamViewer.enunciado p')
    ∧ opcionesNormalizadas toLowerCase p ≡ₚ opcionesNormalizadas toLowerCase p'.
Proof.
  rewrite !contenido_parts. split.
  - intros Heq.
    apply split_bar in Heq as [Hprompt Hoptions]; try apply normalizarTexto_barFree.
    split; [done|].
    apply concat_bar_inj in Hoptions.
    + rewrite <- (merge_sort_Permutation String.le (opcionesNormalizadas toLowerCase p)).
      rewrite Hoptions. apply merge_sort_Permutation.
    + rewrite merge_sort_Permutation. apply opcionesNormalizadas_clean.
    + rewrite merge_sort_Permutation. apply opcionesNormalizadas_clean.
  - intros [-> Hperm]. by rewrite (merge_sort_Permutation_eq _ _ Hperm).
Qed.

End SameContent.

(** ** The filters of the viewer *)

Section ViewerFilters.

Variable lowerCase : string → string.

Lemma keeps_cases (f : ExamViewer.Filters.t) (q : ExamViewer.Question) :
  ExamViewer.keeps lowerCase f q
  = if viewerSelects f q
    then if String.eqb (ExamViewer.Filters.search f) "" then Some true
         else match ExamViewer.enunciado (ExamViewer.pregunta q) with
              | Some _ => Some (viewerSearch lowerCase f q)
              | None => None
              end
    else Some false.
Proof.
  unfold ExamViewer.keeps, viewerSelects, viewerSearch.
  destruct (String.eqb (ExamViewer.Filters.titulacion f) "all"),
    (String.eqb (ExamViewer.examen_titulacion q) (ExamViewer.Filters.titulacion f)),
    (String.eqb (ExamViewer.Filters.convocatoria f) "all"),
    (String.eqb (ExamViewer.examen_convocatoria q) (ExamViewer.Filters.convocatoria f)),
    (String.eqb (ExamViewer.Filters.test f) "all"),
    (String.eqb (ExamViewer.examen_test q) (ExamViewer.Filters.test f)),
    (String.eqb (ExamViewer.Filters.tema f) "all"),
    (bool_decide (ExamViewer.tema (ExamViewer.pregunta q)
                  = Some (ExamViewer.Filters.tema f)));
    simpl; try reflexivity;
    destruct (String.eqb (ExamViewer.Filters.search f) ""); simpl; try reflexivity;
    destruct (ExamViewer.enunciado (ExamViewer.pregunta q)); try reflexivity;
    destruct (FilterManager.includes _ _), (FilterManager.includes _ _); reflexivity.
Qed.

Lemma filterQuestions_None (f : ExamViewer.Filters.t) (qs : list ExamViewer.Question) :
  ExamViewer.filterQuestions lowerCase f qs = None
  ↔ ∃ q, q ∈ qs ∧ ExamViewer.keeps lowerCase f q = None.
Proof.
  induction qs as [|q qs IH]; simpl.
  - split; [done|]. intros (q & Hq & _). by apply elem_of_nil in Hq.
  - destruct (ExamViewer.keeps lowerCase f q) as [keep|] eqn:Hkeep.
    + destruct (ExamViewer.filterQuestions lowerCase f qs) as [rest|].
      * split; [done|]. intros (q' & Hq' & Hnone).
        apply elem_of_cons in Hq' as [->|Hq']; [congruence|].
        assert (Hcontra : Some rest = None) by (apply IH; by exists q'). done.
      * split; [|done]. intros _. destruct (proj1 IH eq_refl) as (q' & Hq' & Hnone).
        exists q'. split; [by apply elem_of_cons; right|done].
    + split; [|done]. intros _. exists q. split; [by apply elem_of_cons; left|done].
Qed.

Lemma filterQuestions_Some (f : ExamViewer.Filters.t) (qs r : list ExamViewer.Question) :
  ExamViewer.filterQuestions lowerCase f qs = Some r →
  r = List.filter (λ q, viewerSelects f q && viewerSearch lowerCase f q) qs.
Proof.
  revert r. induction qs as [|q qs IH]; intros r; simpl; [by intros [= <-]|].
  rewrite keeps_cases.
  destruct (ExamViewer.filterQuestions lowerCase f qs) as [rest|].
  - specialize (IH rest eq_refl). rewrite <- IH. clear IH.
    assert (Hempty : String.eqb (ExamViewer.Filters.search f) "" = true →
                     viewerSearch lowerCase f q = true)
      by (unfold viewerSearch; by intros ->).
    destruct (viewerSelects f q); cbn [andb]; [|by intros [= <-]].
    destruct (String.eqb (ExamViewer.Filters.search f) "").
    + rewrite Hempty by done. by intros [= <-].
    + destruct (ExamViewer.enunciado (ExamViewer.pregunta q)) as [e|]; [|done].
      by intros [= <-].
  - destruct (viewerSelects f q); [|done].
    destruct (String.eqb (ExamViewer.Filters.search f) ""); [done|].
    by destruct (ExamViewer.enunciado (ExamViewer.pregunta q)).
Qed.

Lemma renderCards_None (qs : list ExamViewer.Question) :
  ExamViewer.renderCards qs = None
  ↔ ∃ q, q ∈ qs ∧ ExamViewer.opciones (ExamViewer.pregunta q) = None.
Proof.
  induction qs as [|q qs IH]; simpl.
  - split; [done|]. intros (q & Hq & _). by apply elem_of_nil in Hq.
  - unfold ExamViewer.createQuestionCard.
    destruct (ExamViewer.opciones (ExamViewer.pregunta q)) as [os|] eqn:Hos.
    + destruct (ExamViewer.renderCards qs) as [cards|].
      * split; [done|]. intros (q' & Hq' & Hnone).
        apply elem_of_cons in Hq' as [->|Hq']; [congruence|].
        assert (Hcontra : Some cards = None) by (apply IH; by exists q'). done.
      * split; [|done]. intros _. destruct (proj1 IH eq_refl) as (q' & Hq' & Hnone).
        exists q'. split; [by apply elem_of_cons; right|done].
    + split; [|done]. intros _. exists q. split; [by apply elem_of_cons; left|done].
Qed.

Lemma renderCards_Some (qs : list ExamViewer.Question) :
  is_Some (ExamViewer.renderCards qs)
  ↔ ∀ q, q ∈ qs → ExamViewer.opciones (ExamViewer.pregunta q) ≠ None.
Proof.
  split.
  - intros [cards Hcards] q Hq Hnone.
    assert (Hcontra : ExamViewer.renderCards qs = None)
      by (apply renderCards_None; by exists q).
    congruence.
  - intros Hall. destruct (ExamViewer.renderCards qs) as [cards|] eqn:Hcards; [done|].
    apply renderCards_None in Hcards as (q & Hq & Hnone). by destruct (Hall q Hq).
Qed.

Lemma renderQuestions_first {A} (l : list A) :
  ExamViewer.renderQuestions l 1 = take 10 l.
Proof. change 1%Z with (Z.of_nat 1). by rewrite renderQuestions_page. Qed.

(** X21. [applyFilters] of the viewer takes the questions of the loaded
    exams that meet the filters, in document order, deduplicated when the
    box for duplicates is unchecked, and goes to the first page.  It stops
    with a TypeError in the filter, with nothing assigned, exactly when a
    search text is set and a question that meets the other filters has no
    prompt.  Otherwise the questions and the page are assigned, and then it
    returns exactly when each of the first ten questions taken has options;
    when one of them has none it stops with a TypeError while the cards are
    built.  With the filters of [clearFilters] every question is taken;
    without data it returns and changes nothing. *)
Theorem X21_viewer_filters (f : ExamViewer.Filters.t)
    (examenes : list ExamViewer.Examen) (shown : ExamViewer.Filtered * Z) :
  let all := ExamViewer.collectQuestions examenes in
  let outcome := ExamViewer.applyFilters lowerCase f (Some examenes) shown in
  (outcome = ExamViewer.ThrowsInFilter
   ↔ ExamViewer.Filters.search f ≠ ""
     ∧ ∃ q, q ∈ all ∧ viewerSelects f q = true
            ∧ ExamViewer.enunciado (ExamViewer.pregunta q) = None)
  ∧ (outcome ≠ ExamViewer.ThrowsInFilter →
     ∃ qs, sublist qs all
           ∧ (∀ q, q ∈ qs ↔ q ∈ all ∧ viewerSelects f q = true
                             ∧ viewerSearch lowerCase f q = true)
           ∧ let taken := if ExamViewer.Filters.duplicados f
                          then ExamViewer.WithDuplicates qs
                          else ExamViewer.WithoutDuplicates
                                 (ExamViewer.deduplicateQuestions qs) in
             let firstPage := take 10 (ExamViewer.shownQuestions taken) in
             (outcome = ExamViewer.Returns (taken, 1%Z)
              ↔ ∀ q, q ∈ firstPage
                     → ExamViewer.opciones (ExamViewer.pregunta q) ≠ None)
             ∧ (outcome = ExamViewer.ThrowsInRender (taken, 1%Z)
                ↔ ∃ q, q ∈ firstPage
                       ∧ ExamViewer.opciones (ExamViewer.pregunta q) = None))
  ∧ (let cleared := ExamViewer.applyFilters lowerCase ExamViewer.clearFilters
                      (Some examenes) shown in
     (cleared = ExamViewer.Returns (ExamViewer.WithDuplicates all, 1%Z)
      ↔ ∀ q, q ∈ take 10 all
             → ExamViewer.opciones (ExamViewer.pregunta q) ≠ None)
     ∧ (cleared = ExamViewer.ThrowsInRender (ExamViewer.WithDuplicates all, 1%Z)
        ↔ ∃ q, q ∈ take 10 all
               ∧ ExamViewer.opciones (ExamViewer.pregunta q) = None))
  ∧ ExamViewer.applyFilters lowerCase f None shown = ExamViewer.Returns shown.
Proof.
  assert (Hrender : ∀ taken,
    let firstPage := take 10 (ExamViewer.shownQuestions taken) in
    let outcome :=
      match ExamViewer.renderCards
              (ExamViewer.renderQuestions (ExamViewer.shownQuestions taken) 1) with
      | Some _ => ExamViewer.Returns (taken, 1%Z)
      | None => ExamViewer.ThrowsInRender (taken, 1%Z)
      end in
    (outcome = ExamViewer.Returns (taken, 1%Z)
     ↔ ∀ q, q ∈ firstPage → ExamViewer.opciones (ExamViewer.pregunta q) ≠ None)
    ∧ (outcome = ExamViewer.ThrowsInRender (taken, 1%Z)
       ↔ ∃ q, q ∈ firstPage ∧ ExamViewer.opciones (ExamViewer.pregunta q) = None)).
  { intros taken. cbv zeta. rewrite renderQuestions_first.
    rewrite <- renderCards_Some, <- renderCards_None.
    destruct (ExamViewer.renderCards _) as [cards|]; split; split; done. }
  intros all outcome. subst all outcome.
  split; [|split; [|split; [|done]]].
  - unfold ExamViewer.applyFilters.
    destruct (ExamViewer.filterQuestions lowerCase f _) as [r|] eqn:Hfilter.
    + split; [by cbv zeta; destruct (ExamViewer.renderCards _)|].
      intros (Hsearch & q & Hq & Hselects & Hprompt).
      assert (Hnone : ExamViewer.filterQuestions lowerCase f
                        (ExamViewer.collectQuestions examenes) = None).
      { apply filterQuestions_None. exists q. split; [done|].
        rewrite keeps_cases, Hselects, Hprompt.
        by destruct (String.eqb_spec (ExamViewer.Filters.search f) ""). }
      rewrite Hnone in Hfilter. discriminate Hfilter.
    + split; [|done]. intros _.
      apply filterQuestions_None in Hfilter as (q & Hq & Hnone).
      rewrite keeps_cases in Hnone.
      destruct (viewerSelects f q) eqn:Hselects; [|done].
      destruct (String.eqb_spec (ExamViewer.Filters.search f) "") as [|Hsearch]; [done|].
      split; [done|]. exists q. repeat split; try done.
      by destruct (ExamViewer.enunciado (ExamViewer.pregunta q)).
  - unfold ExamViewer.applyFilters.
    destruct (ExamViewer.filterQuestions lowerCase f _) as [r|] eqn:Hfilter; [|done].
    intros _. exists r.
    apply filterQuestions_Some in Hfilter as ->.
    split; [apply filter_sublist|]. split.
    + intros q. rewrite elem_of_List_filter, andb_true_iff. tauto.
    + cbv zeta. destruct (ExamViewer.Filters.duplicados f); apply Hrender.
  - unfold ExamViewer.applyFilters.
    assert (Hall : ∀ qs, ExamViewer.filterQuestions lowerCase ExamViewer.clearFilters qs
                         = Some qs).
    { induction qs as [|q qs IH]; [done|]. simpl. by rewrite IH. }
    rewrite Hall. cbv zeta.
    apply (Hrender (ExamViewer.WithDuplicates (ExamViewer.collectQuestions examenes))).
Qed.

End ViewerFilters.

(** ** The occurrences listed by the deduplication *)

Lemma filter_none {A} (P : A → bool) (l : list A) :
  (∀ x, x ∈ l → P x = false) → List.filter P l = [].
Proof.
  induction l as [|x l IH]; intros Hnone; [done|]. simpl.
  rewrite (Hnone x) by (by apply elem_of_cons; left).
  apply IH. intros y Hy. apply Hnone. by apply elem_of_cons; right.
Qed.

Section Occurrences.
Import ExamViewer.

Lemma hasHash_present (h : string) (q : Question) :
  h ≠ "" → hasHash h q = true ↔ presentHash q = Some h.
Proof.
  intros Hne. unfold hasHash, presentHash, truthy.
  destruct (hash_pregunta (pregunta q)) as [s|]; [|done].
  destruct (String.eqb_spec s h) as [->|Hsh].
  - destruct (String.eqb_spec h ""); [done|]. done.
  - split; [done|]. destruct (String.eqb s ""); [done|]. by intros [= ->].
Qed.

Lemma presentHash_nonempty (q : Question) (h : string) :
  presentHash q = Some h → h ≠ "".
Proof.
  unfold presentHash, truthy. destruct (hash_pregunta (pregunta q)) as [s|]; [|done].
  destruct (String.eqb_spec s ""); [done|]. by intros [= <-].
Qed.

Lemma count_if_ext_in {A} (P Q : A → bool) (l : list A) :
  (∀ x, x ∈ l → P x = Q x) → count_if P l = count_if Q l.
Proof.
  induction l as [|x l IH]; intros Heq; [done|]. rewrite !count_if_cons.
  rewrite (Heq x) by (by apply elem_of_cons; left).
  rewrite IH; [done|]. intros y Hy. apply Heq. by apply elem_of_cons; right.
Qed.

Lemma counts_by_hash (hashes : list string) (l : list Question) :
  NoDup hashes →
  sum_list_with (λ h, count_if (hasHash h) l) hashes = count_if (inHashes hashes) l.
Proof.
  induction hashes as [|h hashes IH]; intros Hnodup.
  - simpl. unfold count_if. by rewrite List.filter_false.
  - apply NoDup_cons in Hnodup as [Hnew Hnodup]. cbn [sum_list_with].
    rewrite IH by done. symmetry. apply count_if_split; [done|].
    intros q. destruct (hasHash h q) eqn:Hq; [|done]. simpl.
    apply not_true_is_false. intros Hin. unfold inHashes in Hin.
    apply existsb_exists in Hin as (h' & Hh' & Hq'). apply Hnew.
    unfold hasHash in Hq, Hq'. destruct (hash_pregunta (pregunta q)) as [s|]; [|done].
    apply String.eqb_eq in Hq, Hq'. subst. by apply list_elem_of_In.
Qed.

Lemma firstOccurrences_cover (qs : list Question) : ∀ seen q h,
  q ∈ qs → presentHash q = Some h →
  h ∈ seen ∨ Some h ∈ map presentHash (firstOccurrences seen qs).
Proof.
  induction qs as [|q0 qs IH]; intros seen q h Hq Hh; [by apply elem_of_nil in Hq|].
  simpl. apply elem_of_cons in Hq as [->|Hq].
  - unfold presentHash in Hh. rewrite Hh.
    destruct (bool_decide_reflect (h ∈ seen)); [by left|]. right. simpl.
    unfold presentHash at 1. rewrite Hh. by apply elem_of_cons; left.
  - destruct (truthy (hash_pregunta (pregunta q0))) as [h0|] eqn:H0; [|by apply (IH _ q)].
    destruct (bool_decide_reflect (h0 ∈ seen)); [by apply (IH _ q)|].
    destruct (IH (seen ++ [h0]) q h Hq Hh) as [Hin|Hin].
    + apply elem_of_app in Hin as [Hin|Hin]; [by left|]. right.
      apply list_elem_of_singleton in Hin as ->. simpl.
      unfold presentHash at 1. rewrite H0. by apply elem_of_cons; left.
    + right. simpl. by apply elem_of_cons; right.
Qed.

(** X22. The occurrences [deduplicateQuestions] lists account for every
    question with a hash exactly once: their number, over all the questions
    returned, is the number of input questions that have a hash; and the
    first occurrence listed for a question returned is that question
    itself. *)
Theorem X22_occurrences_account (qs : list Question) :
  sum_list_with (λ e, length (todas_apariciones e)) (deduplicateQuestions qs)
  = count_if (λ q, isTruthy (hash_pregunta (pregunta q))) qs
  ∧ ∀ e, e ∈ deduplicateQuestions qs →
      head (todas_apariciones e) = Some (occurrence (question e)).
Proof.
  rewrite deduplicateQuestions_firstOccurrences.
  set (first := firstOccurrences [] qs).
  set (hashOf := λ q : Question, default "" (presentHash q)).
  assert (Hpresent : ∀ q, q ∈ first → presentHash q = Some (hashOf q)).
  { intros q Hq. apply firstOccurrences_elem in Hq as (_ & h & _ & Hh & _).
    unfold hashOf. by rewrite Hh. }
  split.
  - assert (Hsum : sum_list_with (λ e, length (todas_apariciones e))
                     (map (λ q, enhance qs (hashOf q) q) first)
                   = sum_list_with (λ h, count_if (hasHash h) qs) (map hashOf first)).
    { induction first as [|q l IH]; [done|]. simpl. rewrite IH.
      - by rewrite length_map.
      - intros q' Hq'. apply Hpresent. by apply elem_of_cons; right. }
    etransitivity; [exact Hsum|]. clear Hsum.
    assert (Hhashes : map presentHash first = map Some (map hashOf first)).
    { rewrite map_map. apply map_ext_in. intros q Hq.
      apply Hpresent. by apply list_elem_of_In. }
    assert (Hnodup : NoDup (map hashOf first)).
    { apply (NoDup_fmap_1 Some). change (NoDup (map Some (map hashOf first))).
      rewrite <- Hhashes. apply firstOccurrences_NoDup. }
    rewrite counts_by_hash by done. apply count_if_ext_in. intros q Hq.
    destruct (isTruthy (hash_pregunta (pregunta q))) eqn:Htruthy.
    + unfold isTruthy in Htruthy.
      destruct (truthy (hash_pregunta (pregunta q))) as [h|] eqn:Hh; [|done].
      destruct (firstOccurrences_cover qs [] q h Hq Hh) as [Hin|Hin];
        [by apply elem_of_nil in Hin|].
      fold first in Hin. rewrite Hhashes in Hin.
      apply list_elem_of_In, in_map_iff in Hin as (h' & [= ->] & Hin).
      apply existsb_exists. exists h. split; [done|].
      apply hasHash_present; [by apply (presentHash_nonempty q)|done].
    + apply not_true_is_false. intros Hin. apply existsb_exists in Hin as (h & Hh & Hq').
      apply in_map_iff in Hh as (q' & <- & Hfirst).
      apply list_elem_of_In, Hpresent in Hfirst.
      apply hasHash_present in Hq'; [|by apply (presentHash_nonempty q')].
      unfold presentHash in Hq'. unfold isTruthy in Htruthy. by rewrite Hq' in Htruthy.
  - intros e He. apply list_elem_of_In, in_map_iff in He as (q & <- & Hq).
    apply list_elem_of_In, firstOccurrences_elem in Hq as (i & h & Hi & Hh & _ & Hearlier).
    simpl. unfold hashOf. rewrite Hh. simpl.
    rewrite <- (take_drop_middle qs i q Hi), List.filter_app.
    assert (Hnone : List.filter (hasHash h) (take i qs) = []).
    { apply filter_none. intros q' Hq'.
      apply list_elem_of_lookup in Hq' as [j Hj].
      apply lookup_take_Some in Hj as [Hj Hlt].
      apply not_true_is_false. intros Hhas.
      apply hasHash_present in Hhas; [|by apply (presentHash_nonempty q)].
      by apply (Hearlier j q'). }
    rewrite Hnone. simpl.
    by rewrite (proj2 (hasHash_present h q (presentHash_nonempty q h Hh)) Hh).
Qed.

End Occurrences.

(** ** From the button to the explanation *)

Section RoundTrip.
Import ExamViewer.

(** X23. For a question of the loaded data known under its own hash and
    without a cached explanation: its button asks for a generation; a click
    sends one request, for a question known under that hash; once the
    generator has replied and the save has ended, without a further
    request, the explanation is in the cache and on screen, and the button
    of the question shows it. *)
Theorem X23_generate_round_trip (v : Viewer) (examenes : list Examen) (ex : Examen)
    (p : Pregunta) (h : string) (e : Explicacion) :
  data v = Some examenes → ex ∈ examenes → p ∈ preguntas ex →
  getExplanationHash p = Some h → preguntaHash p = Some h →
  explicaciones v !! h = None →
  let q := withExamen ex p in
  let i := length (tasks v) in
  let v1 := click (renderExplanationButton q v) v in
  let v3 := run [GeneratorReplies i (ReplyExplicacion e); SaveReplies i] v1 in
  renderExplanationButton q v = GenerateButton h
  ∧ (∃ q', generatorCalls v1 = generatorCalls v ++ [q']
           ∧ preguntaHash (pregunta q') = Some h)
  ∧ generatorCalls v3 = generatorCalls v1
  ∧ explicaciones v3 !! h = Some e
  ∧ modal v3 = Some (e, h)
  ∧ renderExplanationButton q v3 = ViewButton h.
Proof.
  intros Hdata Hex Hp Hhash Hknown Hnew. simpl.
  assert (Hbutton : renderExplanationButton (withExamen ex p) v = GenerateButton h).
  { unfold renderExplanationButton, checkExplanationExists. simpl. rewrite Hhash.
    unfold getExplanationHash in Hhash. by rewrite (truthy_Some _ _ Hhash), Hnew. }
  rewrite Hbutton. split; [done|]. simpl.
  destruct (findQuestionByHash h v) as [q'|] eqn:Hfind.
  - assert (Hq' : preguntaHash (pregunta q') = Some h).
    { rewrite findQuestionByHash_first, Hdata in Hfind.
      destruct (List.filter _ _) as [|q0 rest] eqn:Hfilter; [done|].
      injection Hfind as ->.
      assert (Hin : q' ∈ List.filter (knownAs h) (allQuestions examenes))
        by (rewrite Hfilter; by apply elem_of_cons; left).
      apply elem_of_List_filter in Hin as [_ Hin]. by apply bool_decide_eq_true in Hin. }
    unfold generateExplanation. rewrite Hfind.
    split; [by exists q'|]. unfold run. simpl.
    unfold generatorReplies. simpl.
    rewrite lookup_app_r, Nat.sub_diag by done. simpl.
    unfold saveReplies. simpl.
    rewrite list_lookup_insert_eq by (rewrite length_app; simpl; lia). simpl.
    unfold saveExplanation. simpl. rewrite Hdata. simpl.
    unfold showExplanation. simpl. rewrite lookup_insert_eq. simpl.
    split; [done|]. split; [apply lookup_insert_eq|]. split; [done|].
    unfold renderExplanationButton, checkExplanationExists. simpl. rewrite Hhash.
    unfold getExplanationHash in Hhash. rewrite (truthy_Some _ _ Hhash). simpl.
    by rewrite lookup_insert_eq.
  - exfalso.
    apply (proj1 (findQuestionByHash_none h v) Hfind examenes (withExamen ex p) Hdata);
      [|done].
    unfold allQuestions. apply list_elem_of_In, in_concat.
    exists (map (withExamen ex) (preguntas ex)).
    split; apply in_map_iff; eexists; (split; [reflexivity|]); by apply list_elem_of_In.
Qed.

End RoundTrip.

(** The round trip on the viewer [empty_cache] and its question. *)
Lemma X23_generate_round_trip_witness :
  ExamViewer.modal
    (ExamViewer.run
       [ExamViewer.GeneratorReplies 0 (ExamViewer.ReplyExplicacion first_explanation);
        ExamViewer.SaveReplies 0]
       (ExamViewer.click
          (ExamViewer.renderExplanationButton (ExamViewer.withExamen one_exam bocina)
                                              empty_cache)
          empty_cache))
  = Some (first_explanation, "0f3a9c5e7b1d2468").
Proof.
  refine (proj1 (proj2 (proj2 (proj2 (proj2
            (X23_generate_round_trip empty_cache [one_exam] one_exam bocina
               "0f3a9c5e7b1d2468" first_explanation eq_refl _ _ eq_refl eq_refl
               eq_refl)))))).
  - by apply elem_of_cons; left.
  - by apply elem_of_cons; left.
Defined.

(** ** The end of the time *)

(** X24. The firing of the timer that finds at most one second left takes
    it off and calls [timeUp], but the exam ends only when every question
    is answered or the confirmation is accepted: then the results the
    server replies with are shown and the timer is cleared.  When questions
    are left and the confirmation is declined, the exam goes on, with a new
    live timer and no time left. *)
Theorem X24_time_up (s : ExamSystem.State) (ex : ExamSystem.Exam) (h : nat)
    (confirmFinish : bool) (reply : option ExamSystem.SubmitResults) :
  ExamSystem.currentExam s = Some ex →
  ExamSystem.examTimer s = Some h → h ∈ ExamSystem.intervals s →
  ExamSystem.shown s = ExamSystem.ExamSection →
  (ExamSystem.timeRemaining s ≤ 1)%Z →
  let s' := ExamSystem.tick h confirmFinish reply s in
  ExamSystem.timeRemaining s' = (ExamSystem.timeRemaining s - 1)%Z
  ∧ ExamSystem.userAnswers s' = ExamSystem.userAnswers s
  ∧ ((size (ExamSystem.userAnswers s) < length (ExamSystem.questions ex))%nat →
     confirmFinish = false →
     ExamSystem.status s' = ExamSystem.in_progress
     ∧ ExamSystem.examTimer s' = Some (ExamSystem.nextHandle s)
     ∧ ExamSystem.nextHandle s ∈ ExamSystem.intervals s')
  ∧ (((length (ExamSystem.questions ex) ≤ size (ExamSystem.userAnswers s))%nat
      ∨ confirmFinish = true) →
     (h ∉ ExamSystem.intervals s')
     ∧ ∀ results, reply = Some results →
         ExamSystem.status s' = ExamSystem.completed
         ∧ ExamSystem.examResults s' = Some results).
Proof.
  intros Hex Htimer Hlive Hshown Htime.
  destruct s as [cur i ans tm t res live next v]. simpl in *. subst cur tm v.
  unfold ExamSystem.tick. simpl.
  destruct (decide (h ∈ live)) as [_|Hno]; [|done].
  destruct (Z.leb_spec (t - 1) 0) as [_|Hpos]; [|lia].
  unfold ExamSystem.timeUp, ExamSystem.finishExam. simpl.
  assert (Hgone : h ∉ live ∖ {[h]} ∖ {[h]}).
  { intros Hin. apply elem_of_difference in Hin as [_ Hin]. apply Hin.
    by apply elem_of_singleton. }
  assert (Hnew : next ∈ {[next]} ∪ live ∖ {[h]} ∖ {[h]})
    by (apply elem_of_union; left; by apply elem_of_singleton).
  destruct (Nat.ltb_spec (size ans) (length (ExamSystem.questions ex))) as [Hleft|Hall];
    destruct confirmFinish; simpl; destruct reply as [r|]; simpl;
    (split; [done|]); (split; [done|]); split.
  all: try (intros Hlt Hc; (discriminate Hc || lia)).
  all: try (intros _ _; by repeat split).
  all: try (intros [Hle|Hc]; [lia|discriminate Hc]).
  all: intros _; (split; [exact Hgone|]); intros results Hr.
  all: try discriminate Hr.
  all: by injection Hr as <-.
Qed.

(** One second left on [just_started], and the confirmation declined: the
    exam goes on. *)
Lemma X24_time_up_witness :
  ExamSystem.status
    (ExamSystem.tick 1 false None (ExamSystem.set_timeRemaining 1 just_started))
  = ExamSystem.in_progress.
Proof.
  refine (proj1 (proj1 (proj2 (proj2
            (X24_time_up (ExamSystem.set_timeRemaining 1 just_started) exam_of_two 1
               false None eq_refl eq_refl _ eq_refl _))) _ eq_refl)).
  - apply elem_of_union. left. by apply elem_of_singleton.
  - simpl. lia.
  - vm_compute. lia.
Defined.
